(** * CasperJS tester module ([modules/tester.js]): a shallow embedding

    The development follows the layout of the source file:
    - the fragment of JavaScript values the tester compares, with
      [utils.betterTypeOf] and [Tester.testEquals];
    - the [Tester] object, its [testResults] and the assertion methods,
      as computations that thread the tester and may throw or end the
      process;
    - [findTestFiles] and the path resolution of [runSuites] over a
      tree-shaped file system;
    - [exec], [runTest], [runSuites] and the interval callback, as a
      transition system driven by what the event loop delivers.

    Definitions come first, properties afterwards. *)

From Stdlib Require Import List String Ascii Bool Arith ZArith Lia.
From Stdlib Require Import Floats.SpecFloat.
From Stdlib Require Import Sorting.Permutation.
From Stdlib Require Import DecimalString DecimalNat.
Import ListNotations.

Set Warnings "-register-all".

Local Open Scope string_scope.
Local Open Scope list_scope.

(* ================================================================== *)
(** ** JavaScript values *)
(* ================================================================== *)

(** The internal [[Class]] of an object, as far as
    [Object.prototype.toString] tells it apart. *)
Inductive objclass : Type :=
| OPlain | OArray | ODate | ORegExp | OError.

(** Values are finite trees: a primitive, a function (known through its
    source text, the only thing [testEquals] reads of it), or an object
    of some class with its own enumerable properties in insertion order.
    An array is an object of class [OArray] whose property names are its
    indices.  Being an inductive type, a value is never cyclic. *)
Inductive value : Type :=
| VUndefined
| VNull
| VBool (b : bool)
| VNumber (x : spec_float)
| VString (s : string)
| VFunction (source : string)
| VObject (cls : objclass) (props : list (string * value)).

(** An integer as a JavaScript number. *)
Definition num (z : Z) : value :=
  match z with
  | Z0 => VNumber (S754_zero false)
  | Zpos p => VNumber (S754_finite false p 0)
  | Zneg p => VNumber (S754_finite true p 0)
  end.

Definition NaN : value := VNumber S754_nan.

Definition class_tag (c : objclass) : string :=
  match c with
  | OPlain => "object"
  | OArray => "array"
  | ODate => "date"
  | ORegExp => "regexp"
  | OError => "error"
  end.

(** Modelled from the spec: [utils.betterTypeOf] lives in the [utils]
    module; it yields the refined type tag of a value, distinguishing
    null, undefined, boolean, number, string, array, function, plain
    object and the other object subtypes. *)
Definition betterTypeOf (v : value) : string :=
  match v with
  | VUndefined => "undefined"
  | VNull => "null"
  | VBool _ => "boolean"
  | VNumber _ => "number"
  | VString _ => "string"
  | VFunction _ => "function"
  | VObject c _ => class_tag c
  end.

(** [utils.isFunction(v)] is [betterTypeOf(v) === "function"]. *)
Definition isFunction (v : value) : bool :=
  String.eqb (betterTypeOf v) "function".

(** [v instanceof Object] for the values that remain once functions are
    set aside. *)
Definition instanceofObject (v : value) : bool :=
  match v with
  | VObject _ _ | VFunction _ => true
  | _ => false
  end.

(** [v.toString()] of a function is its source text; [testEquals] calls
    it on functions only. *)
Definition toString (v : value) : string :=
  match v with
  | VFunction s => s
  | _ => ""
  end.

(** [Object.keys(v)]. *)
Definition keys (v : value) : list string :=
  match v with
  | VObject _ ps => map fst ps
  | _ => []
  end.

Fixpoint lookup (k : string) (ps : list (string * value)) : option value :=
  match ps with
  | [] => None
  | (k', x) :: ps' => if String.eqb k k' then Some x else lookup k ps'
  end.

(** [v[k]] among the own enumerable properties: the property stored
    under [k], [undefined] when there is none.  This is what [v[k]]
    yields for every name that no inherited member and no hidden own
    property of [v] answers for; [get_in] below reads those as well. *)
Definition get (v : value) (k : string) : value :=
  match v with
  | VObject _ ps =>
      match lookup k ps with
      | Some x => x
      | None => VUndefined
      end
  | _ => VUndefined
  end.

(** [v1 === v2] on primitives.  Two numbers compare as IEEE 754 values
    (so [NaN === NaN] is false and [0 === -0] is true).  Objects and
    functions compare by reference, which [testEquals] never asks for:
    it reaches [===] with primitives only (see [strict_only_primitives]). *)
Definition strict_equals (v1 v2 : value) : bool :=
  match v1, v2 with
  | VUndefined, VUndefined => true
  | VNull, VNull => true
  | VBool a, VBool b => Bool.eqb a b
  | VNumber x, VNumber y => SFeqb x y
  | VString s, VString t => String.eqb s t
  | _, _ => false
  end.

(** [Tester.testEquals] (tester.js, lines 526-545), with [v2[k]] read
    by [get]. *)
Fixpoint testEquals (v1 v2 : value) {struct v1} : bool :=
  if negb (String.eqb (betterTypeOf v1) (betterTypeOf v2)) then false
  else if isFunction v1 then String.eqb (toString v1) (toString v2)
  else
    match v1 with
    | VObject _ ps1 =>
        if instanceofObject v2 then
          if negb (Nat.eqb (List.length (keys v1)) (List.length (keys v2))) then false
          else
            (fix forin (ps : list (string * value)) : bool :=
               match ps with
               | [] => true
               | (k, x) :: ps' =>
                   if negb (testEquals x (get v2 k)) then false
                   else forin ps'
               end) ps1
        else strict_equals v1 v2
    | _ => strict_equals v1 v2
    end.

(** The [for (var k in v1)] loop of [testEquals], named. *)
Fixpoint forin_equals (ps : list (string * value)) (v2 : value) : bool :=
  match ps with
  | [] => true
  | (k, x) :: ps' =>
      if negb (testEquals x (get v2 k)) then false else forin_equals ps' v2
  end.

(** Property names of an object are pairwise distinct, at every depth:
    the data invariant of JavaScript objects. *)
Fixpoint nodupb (l : list string) : bool :=
  match l with
  | [] => true
  | k :: l' => negb (existsb (String.eqb k) l') && nodupb l'
  end.

Fixpoint wf_value (v : value) : bool :=
  match v with
  | VObject _ ps =>
      nodupb (map fst ps)
      && (fix all (ps : list (string * value)) : bool :=
            match ps with
            | [] => true
            | (_, x) :: ps' => wf_value x && all ps'
            end) ps
  | _ => true
  end.

(** No NaN occurs anywhere in the value. *)
Fixpoint nan_free (v : value) : bool :=
  match v with
  | VNumber S754_nan => false
  | VObject _ ps =>
      (fix all (ps : list (string * value)) : bool :=
         match ps with
         | [] => true
         | (_, x) :: ps' => nan_free x && all ps'
         end) ps
  | _ => true
  end.

Definition has_key (v : value) (k : string) : bool :=
  existsb (String.eqb k) (keys v).

Definition plain (ps : list (string * value)) : value := VObject OPlain ps.

(** Equality of two plain objects in the words of the specification: the
    same number of own keys, and every key of either object exists in the
    other with recursively equal values. *)
Definition spec_plain_equals (pa pb : list (string * value)) : Prop :=
  List.length pa = List.length pb
  /\ (forall k x, In (k, x) pa ->
        exists y, In (k, y) pb /\ testEquals x y = true)
  /\ (forall k y, In (k, y) pb ->
        exists x, In (k, x) pa /\ testEquals x y = true).

(* ------------------------------------------------------------------ *)
(** ** Members reached through the prototype chain *)

(** [v2[k]] also finds what [Object.keys] and [for ... in] do not list:
    the members an object inherits through its prototype chain
    ([constructor], [toString], [hasOwnProperty], ...) and its own
    properties that are not enumerable (the [length] of an array).  Which
    names these are for an object of a given class, and what they hold,
    is up to the engine: [member_name c k] tells whether an object of
    class [c] answers for [k] in this way, and [member v k] with what. *)
Record Builtins : Type := mkBuiltins {
  member_name : objclass -> string -> bool;
  member : value -> string -> value
}.

(** [v[k]]: the own enumerable property if there is one, else the
    inherited or hidden member, else [undefined]. *)
Definition get_in (B : Builtins) (v : value) (k : string) : value :=
  match v with
  | VObject c ps =>
      match lookup k ps with
      | Some x => x
      | None => if member_name B c k then member B v k else VUndefined
      end
  | _ => VUndefined
  end.

(** [Tester.testEquals] (tester.js, lines 526-545), with [v2[k]] read
    through the prototype chain. *)
Fixpoint testEquals_in (B : Builtins) (v1 v2 : value) {struct v1} : bool :=
  if negb (String.eqb (betterTypeOf v1) (betterTypeOf v2)) then false
  else if isFunction v1 then String.eqb (toString v1) (toString v2)
  else
    match v1 with
    | VObject _ ps1 =>
        if instanceofObject v2 then
          if negb (Nat.eqb (List.length (keys v1)) (List.length (keys v2))) then false
          else
            (fix forin (ps : list (string * value)) : bool :=
               match ps with
               | [] => true
               | (k, x) :: ps' =>
                   if negb (testEquals_in B x (get_in B v2 k)) then false
                   else forin ps'
               end) ps1
        else strict_equals v1 v2
    | _ => strict_equals v1 v2
    end.

(** The [for (var k in v1)] loop of [testEquals], named. *)
Fixpoint forin_equals_in (B : Builtins) (ps : list (string * value))
         (v2 : value) : bool :=
  match ps with
  | [] => true
  | (k, x) :: ps' =>
      if negb (testEquals_in B x (get_in B v2 k)) then false
      else forin_equals_in B ps' v2
  end.

(** No property name of the value, at any depth, is one that an object of
    the same class answers for through its prototype chain. *)
Fixpoint own_only (B : Builtins) (v : value) : bool :=
  match v with
  | VObject c ps =>
      (fix all (ps : list (string * value)) : bool :=
         match ps with
         | [] => true
         | (k, x) :: ps' =>
             negb (member_name B c k) && own_only B x && all ps'
         end) ps
  | _ => true
  end.

(** Equality of two plain objects in the words of the specification,
    over [testEquals_in]. *)
Definition spec_plain_equals_in (B : Builtins)
           (pa pb : list (string * value)) : Prop :=
  List.length pa = List.length pb
  /\ (forall k x, In (k, x) pa ->
        exists y, In (k, y) pb /\ testEquals_in B x y = true)
  /\ (forall k y, In (k, y) pb ->
        exists x, In (k, x) pa /\ testEquals_in B x y = true).

(** A sample of the members every engine provides: those of
    [Object.prototype], the constructor of each class and the [length]
    of an array.  A native function prints as
    [function name() { [native code] }]. *)
Definition native (name : string) : value :=
  VFunction ("function " ++ name ++ "() { [native code] }").

Definition class_name (c : objclass) : string :=
  match c with
  | OPlain => "Object"
  | OArray => "Array"
  | ODate => "Date"
  | ORegExp => "RegExp"
  | OError => "Error"
  end.

Definition object_members : list string :=
  ["constructor"; "toString"; "toLocaleString"; "valueOf";
   "hasOwnProperty"; "isPrototypeOf"; "propertyIsEnumerable"].

Definition sample_builtins : Builtins :=
  {| member_name := fun c k =>
       existsb (String.eqb k) object_members
       || match c with
          | OArray => String.eqb k "length"
          | _ => false
          end;
     member := fun v k =>
       match v with
       | VObject c ps =>
           if String.eqb k "constructor" then native (class_name c)
           else if String.eqb k "length" then num (Z.of_nat (List.length ps))
           else native k
       | _ => VUndefined
       end |}.

(* ================================================================== *)
(** ** The Tester object *)
(* ================================================================== *)

(** An absolute path, as its components from the root. *)
Definition path : Type := list string.

(** The details object [{message: ..., file: ...}] passed to listeners and
    stored in [testResults.failures]. *)
Record details : Type := mkDetails {
  message : value;
  file : option path
}.

Record TestResults : Type := mkResults {
  passed : nat;
  failed : nat;
  failures : list details
}.

Inductive style : Type :=
| INFO | RED_BAR | GREEN_BAR | INFO_BAR | WARNING | COMMENT | ERROR | PARAMETER.

(** Text handed to [casper.echo], kept symbolic: the colorizer, the
    formatting helpers of [utils] and the message highlighting are
    recorded, not computed. *)
Inductive text : Type :=
| TStr (s : string)
| TVal (v : value)
| TPath (p : path)
| TNum (n : nat)
| TCat (a b : text)
| TJoin (parts : list text)
| TColor (t : text) (st : option style)
| TFormat (m : value) (st : option style)
| TFill (t : text)
| TSerialize (v : value).

Inductive out_line : Type :=
| Echo (t : text) (st : option style).

(** Calls received by the xunit exporter. *)
Inductive export_entry : Type :=
| AddSuccess (classname : string) (m : value)
| AddFailure (classname : string) (m : value) (detail : text) (kind : string).

(** Ghost record of the scheduling history, kept to state the ordering
    of suites; the source has no such field.  A suite was handed to
    [runTest], or [done] was called. *)
Inductive hist : Type :=
| HStart (f : path)
| HDone.

(** The tester: the fields the constructor sets ([currentTestFile],
    [running], [testResults]), its locals [PASS] and [FAIL], the [save]
    option, and what it has sent to its collaborators so far: the lines
    echoed, the exporter calls and the events emitted, oldest first. *)
Record Tester : Type := mkTester {
  currentTestFile : option path;
  running : bool;
  testResults : TestResults;
  PASS : string;
  FAIL : string;
  save : option path;
  output : list out_line;
  exported : list export_entry;
  emitted : list (string * details);
  history : list hist
}.

Record Options : Type := mkOptions {
  opt_PASS : option string;
  opt_FAIL : option string;
  opt_save : option path
}.

(** [o || d] on an optional string option: absent and empty are falsy. *)
Definition or_default (o : option string) (d : string) : string :=
  match o with
  | Some s => if String.eqb s "" then d else s
  | None => d
  end.

(** The constructor (lines 44-74), for a casper instance that passes
    [utils.isCasperObject]. *)
Definition create (options : Options) : Tester :=
  {| currentTestFile := None;
     running := false;
     testResults := {| passed := 0; failed := 0; failures := [] |};
     PASS := or_default (opt_PASS options) "PASS";
     FAIL := or_default (opt_FAIL options) "FAIL";
     save := opt_save options;
     output := [];
     exported := [];
     emitted := [];
     history := [] |}.

Definition set_results (r : TestResults) (t : Tester) : Tester :=
  mkTester (currentTestFile t) (running t) r (PASS t) (FAIL t) (save t)
           (output t) (exported t) (emitted t) (history t).

Definition set_running (b : bool) (t : Tester) : Tester :=
  mkTester (currentTestFile t) b (testResults t) (PASS t) (FAIL t) (save t)
           (output t) (exported t) (emitted t) (history t).

Definition set_currentTestFile (f : option path) (t : Tester) : Tester :=
  mkTester f (running t) (testResults t) (PASS t) (FAIL t) (save t)
           (output t) (exported t) (emitted t) (history t).

Definition add_output (l : out_line) (t : Tester) : Tester :=
  mkTester (currentTestFile t) (running t) (testResults t) (PASS t) (FAIL t)
           (save t) (output t ++ [l]) (exported t) (emitted t) (history t).

Definition add_export (e : export_entry) (t : Tester) : Tester :=
  mkTester (currentTestFile t) (running t) (testResults t) (PASS t) (FAIL t)
           (save t) (output t) (exported t ++ [e]) (emitted t) (history t).

Definition add_emitted (e : string * details) (t : Tester) : Tester :=
  mkTester (currentTestFile t) (running t) (testResults t) (PASS t) (FAIL t)
           (save t) (output t) (exported t) (emitted t ++ [e]) (history t).

Definition add_history (h : hist) (t : Tester) : Tester :=
  mkTester (currentTestFile t) (running t) (testResults t) (PASS t) (FAIL t)
           (save t) (output t) (exported t) (emitted t) (history t ++ [h]).

(** *** Computations on the tester

    A method either returns a value, throws, or ends the process
    ([casper.exit]); the tester is threaded through. *)
Inductive result (A : Type) : Type :=
| Ret (a : A)
| Thrown (e : value)
| Exited (status : nat).

Arguments Ret {A} a.
Arguments Thrown {A} e.
Arguments Exited {A} status.

Definition M (A : Type) : Type := Tester -> Tester * result A.

Definition ret {A} (a : A) : M A := fun t => (t, Ret a).

Definition bind {A B} (m : M A) (k : A -> M B) : M B :=
  fun t =>
    match m t with
    | (t', Ret a) => k a t'
    | (t', Thrown e) => (t', Thrown e)
    | (t', Exited s) => (t', Exited s)
    end.

Definition throw {A} (e : value) : M A := fun t => (t, Thrown e).

(** Modelled from the spec: [casper.exit] belongs to the driver; it is
    the process-exit trigger, terminating the process with the given
    status, so nothing after it runs and no [catch] sees it. *)
Definition casper_exit {A} (status : nat) : M A := fun t => (t, Exited status).

(** [try { body } catch (e) { handler(e) }]. *)
Definition try_catch {A} (body : M A) (handler : value -> M A) : M A :=
  fun t =>
    match body t with
    | (t', Thrown e) => handler e t'
    | r => r
    end.

Definition gets {A} (f : Tester -> A) : M A := fun t => (t, Ret (f t)).

Definition modify (f : Tester -> Tester) : M unit := fun t => (f t, Ret tt).

Declare Scope tester_scope.
Delimit Scope tester_scope with tester.
Notation "x <- m ;; k" := (bind m (fun x => k))
  (at level 61, m at next level, right associativity) : tester_scope.
Notation "m ;; k" := (bind m (fun _ => k))
  (at level 61, right associativity) : tester_scope.
Local Open Scope tester_scope.

(** The tester after a computation, and what the computation produced. *)
Definition state_after {A} (m : M A) (t : Tester) : Tester := fst (m t).
Definition outcome {A} (m : M A) (t : Tester) : result A := snd (m t).

Definition CasperError (msg : string) : value :=
  VObject OError [("message", VString msg)].

Definition TypeError (msg : string) : value :=
  VObject OError [("message", VString msg)].

(** [casper.echo(text, style)]. *)
Definition echo (t : text) (st : option style) : M unit :=
  modify (add_output (Echo t st)).

(** [this.testResults.passed++] and [this.testResults.failed++]. *)
Definition incr_passed : M unit :=
  modify (fun t =>
    let r := testResults t in
    set_results (mkResults (S (passed r)) (failed r) (failures r)) t).

Definition incr_failed : M unit :=
  modify (fun t =>
    let r := testResults t in
    set_results (mkResults (passed r) (S (failed r)) (failures r)) t).

(** The listener registered at line 72:
    [this.testResults.failures.push(details)]. *)
Definition on_fail (d : details) : M unit :=
  modify (fun t =>
    let r := testResults t in
    set_results (mkResults (passed r) (failed r) (failures r ++ [d])) t).

(** [this.emit(eventName, details)]: the listeners run before the call
    returns; the constructor registers one, for ['fail']. *)
Definition emit (eventName : string) (d : details) : M unit :=
  modify (add_emitted (eventName, d)) ;;
  if String.eqb eventName "fail" then on_fail d else ret tt.

Definition exporter_addSuccess (classname : string) (m : value) : M unit :=
  modify (add_export (AddSuccess classname m)).

Definition exporter_addFailure (classname : string) (m : value)
           (detail : text) (kind : string) : M unit :=
  modify (add_export (AddFailure classname m detail kind)).

(** [this.colorize] (line 281) and [this.formatMessage] (line 376). *)
Definition colorize (t : text) (st : option style) : text := TColor t st.
Definition formatMessage (m : value) (st : option style) : text := TFormat m st.

(** [this.comment] (line 290). *)
Definition comment (t : text) : M unit :=
  echo (TCat (TStr "# ") t) (Some COMMENT).

(** [this.bar] (line 273). *)
Definition bar (t : text) (st : style) : M unit :=
  echo (TFill t) (Some st).

(** [this.error] (line 307) and [this.info] (line 389). *)
Definition error (t : text) : M unit := echo t (Some ERROR).
Definition info (t : text) : M unit := echo t (Some PARAMETER).

(** [this.done] (line 298): [this.running = false].  The call is also
    entered in the ghost history. *)
Definition done : M value :=
  modify (add_history HDone) ;;
  modify (set_running false) ;;
  ret VUndefined.

(** [this.assert] (lines 83-102).  The function has no [return]
    statement: a call evaluates to [undefined]. *)
Definition assert (condition message : value) : M value :=
  P <- gets PASS ;;
  F <- gets FAIL ;;
  branch <-
    (if strict_equals condition (VBool true) then
       incr_passed ;;
       exporter_addSuccess "unknown" message ;;
       ret (P, "success", INFO)
     else
       incr_failed ;;
       exporter_addFailure "unknown" message (TStr "test failed") "assert" ;;
       ret (F, "fail", RED_BAR)) ;;
  let '(status, eventName, st) := branch in
  cur <- gets currentTestFile ;;
  emit eventName (mkDetails message cur) ;;
  echo (TJoin [colorize (TStr status) (Some st); formatMessage message None])
       None ;;
  ret VUndefined.

(** [this.pass] (line 398) and [this.fail] (line 341). *)
Definition pass (message : value) : M value :=
  assert (VBool true) message ;; ret VUndefined.

Definition fail (message : value) : M value :=
  assert (VBool false) message ;; ret VUndefined.

(** A [RegExp] object: its source and what [pattern.test] answers. *)
Record RegExp : Type := mkRegExp {
  re_source : string;
  re_test : value -> bool
}.

(** [this.assertEquals] (lines 111-130). *)
Definition assertEquals (testValue expected message : value) : M value :=
  P <- gets PASS ;;
  F <- gets FAIL ;;
  eventName <-
    (if testEquals testValue expected then
       echo (TCat (TCat (colorize (TStr P) (Some INFO)) (TStr " "))
                  (formatMessage message None)) None ;;
       incr_passed ;;
       exporter_addSuccess "unknown" message ;;
       ret "success"
     else
       echo (TCat (TCat (colorize (TStr F) (Some RED_BAR)) (TStr " "))
                  (formatMessage message (Some WARNING))) None ;;
       comment (TCat (TStr "   got:      ") (TSerialize testValue)) ;;
       comment (TCat (TStr "   expected: ") (TSerialize expected)) ;;
       incr_failed ;;
       exporter_addFailure "unknown" message
         (TJoin [TStr "test failed; expected: "; TVal expected;
                 TStr "; got: "; TVal testValue]) "assertEquals" ;;
       ret "fail") ;;
  cur <- gets currentTestFile ;;
  emit eventName (mkDetails message cur) ;;
  ret VUndefined.

(** [this.assertMatch] (lines 172-191). *)
Definition assertMatch (subject : value) (pattern : RegExp) (message : value)
  : M value :=
  P <- gets PASS ;;
  F <- gets FAIL ;;
  eventName <-
    (if re_test pattern subject then
       echo (TCat (TCat (colorize (TStr P) (Some INFO)) (TStr " "))
                  (formatMessage message None)) None ;;
       incr_passed ;;
       exporter_addSuccess "unknown" message ;;
       ret "success"
     else
       echo (TCat (TCat (colorize (TStr F) (Some RED_BAR)) (TStr " "))
                  (formatMessage message (Some WARNING))) None ;;
       comment (TCat (TStr "   subject: ") (TVal subject)) ;;
       comment (TCat (TStr "   pattern: ") (TStr (re_source pattern))) ;;
       incr_failed ;;
       exporter_addFailure "unknown" message
         (TJoin [TStr "test failed; subject: "; TVal subject;
                 TStr "; pattern: "; TStr (re_source pattern)]) "assertMatch" ;;
       ret "fail") ;;
  cur <- gets currentTestFile ;;
  emit eventName (mkDetails message cur) ;;
  ret VUndefined.

(** JavaScript truthiness, for [!condition] and [a || b]. *)
Definition truthy (v : value) : bool :=
  match v with
  | VUndefined | VNull => false
  | VBool b => b
  | VNumber (S754_zero _) | VNumber S754_nan => false
  | VNumber _ => true
  | VString s => negb (String.eqb s "")
  | VFunction _ | VObject _ _ => true
  end.

(** [this.assertNot] (line 199). *)
Definition assertNot (condition message : value) : M value :=
  assert (VBool (negb (truthy condition))) message.

(** [this.assertRaises] (lines 211-218).  The function under test acts
    on the tester like any other code. *)
Definition assertRaises (fn : list value -> M value) (args : list value)
           (message : value) : M value :=
  try_catch (fn args ;; fail message) (fun _ => pass message) ;;
  ret VUndefined.

(** [this.assertType] (line 258). *)
Definition assertType (input type message : value) : M value :=
  assertEquals (VString (betterTypeOf input)) type message.

(** [this.assertSelectorExists] (line 237) evaluates [this.exists(selector)]
    first; the tester has no [exists] method, so the call throws before
    [assert] is reached. *)
Definition assertSelectorExists (selector message : value) : M value :=
  throw (TypeError "'undefined' is not a function").

(** *** What a piece of suite code does with the tester *)

(** An assertion call.  The function given to [assertRaises] is described
    by the assertion calls it makes and by how it ends: [None] when it
    returns, [Some e] when it throws [e]. *)
Inductive call : Type :=
| CAssert (condition message : value)
| CAssertEquals (testValue expected message : value)
| CAssertEval (fn message : value)
| CAssertEvalEquals (fn expected message : value)
| CAssertExists (selector message : value)
| CAssertMatch (subject : value) (pattern : RegExp) (message : value)
| CAssertNot (condition message : value)
| CAssertRaises (body : list call) (ending : option value)
                (args : list value) (message : value)
| CAssertResourceExists (test message : value)
| CAssertTitle (expected message : value)
| CAssertType (input type message : value)
| CAssertUrlMatch (pattern : RegExp) (message : value)
| CFail (message : value)
| CPass (message : value).

(** A suite uses the tester through its assertions and [done]. *)
Inductive op : Type :=
| OCall (c : call)
| ODone.

(** The synchronous part of a suite script: what it does when evaluated,
    and whether it returns ([None]) or throws ([Some e]). *)
Record script : Type := mkScript {
  sync_ops : list op;
  sync_end : option value
}.

(** *** The file system, a finite tree *)
Inductive fsnode : Type :=
| FsFile (code : script)
| FsDir (entries : list (string * fsnode)).

(** The collaborators of the tester: the driver's answers, the file
    system, the extension test of [utils.isJsFile], the filter
    registered for ['exec.file'] (if any) and the error [fs.write]
    raises for a path (if any). *)
Record Host : Type := mkHost {
  evaluate : value -> value;
  casper_exists : value -> value;
  resourceExists : value -> value;
  getTitle : value;
  getCurrentUrl : value;
  root : fsnode;
  js_name : string -> bool;
  exec_file_filter : option (path -> option path);
  write_error : path -> option value
}.

Section WithHost.

Variable H : Host.

(** The driver-backed assertions (lines 138-163, 226-271). *)
Definition assertEval (fn message : value) : M value :=
  assert (evaluate H fn) message.

Definition assertEvalEquals (fn expected message : value) : M value :=
  assertEquals (evaluate H fn) expected message.

Definition assertExists (selector message : value) : M value :=
  assert (casper_exists H selector) message.

Definition assertResourceExists (test message : value) : M value :=
  assert (resourceExists H test) message.

Definition assertTitle (expected message : value) : M value :=
  assertEquals (getTitle H) expected message.

Definition assertUrlMatch (pattern : RegExp) (message : value) : M value :=
  assertMatch (getCurrentUrl H) pattern message.

(** How a described function ends. *)
Definition finish (ending : option value) : M value :=
  match ending with
  | None => ret VUndefined
  | Some e => throw e
  end.

Fixpoint run_call (c : call) : M value :=
  match c with
  | CAssert condition m => assert condition m
  | CAssertEquals v e m => assertEquals v e m
  | CAssertEval fn m => assertEval fn m
  | CAssertEvalEquals fn e m => assertEvalEquals fn e m
  | CAssertExists s m => assertExists s m
  | CAssertMatch s p m => assertMatch s p m
  | CAssertNot condition m => assertNot condition m
  | CAssertRaises body ending args m =>
      assertRaises
        (fun _ =>
           (fix run_body (cs : list call) : M value :=
              match cs with
              | [] => finish ending
              | c' :: cs' => run_call c' ;; run_body cs'
              end) body)
        args m
  | CAssertResourceExists t m => assertResourceExists t m
  | CAssertTitle e m => assertTitle e m
  | CAssertType i ty m => assertType i ty m
  | CAssertUrlMatch p m => assertUrlMatch p m
  | CFail m => fail m
  | CPass m => pass m
  end.

(** A sequence of assertion calls, one after the other. *)
Fixpoint run_calls (cs : list call) : M value :=
  match cs with
  | [] => ret VUndefined
  | c :: cs' => run_call c ;; run_calls cs'
  end.

(** The body of a described function: its calls, then its ending. *)
Definition run_body (ending : option value) : list call -> M value :=
  fix run_body (cs : list call) : M value :=
    match cs with
    | [] => finish ending
    | c :: cs' => run_call c ;; run_body cs'
    end.

Definition run_op (o : op) : M value :=
  match o with
  | OCall c => run_call c
  | ODone => done
  end.

Fixpoint run_ops (os : list op) : M value :=
  match os with
  | [] => ret VUndefined
  | o :: os' => run_op o ;; run_ops os'
  end.

(** Evaluating a script: [new Function('casper', code)(casper)]. *)
Definition run_script (s : script) : M value :=
  run_ops (sync_ops s) ;; finish (sync_end s).

End WithHost.

(** The number of assertion calls a call amounts to: itself and the calls
    made by the function it runs. *)
Fixpoint calls_made (c : call) : nat :=
  match c with
  | CAssertRaises body _ _ _ =>
      S ((fix sum (cs : list call) : nat :=
            match cs with
            | [] => 0
            | c' :: cs' => calls_made c' + sum cs'
            end) body)
  | _ => 1
  end.

Fixpoint total_calls (cs : list call) : nat :=
  match cs with
  | [] => 0
  | c :: cs' => calls_made c + total_calls cs'
  end.

(* ================================================================== *)
(** ** Suite discovery *)
(* ================================================================== *)

Fixpoint find_entry (name : string) (es : list (string * fsnode))
  : option fsnode :=
  match es with
  | [] => None
  | (n, child) :: es' =>
      if String.eqb name n then Some child else find_entry name es'
  end.

(** The node a path leads to, from a given node. *)
Fixpoint resolve (n : fsnode) (p : path) : option fsnode :=
  match p with
  | [] => Some n
  | c :: p' =>
      match n with
      | FsDir es =>
          match find_entry c es with
          | Some child => resolve child p'
          | None => None
          end
      | FsFile _ => None
      end
  end.

(** [fs.pathJoin] and [fs.absolute], on absolute paths. *)
Definition fs_pathJoin (a b : path) : path := a ++ b.
Definition fs_absolute (p : path) : path := p.

(** An entry other than the self and parent markers (line 356). *)
Definition not_dot (entry : string) : bool :=
  negb (String.eqb entry ".") && negb (String.eqb entry "..").

Section FileSystem.

Variable H : Host.

Definition fs_exists (p : path) : bool :=
  match resolve (root H) p with
  | Some _ => true
  | None => false
  end.

Definition fs_isDirectory (p : path) : bool :=
  match resolve (root H) p with
  | Some (FsDir _) => true
  | _ => false
  end.

Definition fs_isFile (p : path) : bool :=
  match resolve (root H) p with
  | Some (FsFile _) => true
  | _ => false
  end.

(** [fs.list(dir)]: the self and parent markers, then the entries. *)
Definition fs_list (p : path) : list string :=
  match resolve (root H) p with
  | Some (FsDir es) => "." :: ".." :: map fst es
  | _ => []
  end.

(** [utils.isJsFile]: the extension test, on the last component. *)
Definition isJsFile (p : path) : bool :=
  match p with
  | [] => false
  | _ => js_name H (last p "")
  end.

(** [phantom.getScriptCode(file)]. *)
Definition getScriptCode (p : path) : script :=
  match resolve (root H) p with
  | Some (FsFile code) => code
  | _ => mkScript [] None
  end.

(** [this.findTestFiles] (lines 350-368), on the node [n] that [dir]
    leads to: the entries of [dir], then, appended by [forEach], what each
    subdirectory yields, the whole filtered by extension. *)
Fixpoint findTestFiles_at (dir : path) (n : fsnode) {struct n} : list path :=
  match n with
  | FsFile _ => []
  | FsDir es =>
      let entries :=
        map (fun entry => fs_absolute (fs_pathJoin dir [entry]))
            (filter not_dot ("." :: ".." :: map fst es)) in
      let entries' :=
        (fix forEach (es' : list (string * fsnode)) (acc : list path)
           : list path :=
           match es' with
           | [] => acc
           | (name, child) :: rest =>
               if not_dot name then
                 match child with
                 | FsDir _ =>
                     forEach rest
                       (acc ++ findTestFiles_at
                                 (fs_absolute (fs_pathJoin dir [name])) child)
                 | FsFile _ => forEach rest acc
                 end
               else forEach rest acc
           end) es entries in
      filter (fun entry => isJsFile (fs_absolute (fs_pathJoin dir entry)))
             entries'
  end.

Definition findTestFiles (dir : path) : list path :=
  match resolve (root H) dir with
  | Some n => findTestFiles_at dir n
  | None => []
  end.

(** The ordering the specification describes: depth first, every
    directory expanded at its own position. *)
Fixpoint dfs_in_place (dir : path) (n : fsnode) {struct n} : list path :=
  match n with
  | FsFile _ => []
  | FsDir es =>
      (fix walk (es' : list (string * fsnode)) : list path :=
         match es' with
         | [] => []
         | (name, child) :: rest =>
             (if js_name H name then [dir ++ [name]] else [])
             ++ dfs_in_place (dir ++ [name]) child
             ++ walk rest
         end) es
  end.

Definition spec_findTestFiles (dir : path) : list path :=
  match resolve (root H) dir with
  | Some n => dfs_in_place dir n
  | None => []
  end.

(** The [forEach] over the arguments of [runSuites] (lines 473-482). *)
Fixpoint collect (paths : list path) (testFiles : list path)
  : M (list path) :=
  match paths with
  | [] => ret testFiles
  | p :: rest =>
      (if negb (fs_exists p)
       then bar (TJoin [TStr "Path "; TPath p; TStr " doesn't exist"]) RED_BAR
       else ret tt) ;;
      if fs_isDirectory p then collect rest (testFiles ++ findTestFiles p)
      else if fs_isFile p then collect rest (testFiles ++ [p])
      else collect rest testFiles
  end.

(** The list [collect] builds, without the warnings. *)
Definition resolved (paths : list path) : list path :=
  flat_map (fun p => if fs_isDirectory p then findTestFiles p
                     else if fs_isFile p then [p] else []) paths.

(* ================================================================== *)
(** ** Reporting *)
(* ================================================================== *)

Definition file_text (f : option path) : text :=
  match f with
  | Some p => TPath p
  | None => TVal VNull
  end.

(** [this.renderFailureDetails] (lines 407-422). *)
Fixpoint render_each (fs : list details) : M unit :=
  match fs with
  | [] => ret tt
  | failure :: rest =>
      echo (TJoin [TStr "In "; file_text (file failure); TStr ":"]) None ;;
      let m :=
        if String.eqb (betterTypeOf (message failure)) "object"
           && truthy (get (message failure) "stack")
        then get (message failure) "stack"
        else message failure in
      echo (TJoin [TStr "    "; TVal m]) (Some COMMENT) ;;
      render_each rest
  end.

Definition renderFailureDetails (fs : list details) : M unit :=
  if Nat.eqb (List.length fs) 0 then ret tt
  else
    echo (TJoin [TStr "Details for the "; TNum (List.length fs);
                 TStr " failed test";
                 TStr (if Nat.ltb 1 (List.length fs) then "s" else "");
                 TStr ":"]) (Some PARAMETER) ;;
    render_each fs.

(** [this.renderResults] (lines 429-462), in an environment where
    [require] is a function.  What [fs.write] stores is not recorded,
    only whether it raises. *)
Definition renderResults (exit : value) (status : option nat)
           (save_arg : option path) : M value :=
  opt_save <- gets save ;;
  let save := match save_arg with Some s => Some s | None => opt_save end in
  r <- gets testResults ;;
  P <- gets PASS ;;
  F <- gets FAIL ;;
  let total := passed r + failed r in
  let '(result, st) :=
    if Nat.eqb total 0 then
      (TJoin [TStr F; TStr " Looks like you didn't run any test."], RED_BAR)
    else
      let '(statusText, st) :=
        if Nat.ltb 0 (failed r) then (F, RED_BAR) else (P, GREEN_BAR) in
      (TJoin [TStr statusText; TStr " "; TNum total;
              TStr " tests executed, "; TNum (passed r); TStr " passed, ";
              TNum (failed r); TStr " failed."], st) in
  echo (colorize (TFill result) (Some st)) None ;;
  (if Nat.ltb 0 (failed r) then renderFailureDetails (failures r)
   else ret tt) ;;
  match save with
  | Some s =>
      match write_error H s with
      | None =>
          echo (TJoin [TStr "Result log stored in "; TPath s]) (Some INFO)
      | Some e =>
          echo (TJoin [TStr "Unable to write results to "; TPath s;
                       TStr ": "; TVal e]) (Some ERROR)
      end
  | None => ret tt
  end ;;
  if strict_equals exit (VBool true)
  then casper_exit (match status with Some s => s | None => 0 end)
  else ret VUndefined.

(* ================================================================== *)
(** ** Running suites *)
(* ================================================================== *)

(** The path [exec] works with after line 318:
    [this.filter('exec.file', file) || file]. *)
Definition filtered (f : path) : path :=
  match exec_file_filter H with
  | Some flt =>
      match flt f with
      | Some f' => f'
      | None => f
      end
  | None => f
  end.

(** The validity check of [exec] (line 319), on the filtered path. *)
Definition accepted (f : path) : bool :=
  fs_isFile (filtered f) && isJsFile (filtered f).

(** Modelled from the spec: [phantom.processScriptError] belongs to the
    bootstrap script; an exception escaping a suite is converted into one
    failing assertion followed by a completion signal, that is, the
    callback given by [exec] is run with the error. *)
Definition processScriptError (e : value) (f : path)
           (callback : value -> M value) : M value :=
  callback e.

(** [this.exec] (lines 317-334). *)
Definition exec (f : path) : M value :=
  let f := filtered f in
  if negb (fs_isFile f) || negb (isJsFile f) then
    throw (CasperError "Can only exec() files with .js or .coffee extensions")
  else
    modify (set_currentTestFile (Some f)) ;;
    try_catch
      (run_script H (getScriptCode f))
      (fun e => processScriptError e f (fun _ => fail e ;; done)) ;;
    ret VUndefined.

(** [this.runTest] (lines 506-517).  The start of the suite is also
    entered in the ghost history. *)
Definition runTest (testFile : path) : M value :=
  modify (add_history (HStart testFile)) ;;
  bar (TJoin [TStr "Test file: "; TPath testFile]) INFO_BAR ;;
  modify (set_running true) ;;
  try_catch (exec testFile) (fun e => fail e ;; done) ;;
  ret VUndefined.

(** The closure of the interval callback: the resolved files and the
    index of the next one. *)
Record Interval : Type := mkInterval {
  testFiles : list path;
  current : nat
}.

(** [this.runSuites] (lines 468-500), up to the registration of the
    interval, which it returns. *)
Definition runSuites (paths : list path) : M Interval :=
  if Nat.eqb (List.length paths) 0 then
    throw (CasperError "No test suite to run")
  else
    files <- collect paths [] ;;
    (if Nat.eqb (List.length files) 0 then
       bar (TStr "No test file found, aborting.") RED_BAR ;;
       casper_exit 1
     else ret tt) ;;
    ret (mkInterval files 0).

(** The interval callback (lines 488-499); [None] once the interval is
    cleared. *)
Definition interval_callback (iv : Interval) : M (option Interval) :=
  r <- gets running ;;
  if r then ret (Some iv)
  else if Nat.eqb (current iv) (List.length (testFiles iv)) then
    renderResults (VBool true) None None ;;
    ret None
  else
    runTest (nth (current iv) (testFiles iv) []) ;;
    ret (Some (mkInterval (testFiles iv) (S (current iv)))).

(** The listener for the driver's ['step.error'] (lines 67-70). *)
Definition on_step_error (e : value) : M value :=
  fail e ;; done.

(** *** The process: the tester, the interval if one is registered, and
    the exit status once the process has ended. *)
Record Process : Type := mkProcess {
  tester : Tester;
  interval : option Interval;
  exit_status : option nat
}.

(** What the event loop delivers: the interval fires, asynchronous suite
    code runs, or the driver reports a step error. *)
Inductive event : Type :=
| ETick
| EAsync (ops : list op)
| EStepError (e : value).

(** Starting a run: [runSuites] on a tester. *)
Definition launch (t : Tester) (paths : list path) : Process :=
  match runSuites paths t with
  | (t', Ret iv) => mkProcess t' (Some iv) None
  | (t', Thrown _) => mkProcess t' None None
  | (t', Exited s) => mkProcess t' None (Some s)
  end.

Definition after {A} (p : Process) (r : Tester * result A) : Process :=
  match r with
  | (t', Exited s) => mkProcess t' (interval p) (Some s)
  | (t', _) => mkProcess t' (interval p) None
  end.

Definition step (p : Process) (e : event) : Process :=
  match exit_status p with
  | Some _ => p
  | None =>
      match e with
      | ETick =>
          match interval p with
          | None => p
          | Some iv =>
              match interval_callback iv (tester p) with
              | (t', Ret iv') => mkProcess t' iv' None
              | (t', Thrown _) => mkProcess t' (Some iv) None
              | (t', Exited s) => mkProcess t' (Some iv) (Some s)
              end
          end
      | EAsync ops => after p (run_ops H ops (tester p))
      | EStepError e => after p (on_step_error e (tester p))
      end
  end.

Definition run (p : Process) (es : list event) : Process :=
  fold_left step es p.

End FileSystem.

(** The files handed to [runTest] so far, oldest first. *)
Fixpoint started (h : list hist) : list path :=
  match h with
  | [] => []
  | HStart f :: h' => f :: started h'
  | HDone :: h' => started h'
  end.

(** Reading a history from its start: [busy] tells whether a suite has
    started and not yet been declared done.  The history is free of
    overlap when no suite starts while another is busy. *)
Fixpoint no_overlap_from (busy : bool) (h : list hist) : bool :=
  match h with
  | [] => true
  | HStart _ :: h' => negb busy && no_overlap_from true h'
  | HDone :: h' => no_overlap_from false h'
  end.

Definition no_overlap (h : list hist) : bool := no_overlap_from false h.

(** Whether the history ends with a suite started and not yet done. *)
Fixpoint busy_after (busy : bool) (h : list hist) : bool :=
  match h with
  | [] => busy
  | HStart _ :: h' => busy_after true h'
  | HDone :: h' => busy_after false h'
  end.

(** Names ending in [.js] or [.coffee], for the examples. *)
Fixpoint ends_with (suffix s : string) : bool :=
  if String.eqb s suffix then true
  else match s with
       | EmptyString => false
       | String _ s' => ends_with suffix s'
       end.

Definition js_or_coffee (name : string) : bool :=
  ends_with ".js" name || ends_with ".coffee" name.

(** What a described function leaves behind when it has run. *)
Definition finished (ending : option value) : result value :=
  match ending with
  | None => Ret VUndefined
  | Some e => Thrown e
  end.

(** [asserted n t t']: the tester went from [t] to [t'] through [n]
    assertions: the two counters grew by [n] together, one failure record
    was appended per failure, and nothing else the scheduler reads
    changed. *)
Definition asserted (n : nat) (t t' : Tester) : Prop :=
  let r := testResults t in
  let r' := testResults t' in
  passed r' + failed r' = passed r + failed r + n
  /\ passed r <= passed r'
  /\ (exists l, failures r' = failures r ++ l
                /\ failed r' = failed r + List.length l)
  /\ running t' = running t
  /\ history t' = history t
  /\ currentTestFile t' = currentTestFile t.

(** The two objects [{x: undefined}] and [{y: undefined}]. *)
Definition only_x : list (string * value) := [("x", VUndefined)].
Definition only_y : list (string * value) := [("y", VUndefined)].

Ltac run_tester :=
  unfold state_after, outcome, assert, assertEquals, assertMatch, pass, fail,
    done, comment, bar, echo, emit, on_fail, incr_passed, incr_failed,
    exporter_addSuccess, exporter_addFailure, bind, ret, gets, modify;
  cbn.

(** The scheduling state agrees with the history: [running] is set
    exactly while the last suite started has not been declared done, and
    no suite started during another. *)
Definition sched_inv (t : Tester) : Prop :=
  running t = busy_after false (history t)
  /\ no_overlap (history t) = true.

(** A step that starts no suite and respects the scheduling state. *)
Definition keeps (t t' : Tester) : Prop :=
  (sched_inv t -> sched_inv t')
  /\ started (history t') = started (history t).

(** A computation that always returns, starting no suite. *)
Definition returns {A} (m : M A) : Prop :=
  forall t, exists t' a, m t = (t', Ret a) /\ keeps t t'.

(** A computation that returns or throws, starting no suite. *)
Definition safe {A} (m : M A) : Prop :=
  forall t, exists t' r, m t = (t', r) /\ keeps t t'
                         /\ forall s, r <> Exited s.

(** Only lines of output were added. *)
Definition only_output (t t' : Tester) : Prop :=
  currentTestFile t' = currentTestFile t
  /\ running t' = running t
  /\ testResults t' = testResults t
  /\ history t' = history t
  /\ exists out, output t' = output t ++ out.

(** [subseq l l']: [l] is [l'] with some elements left out. *)
Inductive subseq {A : Type} : list A -> list A -> Prop :=
| subseq_nil : subseq [] []
| subseq_keep x l l' : subseq l l' -> subseq (x :: l) (x :: l')
| subseq_skip x l l' : subseq l l' -> subseq l (x :: l').

(** The entries of a directory have pairwise distinct names, none of them
    a self or parent marker. *)
Definition wf_entries (es : list (string * fsnode)) : bool :=
  nodupb (map fst es) && forallb not_dot (map fst es).

(** Hosts for the examples: a driver that answers [undefined], over a
    given tree and an optional filter. *)
Definition host_over (tree : fsnode) (flt : option (path -> option path))
  : Host :=
  {| evaluate := fun _ => VUndefined;
     casper_exists := fun _ => VUndefined;
     resourceExists := fun _ => VUndefined;
     getTitle := VUndefined;
     getCurrentUrl := VUndefined;
     root := tree;
     js_name := js_or_coffee;
     exec_file_filter := flt;
     write_error := fun _ => None |}.

Definition empty_script : script := mkScript [] None.

(** [/tests] holds [a.js], the directory [sub] with [s.js], and [z.js],
    listed in that order; [/empty] holds nothing; [/notes.txt] is no
    script. *)
Definition sample_tree : fsnode :=
  FsDir [("tests", FsDir [("a.js", FsFile empty_script);
                          ("sub", FsDir [("s.js", FsFile empty_script)]);
                          ("z.js", FsFile empty_script)]);
         ("empty", FsDir []);
         ("notes.txt", FsFile empty_script)].

Definition sample_host : Host := host_over sample_tree None.

(** A host whose ['exec.file'] filter sends every path to
    [/tests/a.js]. *)
Definition redirecting_host : Host :=
  host_over sample_tree (Some (fun _ => Some ["tests"; "a.js"])).

Definition default_options : Options := mkOptions None None None.

(** The state of a run over the resolved [files]: the schedule is
    respected, the suites started so far are the first [current] files in
    order, and the process ends only once every file was started. *)
Definition proc_inv (files : list path) (p : Process) : Prop :=
  sched_inv (tester p)
  /\ match interval p with
     | Some iv =>
         testFiles iv = files
         /\ current iv <= List.length files
         /\ started (history (tester p)) = firstn (current iv) files
         /\ (forall s, exit_status p = Some s ->
                       current iv = List.length files)
     | None => started (history (tester p)) = []
     end.

(** The banner of [runSuites] when there is nothing to run. *)
Definition no_test_banner : out_line :=
  Echo (TFill (TStr "No test file found, aborting.")) (Some RED_BAR).

(** The [forEach] of [findTestFiles] (lines 360-364), named: what the
    subdirectories among [es] yield is appended to [acc], in order. *)
Fixpoint forEach_entries (H : Host) (dir : path)
         (es : list (string * fsnode)) (acc : list path) : list path :=
  match es with
  | [] => acc
  | (name, child) :: rest =>
      if not_dot name then
        match child with
        | FsDir _ =>
            forEach_entries H dir rest
              (acc ++ findTestFiles_at H (fs_absolute (fs_pathJoin dir [name]))
                                       child)
        | FsFile _ => forEach_entries H dir rest acc
        end
      else forEach_entries H dir rest acc
  end.

(** What one entry of a directory contributes through [forEach]. *)
Definition sub_results (H : Host) (dir : path) (e : string * fsnode)
  : list path :=
  if not_dot (fst e) then
    match snd e with
    | FsDir _ => findTestFiles_at H (dir ++ [fst e]) (snd e)
    | FsFile _ => []
    end
  else [].

(** A run over [/tests] in which every suite is declared done: by its
    asynchronous code, or after a step error. *)
Definition complete_run : list event :=
  [ETick; ETick; EAsync [ODone];
   ETick; EAsync [OCall (CPass (VString "ok")); ODone];
   ETick; EStepError (VString "boom");
   ETick; ETick].
(** What the exporter was told, and the details carried by the events of
    a given name, oldest first. *)
Definition is_success (e : export_entry) : bool :=
  match e with
  | AddSuccess _ _ => true
  | AddFailure _ _ _ _ => false
  end.

Definition events_named (name : string) (l : list (string * details))
  : list details :=
  map snd (filter (fun e => String.eqb (fst e) name) l).

(** The books agree: the exporter holds one success per pass and one
    failure per fail, one event was emitted per assertion, and
    [failures] is what the ['fail'] events carried. *)
Definition consistent (t : Tester) : Prop :=
  let r := testResults t in
  List.length (filter is_success (exported t)) = passed r
  /\ List.length (filter (fun e => negb (is_success e)) (exported t))
     = failed r
  /\ List.length (events_named "success" (emitted t)) = passed r
  /\ failures r = events_named "fail" (emitted t)
  /\ List.length (emitted t) = passed r + failed r.

(** Since [t0], the failures recorded all carry the file that was current
    at [t0], which is still the current one. *)
Definition attributed (t0 t : Tester) : Prop :=
  currentTestFile t = currentTestFile t0
  /\ exists l, failures (testResults t) = failures (testResults t0) ++ l
               /\ Forall (fun d => file d = currentTestFile t0) l.
Ltac books :=
  unfold consistent, events_named; cbn;
  rewrite ?filter_app, ?map_app, ?length_app, ?length_map; cbn;
  intros (Hs & Hf & He & Hl & Hn);
  rewrite ?Hs, ?Hf, ?Hl, ?Hn; rewrite ?length_map in He; rewrite ?He;
  rewrite ?app_nil_r;
  repeat split; try lia; try reflexivity.
(** The warning of [runSuites] for a path that does not exist
    (line 475). *)
Definition missing_path_warning (p : path) : out_line :=
  Echo (TFill (TJoin [TStr "Path "; TPath p; TStr " doesn't exist"]))
       (Some RED_BAR).

(** [n] rounds of the event loop in which the interval fires and the
    suite then declares itself done. *)
Fixpoint rounds (n : nat) : list event :=
  match n with
  | 0 => []
  | S n' => ETick :: EAsync [ODone] :: rounds n'
  end.

(** A tree with a suite that makes one assertion and then throws. *)
Definition throwing_script : script :=
  mkScript [OCall (CPass (VString "first"))] (Some (VString "boom")).

Definition faulty_tree : fsnode :=
  FsDir [("suites", FsDir [("bad.js", FsFile throwing_script);
                           ("good.js", FsFile empty_script)]);
         ("readme.md", FsFile empty_script)].

Definition faulty_host : Host := host_over faulty_tree None.
(** How a run stands with respect to its end: without paths nothing is
    ever registered or ended; an interval exists exactly when files were
    resolved; and the process has ended either with status 1 and no
    interval, or with status 0 while nothing was running. *)
Definition ends (paths files : list path) (p : Process) : Prop :=
  (paths = [] -> exit_status p = None /\ interval p = None)
  /\ (interval p = None -> files = [])
  /\ (interval p <> None -> files <> [])
  /\ forall s, exit_status p = Some s ->
       (interval p = None /\ s = 1)
       \/ (interval p <> None /\ s = 0 /\ running (tester p) = false).

(** Events that never declare a suite done: the interval firing, and
    asynchronous code that only makes assertions. *)
Definition quiet_op (o : op) : bool :=
  match o with
  | OCall _ => true
  | ODone => false
  end.

Definition quiet_event (e : event) : bool :=
  match e with
  | ETick => true
  | EAsync ops => forallb quiet_op ops
  | EStepError _ => false
  end.
(** Several lines echoed one after the other. *)
Definition add_lines (ls : list out_line) (t : Tester) : Tester :=
  fold_left (fun t' l => add_output l t') ls t.

(** What the report shows for a failure: the [stack] of its message when
    the message is a plain object with a truthy [stack], the message
    itself otherwise (lines 415-419). *)
Definition shown_message (d : details) : value :=
  if String.eqb (betterTypeOf (message d)) "object"
     && truthy (get (message d) "stack")
  then get (message d) "stack"
  else message d.

(** The two lines of the report for one failure (lines 413 and 420). *)
Definition failure_lines (d : details) : list out_line :=
  [Echo (TJoin [TStr "In "; file_text (file d); TStr ":"]) None;
   Echo (TJoin [TStr "    "; TVal (shown_message d)]) (Some COMMENT)].

(** The heading of the failure details (line 411). *)
Definition details_header (n : nat) : out_line :=
  Echo (TJoin [TStr "Details for the "; TNum n; TStr " failed test";
               TStr (if Nat.ltb 1 n then "s" else ""); TStr ":"])
       (Some PARAMETER).

(** The banner of [renderResults] for given results and labels
    (lines 431-447). *)
Definition summary_banner (P F : string) (r : TestResults) : out_line :=
  if Nat.eqb (passed r + failed r) 0 then
    Echo (TColor (TFill (TJoin [TStr F;
                                TStr " Looks like you didn't run any test."]))
                 (Some RED_BAR)) None
  else
    Echo (TColor
            (TFill (TJoin [TStr (if Nat.ltb 0 (failed r) then F else P);
                           TStr " "; TNum (passed r + failed r);
                           TStr " tests executed, "; TNum (passed r);
                           TStr " passed, "; TNum (failed r);
                           TStr " failed."]))
            (Some (if Nat.ltb 0 (failed r) then RED_BAR else GREEN_BAR)))
         None.
(** What [renderFailureDetails] writes (lines 407-422). *)
Definition details_lines (fs : list details) : list out_line :=
  match fs with
  | [] => []
  | _ => details_header (List.length fs) :: flat_map failure_lines fs
  end.
(** A well-formed file system: in every directory, at every depth, the
    entries have pairwise distinct names and none is a self or parent
    marker. *)
Fixpoint wf_tree (n : fsnode) : bool :=
  match n with
  | FsFile _ => true
  | FsDir es =>
      wf_entries es
      && (fix all (es' : list (string * fsnode)) : bool :=
            match es' with
            | [] => true
            | (_, child) :: rest => wf_tree child && all rest
            end) es
  end.

(** What one entry of a directory contributes to the traversal the
    specification describes. *)
Definition dfs_entry (H : Host) (dir : path) (e : string * fsnode)
  : list path :=
  (if js_name H (fst e) then [dir ++ [fst e]] else [])
  ++ dfs_in_place H (dir ++ [fst e]) (snd e).
(** No property, at any depth, holds [undefined]. *)
Fixpoint no_undefined_props (v : value) : bool :=
  match v with
  | VObject _ ps =>
      (fix all (ps : list (string * value)) : bool :=
         match ps with
         | [] => true
         | (_, x) :: ps' =>
             negb (strict_equals x VUndefined)
             && no_undefined_props x && all ps'
         end) ps
  | _ => true
  end.
(** A dense array: an object of class [OArray] whose property names are
    the indices [0], [1], ... in decimal. *)
Definition index_name (i : nat) : string :=
  NilEmpty.string_of_uint (Nat.to_uint i).

Fixpoint index_props (i : nat) (l : list value) : list (string * value) :=
  match l with
  | [] => []
  | x :: l' => (index_name i, x) :: index_props (S i) l'
  end.

Definition array_of (l : list value) : value :=
  VObject OArray (index_props 0 l).

(** The element of a list at an index, [undefined] out of range. *)
Definition element (l : list value) (j : nat) : value :=
  match nth_error l j with
  | Some y => y
  | None => VUndefined
  end.
(** Paths and states for the examples. *)
Definition bad_suite : path := ["suites"; "bad.js"].
Definition good_suite : path := ["suites"; "good.js"].
Definition fresh : Tester := create default_options.

(** A process in which the first suite of [/tests] was started and is
    still running. *)
Definition busy_process : Process :=
  run sample_host (launch sample_host fresh [["tests"]]) [ETick].

(* ================================================================== *)
(** * Properties *)
(* ================================================================== *)

(** ** The equality comparator *)

(** Induction on values that reaches the properties of an object. *)
Lemma value_ind2 (P : value -> Prop) :
  P VUndefined -> P VNull -> (forall b, P (VBool b)) ->
  (forall x, P (VNumber x)) -> (forall s, P (VString s)) ->
  (forall s, P (VFunction s)) ->
  (forall c ps, Forall (fun kv => P (snd kv)) ps -> P (VObject c ps)) ->
  forall v, P v.
Proof.
  intros Hu Hn Hb Hx Hs Hf Ho.
  fix IH 1.
  intros [ | | b | x | s | s | c ps];
    [exact Hu | exact Hn | apply Hb | apply Hx | apply Hs | apply Hf | ].
  apply Ho.
  induction ps as [|[k x] ps IHps]; constructor; [apply IH | exact IHps].
Qed.

Lemma nodupb_NoDup (l : list string) : nodupb l = true <-> NoDup l.
Proof.
  induction l as [|k l IHl]; simpl.
  - split; [constructor | reflexivity].
  - rewrite andb_true_iff, negb_true_iff, IHl. split.
    + intros [Hk Hl]. constructor; [|exact Hl].
      intros Hin. assert (existsb (String.eqb k) l = true) as E.
      { apply existsb_exists. exists k. split; [exact Hin | apply String.eqb_refl]. }
      congruence.
    + intros Hnd. inversion Hnd as [|? ? Hk Hl]; subst. split; [|exact Hl].
      destruct (existsb (String.eqb k) l) eqn:E; [|reflexivity].
      apply existsb_exists in E. destruct E as [k' [Hin Hk']].
      apply String.eqb_eq in Hk'. subst. contradiction.
Qed.

Lemma wf_value_object (c : objclass) (ps : list (string * value)) :
  wf_value (VObject c ps) = true <->
  NoDup (map fst ps) /\ Forall (fun kv => wf_value (snd kv) = true) ps.
Proof.
  simpl. rewrite andb_true_iff, nodupb_NoDup.
  apply and_iff_compat_l.
  induction ps as [|[k x] ps IHps].
  - split; [constructor | reflexivity].
  - rewrite andb_true_iff, IHps. split.
    + intros [Hx Hps]. constructor; assumption.
    + intros Hall. inversion Hall; subst. split; assumption.
Qed.

Lemma nan_free_object (c : objclass) (ps : list (string * value)) :
  nan_free (VObject c ps) = true <->
  Forall (fun kv => nan_free (snd kv) = true) ps.
Proof.
  simpl. induction ps as [|[k x] ps IHps].
  - split; [constructor | reflexivity].
  - rewrite andb_true_iff, IHps. split.
    + intros [Hx Hps]. constructor; assumption.
    + intros Hall. inversion Hall; subst. split; assumption.
Qed.

Lemma lookup_In (k : string) (ps : list (string * value)) (x : value) :
  lookup k ps = Some x -> In (k, x) ps.
Proof.
  induction ps as [|[k' y] ps IHps]; simpl; [discriminate|].
  destruct (String.eqb k k') eqn:E.
  - apply String.eqb_eq in E. intros [= ->]. subst. now left.
  - intros Hl. right. auto.
Qed.

Lemma lookup_None (k : string) (ps : list (string * value)) :
  lookup k ps = None <-> ~ In k (map fst ps).
Proof.
  induction ps as [|[k' y] ps IHps]; simpl.
  - split; [intros _ [] | reflexivity].
  - destruct (String.eqb k k') eqn:E.
    + apply String.eqb_eq in E. subst. split; [discriminate|].
      intros Hn. exfalso. apply Hn. now left.
    + apply String.eqb_neq in E. rewrite IHps. split.
      * intros Hn [Hk | Hin]; [congruence | contradiction].
      * intros Hn Hin. apply Hn. now right.
Qed.

Lemma lookup_NoDup (k : string) (x : value) (ps : list (string * value)) :
  NoDup (map fst ps) -> In (k, x) ps -> lookup k ps = Some x.
Proof.
  induction ps as [|[k' y] ps IHps]; simpl; [intros _ []|].
  intros Hnd Hin. inversion Hnd as [|? ? Hk Hps]; subst.
  destruct Hin as [[= -> ->] | Hin].
  - now rewrite String.eqb_refl.
  - destruct (String.eqb k k') eqn:E.
    + apply String.eqb_eq in E. subst. exfalso. apply Hk.
      change k' with (fst (k', x)). now apply in_map.
    + auto.
Qed.

(** In a well-formed object, [v[k]] is the value stored under [k]: the
    value the [for ... in] loop of [testEquals] compares. *)
Lemma get_stored (c : objclass) (ps : list (string * value)) (k : string)
      (x : value) :
  NoDup (map fst ps) -> In (k, x) ps -> get (VObject c ps) k = x.
Proof.
  intros Hnd Hin. simpl. now rewrite (lookup_NoDup k x ps Hnd Hin).
Qed.

Lemma forin_equals_true (ps : list (string * value)) (v2 : value) :
  forin_equals ps v2 = true <->
  (forall k x, In (k, x) ps -> testEquals x (get v2 k) = true).
Proof.
  induction ps as [|[k x] ps IHps]; simpl.
  - split; [intros _ ? ? [] | reflexivity].
  - destruct (testEquals x (get v2 k)) eqn:E; simpl.
    + rewrite IHps. split.
      * intros Hall k' x' [[= <- <-] | Hin]; auto.
      * intros Hall k' x' Hin. apply Hall. now right.
    + split; [discriminate|]. intros Hall.
      rewrite <- E. apply Hall. now left.
Qed.

(** [testEquals] on two objects, as the source reads. *)
Lemma testEquals_objects (c1 c2 : objclass) (ps1 ps2 : list (string * value)) :
  testEquals (VObject c1 ps1) (VObject c2 ps2) =
  String.eqb (class_tag c1) (class_tag c2)
  && Nat.eqb (List.length ps1) (List.length ps2)
  && forin_equals ps1 (VObject c2 ps2).
Proof.
  remember (VObject c2 ps2) as v2 eqn:Ev2.
  cbn [testEquals].
  replace (betterTypeOf v2) with (class_tag c2) by (now subst v2).
  replace (betterTypeOf (VObject c1 ps1)) with (class_tag c1) by reflexivity.
  destruct (String.eqb (class_tag c1) (class_tag c2)); cbn [negb andb];
    [|reflexivity].
  replace (isFunction (VObject c1 ps1)) with false by (now destruct c1).
  replace (instanceofObject v2) with true by (now subst v2).
  replace (List.length (keys v2)) with (List.length ps2)
    by (subst v2; simpl; now rewrite length_map).
  cbn [keys]. rewrite length_map.
  destruct (Nat.eqb (List.length ps1) (List.length ps2)); cbn [negb andb];
    [|reflexivity].
  clear Ev2.
  induction ps1 as [|[k x] ps1 IHps1]; simpl; [reflexivity|].
  destruct (testEquals x (get v2 k)); simpl; [exact IHps1 | reflexivity].
Qed.

(** Values that compare equal carry the same type tag. *)
Lemma testEquals_same_tag (v1 v2 : value) :
  testEquals v1 v2 = true -> betterTypeOf v1 = betterTypeOf v2.
Proof.
  intros E. destruct (String.eqb (betterTypeOf v1) (betterTypeOf v2)) eqn:T.
  - now apply String.eqb_eq.
  - destruct v1; cbn [testEquals] in E; rewrite T in E; discriminate.
Qed.

(** [===] is only ever applied to two primitives: with equal tags and no
    function involved, the two operands are objects together or
    primitives together. *)
Lemma strict_only_primitives (v1 v2 : value) :
  betterTypeOf v1 = betterTypeOf v2 ->
  instanceofObject v1 = instanceofObject v2.
Proof.
  destruct v1 as [ | | | | | |c1 ?], v2 as [ | | | | | |c2 ?]; simpl;
    try reflexivity; try discriminate;
    try (destruct c1; discriminate); destruct c2; discriminate.
Qed.

Lemma SFeqb_refl (x : spec_float) : x <> S754_nan -> SFeqb x x = true.
Proof.
  intros Hx. unfold SFeqb, SFcompare.
  destruct x as [s|s| |s m e]; try reflexivity.
  - now destruct s.
  - congruence.
  - change PosDef.Pos.compare_cont with Pos.compare_cont.
    destruct s; rewrite Z.compare_refl, Pos.compare_cont_refl; reflexivity.
Qed.

Lemma strict_equals_refl (v : value) :
  instanceofObject v = false -> nan_free v = true -> strict_equals v v = true.
Proof.
  destruct v as [ | |b|x|s|s|c ps]; simpl; try reflexivity; try discriminate.
  - intros _ _. now destruct b.
  - intros _ Hx. apply SFeqb_refl. intros ->. discriminate.
  - intros _ _. apply String.eqb_refl.
Qed.

(** [NaN] is a value of its own that [testEquals] does not find equal to
    itself: the comparison of two numbers is [===]. *)
Lemma testEquals_NaN : testEquals NaN NaN = false.
Proof. reflexivity. Qed.

(** C5 (as amended): [testEquals(a, a)] is true for every value [a] in
    which no NaN occurs; values are finite trees, hence never cyclic, and
    the properties of an object have pairwise distinct names. *)
Theorem testEquals_reflexive (a : value) :
  wf_value a = true -> nan_free a = true -> testEquals a a = true.
Proof.
  induction a as [ | |b|x|s|s|c ps IH] using value_ind2; intros Hwf Hnan.
  - reflexivity.
  - reflexivity.
  - now destruct b.
  - cbn. apply SFeqb_refl. intros ->. discriminate.
  - cbn. apply String.eqb_refl.
  - cbn. apply String.eqb_refl.
  - apply wf_value_object in Hwf. destruct Hwf as [Hnd Hwf].
    apply nan_free_object in Hnan.
    rewrite testEquals_objects, String.eqb_refl, Nat.eqb_refl. simpl.
    apply forin_equals_true. intros k x Hin.
    rewrite (get_stored c ps k x Hnd Hin).
    rewrite Forall_forall in IH, Hwf, Hnan.
    apply (IH (k, x) Hin); [apply (Hwf (k, x) Hin) | apply (Hnan (k, x) Hin)].
Qed.

Lemma testEquals_reflexive_witness :
  testEquals
    (plain [("a", num 1); ("b", VObject OArray [("0", VString "x")])])
    (plain [("a", num 1); ("b", VObject OArray [("0", VString "x")])])
  = true.
Proof.
  apply (testEquals_reflexive
           (plain [("a", num 1); ("b", VObject OArray [("0", VString "x")])]));
    reflexivity.
Defined.

(** C4 (the code at the failing input): [{x: undefined}] and
    [{y: undefined}] have one key each and no key in common, yet
    [testEquals] answers true: the loop reads the absent [v2.x] as
    [undefined] and finds it equal to [v1.x]. *)
Theorem testEquals_absent_key :
  testEquals (plain only_x) (plain only_y) = true
  /\ has_key (plain only_y) "x" = false
  /\ ~ spec_plain_equals only_x only_y.
Proof.
  split; [reflexivity | split; [reflexivity|]].
  intros [_ [Hxy _]].
  destruct (Hxy "x" VUndefined (or_introl eq_refl)) as [y [[E | []] _]].
  discriminate E.
Qed.

(** A defined value never equals an absent property. *)
Lemma testEquals_undefined (x : value) :
  testEquals x VUndefined = true -> x = VUndefined.
Proof.
  intros E. apply testEquals_same_tag in E.
  destruct x as [ | | | | | |c ps]; try discriminate; [reflexivity|].
  destruct c; discriminate.
Qed.

Lemma forin_equals_perm (ps ps' : list (string * value)) (v2 : value) :
  Permutation ps ps' -> forin_equals ps v2 = forin_equals ps' v2.
Proof.
  induction 1 as [|[k x] ps ps' _ IH|[k x] [k' x'] ps|ps ps' ps'' _ IH1 _ IH2];
    cbn [forin_equals].
  - reflexivity.
  - now rewrite IH.
  - destruct (testEquals x' (get v2 k')), (testEquals x (get v2 k)); reflexivity.
  - congruence.
Qed.

Lemma forin_equals_ext (ps : list (string * value)) (v2 v2' : value) :
  (forall k, get v2 k = get v2' k) -> forin_equals ps v2 = forin_equals ps v2'.
Proof.
  intros Hget. induction ps as [|[k x] ps IHps]; cbn [forin_equals];
    [reflexivity|].
  now rewrite Hget, IHps.
Qed.

Lemma get_perm (c : objclass) (ps ps' : list (string * value)) (k : string) :
  NoDup (map fst ps) -> Permutation ps ps' ->
  get (VObject c ps) k = get (VObject c ps') k.
Proof.
  intros Hnd Hperm. cbn [get].
  assert (Hnd' : NoDup (map fst ps')).
  { eapply Permutation_NoDup; [|exact Hnd]. now apply Permutation_map. }
  destruct (lookup k ps) as [x|] eqn:L.
  - apply lookup_In in L.
    now rewrite (lookup_NoDup k x ps' Hnd' (Permutation_in _ Hperm L)).
  - apply lookup_None in L.
    replace (lookup k ps') with (@None value); [reflexivity|].
    symmetry. apply lookup_None. intros Hin. apply L.
    eapply Permutation_in; [|exact Hin].
    apply Permutation_map. now apply Permutation_sym.
Qed.

(** The order in which two objects list their properties plays no part
    in the comparison. *)
Lemma testEquals_key_order_irrelevant (c1 c2 : objclass)
      (pa pa' pb pb' : list (string * value)) :
  NoDup (map fst pb) -> Permutation pa pa' -> Permutation pb pb' ->
  testEquals (VObject c1 pa) (VObject c2 pb)
  = testEquals (VObject c1 pa') (VObject c2 pb').
Proof.
  intros Hnb Ha Hb. rewrite !testEquals_objects.
  rewrite (Permutation_length Ha), (Permutation_length Hb).
  rewrite (forin_equals_perm pa pa' _ Ha).
  rewrite (forin_equals_ext pa' (VObject c2 pb) (VObject c2 pb')); [reflexivity|].
  intros k. now apply get_perm.
Qed.

(** Key order does not matter: [{a:1,b:2}] equals [{b:2,a:1}]. *)
Example testEquals_key_order :
  testEquals (plain [("a", num 1); ("b", num 2)])
             (plain [("b", num 2); ("a", num 1)]) = true.
Proof. reflexivity. Qed.

(** Values with different type tags are never equal: the number [1]
    and the string ["1"]. *)
Example testEquals_number_string :
  testEquals (num 1) (VString "1") = false.
Proof. reflexivity. Qed.

(* ------------------------------------------------------------------ *)
(** ** The assertion engine *)

Lemma strict_equals_true (c : value) :
  strict_equals c (VBool true) = true <-> c = VBool true.
Proof.
  destruct c as [ | |b| | | | ]; simpl; try (split; discriminate).
  destruct b; simpl; split; congruence.
Qed.

(** C2: [assert(c, m)] adds one to exactly one of [passed] and [failed]
    and leaves the other as it was; it is [failed] that grows if and only
    if [c] is not the boolean [true]. *)
Theorem assert_counts (c m : value) (t : Tester) :
  let r := testResults t in
  let r' := testResults (state_after (assert c m) t) in
  ((passed r' = S (passed r) /\ failed r' = failed r)
   \/ (failed r' = S (failed r) /\ passed r' = passed r))
  /\ (failed r' = S (failed r) <-> c <> VBool true)
  /\ (passed r' = S (passed r) <-> c = VBool true).
Proof.
  pose proof (strict_equals_true c) as Hc.
  run_tester.
  destruct (strict_equals c (VBool true)); cbn.
  - split; [left; split; reflexivity|].
    split; split; intros; try tauto; try lia.
  - assert (c <> VBool true) as Hne by (intros E; apply Hc in E; discriminate).
    split; [right; split; reflexivity|].
    split; split; intros; try tauto; try lia.
Qed.

(** [assert(true, m)] on a fresh tester does not evaluate to [true]. *)
Lemma assert_true_returns_undefined :
  outcome (assert (VBool true) (VString "m")) (create (mkOptions None None None))
  <> Ret (VBool true).
Proof. cbv. discriminate. Qed.

(** C9 (as amended): [assert(c, m)] always evaluates to [undefined];
    the function has no [return] statement. *)
Theorem assert_returns (c m : value) (t : Tester) :
  outcome (assert c m) t = Ret VUndefined.
Proof.
  run_tester. destruct (strict_equals c (VBool true)); reflexivity.
Qed.

(** *** The invariant of [testResults] *)

Lemma asserted_refl (t : Tester) : asserted 0 t t.
Proof.
  unfold asserted. repeat split; try lia.
  exists []. rewrite app_nil_r. simpl. split; [reflexivity | lia].
Qed.

Lemma asserted_trans (n m : nat) (t t' t'' : Tester) :
  asserted n t t' -> asserted m t' t'' -> asserted (n + m) t t''.
Proof.
  unfold asserted.
  intros (Hs & Hp & (l & Hl & Hf) & Hr & Hh & Hc)
         (Hs' & Hp' & (l' & Hl' & Hf') & Hr' & Hh' & Hc').
  repeat split; try lia; try congruence.
  exists (l ++ l'). rewrite Hl', Hl, app_assoc, length_app. split; [reflexivity | lia].
Qed.

Lemma assert_asserted (c m : value) (t : Tester) :
  exists t', assert c m t = (t', Ret VUndefined) /\ asserted 1 t t'.
Proof.
  unfold asserted. run_tester.
  destruct (strict_equals c (VBool true)); cbn; eexists; (split; [reflexivity|]);
    cbn; repeat split; try lia.
  - exists []. rewrite app_nil_r. simpl. split; [reflexivity | lia].
  - eexists. split; [reflexivity | simpl; lia].
Qed.

Lemma assertEquals_asserted (v e m : value) (t : Tester) :
  exists t', assertEquals v e m t = (t', Ret VUndefined) /\ asserted 1 t t'.
Proof.
  unfold asserted. run_tester.
  destruct (testEquals v e); cbn; eexists; (split; [reflexivity|]);
    cbn; repeat split; try lia.
  - exists []. rewrite app_nil_r. simpl. split; [reflexivity | lia].
  - eexists. split; [reflexivity | simpl; lia].
Qed.

Lemma assertMatch_asserted (s : value) (p : RegExp) (m : value) (t : Tester) :
  exists t', assertMatch s p m t = (t', Ret VUndefined) /\ asserted 1 t t'.
Proof.
  unfold asserted. run_tester.
  destruct (re_test p s); cbn; eexists; (split; [reflexivity|]);
    cbn; repeat split; try lia.
  - exists []. rewrite app_nil_r. simpl. split; [reflexivity | lia].
  - eexists. split; [reflexivity | simpl; lia].
Qed.

Lemma pass_asserted (m : value) (t : Tester) :
  exists t', pass m t = (t', Ret VUndefined) /\ asserted 1 t t'.
Proof.
  destruct (assert_asserted (VBool true) m t) as [t' [E Ha]].
  exists t'. split; [|exact Ha]. unfold pass, bind. now rewrite E.
Qed.

Lemma fail_asserted (m : value) (t : Tester) :
  exists t', fail m t = (t', Ret VUndefined) /\ asserted 1 t t'.
Proof.
  destruct (assert_asserted (VBool false) m t) as [t' [E Ha]].
  exists t'. split; [|exact Ha]. unfold fail, bind. now rewrite E.
Qed.

(** Induction on calls that reaches the body of an [assertRaises]. *)
Lemma call_ind2 (P : call -> Prop) :
  (forall c m, P (CAssert c m)) ->
  (forall v e m, P (CAssertEquals v e m)) ->
  (forall f m, P (CAssertEval f m)) ->
  (forall f e m, P (CAssertEvalEquals f e m)) ->
  (forall s m, P (CAssertExists s m)) ->
  (forall s p m, P (CAssertMatch s p m)) ->
  (forall c m, P (CAssertNot c m)) ->
  (forall body ending args m, Forall P body ->
                              P (CAssertRaises body ending args m)) ->
  (forall t m, P (CAssertResourceExists t m)) ->
  (forall e m, P (CAssertTitle e m)) ->
  (forall i ty m, P (CAssertType i ty m)) ->
  (forall p m, P (CAssertUrlMatch p m)) ->
  (forall m, P (CFail m)) ->
  (forall m, P (CPass m)) ->
  forall c, P c.
Proof.
  intros H1 H2 H3 H4 H5 H6 H7 H8 H9 H10 H11 H12 H13 H14.
  fix IH 1.
  intros [c m|v e m|f m|f e m|s m|s p m|c m|body ending args m|t m|e m
         |i ty m|p m|m|m];
    [apply H1|apply H2|apply H3|apply H4|apply H5|apply H6|apply H7|
    |apply H9|apply H10|apply H11|apply H12|apply H13|apply H14].
  apply H8.
  induction body as [|c body IHbody]; constructor; [apply IH | exact IHbody].
Qed.

Section Invariant.

Variable H : Host.

Lemma run_body_asserted (ending : option value) (body : list call) :
  Forall (fun c => forall t, exists t',
              run_call H c t = (t', Ret VUndefined)
              /\ asserted (calls_made c) t t') body ->
  forall t, exists t',
    run_body H ending body t = (t', finished ending)
    /\ asserted (total_calls body) t t'.
Proof.
  induction 1 as [|c body Hc _ IHbody]; intros t.
  - exists t. split; [now destruct ending | apply asserted_refl].
  - destruct (Hc t) as [t1 [E1 A1]]. destruct (IHbody t1) as [t2 [E2 A2]].
    exists t2. split.
    + change (run_body H ending (c :: body) t)
        with (bind (run_call H c) (fun _ => run_body H ending body) t).
      unfold bind. now rewrite E1.
    + cbn [total_calls]. eapply asserted_trans; eassumption.
Qed.

Lemma assertRaises_asserted (fn : list value -> M value) (args : list value)
      (m : value) (n : nat) (r : result value) (t t1 : Tester) :
  fn args t = (t1, r) -> (forall s, r <> Exited s) -> asserted n t t1 ->
  exists t', assertRaises fn args m t = (t', Ret VUndefined)
             /\ asserted (S n) t t'.
Proof.
  intros E Hr A. unfold assertRaises, try_catch, bind. rewrite E.
  destruct r as [v|e|s].
  - destruct (fail_asserted m t1) as [t' [E' A']]. rewrite E'.
    exists t'. split; [reflexivity|].
    replace (S n) with (n + 1) by lia. eapply asserted_trans; eassumption.
  - destruct (pass_asserted m t1) as [t' [E' A']]. rewrite E'.
    exists t'. split; [reflexivity|].
    replace (S n) with (n + 1) by lia. eapply asserted_trans; eassumption.
  - now destruct (Hr s).
Qed.

(** Every assertion call returns, and moves the tester by the number of
    assertions it amounts to. *)
Lemma run_call_asserted (c : call) (t : Tester) :
  exists t', run_call H c t = (t', Ret VUndefined)
             /\ asserted (calls_made c) t t'.
Proof.
  revert t. induction c as [c m|v e m|f m|f e m|s m|s p m|c m
                           |body ending args m IH|x m|e m|i ty m|p m|m|m]
    using call_ind2; intros t; cbn [run_call calls_made].
  - apply assert_asserted.
  - apply assertEquals_asserted.
  - apply assert_asserted.
  - apply assertEquals_asserted.
  - apply assert_asserted.
  - apply assertMatch_asserted.
  - apply assert_asserted.
  - destruct (run_body_asserted ending body IH t) as [t1 [E1 A1]].
    change (exists t',
      assertRaises (fun _ => run_body H ending body) args m t
      = (t', Ret VUndefined)
      /\ asserted (S (total_calls body)) t t').
    apply (assertRaises_asserted _ args m _ (finished ending) t t1 E1);
      [|exact A1].
    intros s. destruct ending; discriminate.
  - apply assert_asserted.
  - apply assertEquals_asserted.
  - apply assertEquals_asserted.
  - apply assertMatch_asserted.
  - apply fail_asserted.
  - apply pass_asserted.
Qed.

Lemma run_calls_asserted (cs : list call) (t : Tester) :
  exists t', run_calls H cs t = (t', Ret VUndefined)
             /\ asserted (total_calls cs) t t'.
Proof.
  revert t. induction cs as [|c cs IHcs]; intros t.
  - exists t. split; [reflexivity | apply asserted_refl].
  - destruct (run_call_asserted c t) as [t1 [E1 A1]].
    destruct (IHcs t1) as [t2 [E2 A2]].
    exists t2. split.
    + cbn [run_calls]. unfold bind. now rewrite E1.
    + cbn [total_calls]. eapply asserted_trans; eassumption.
Qed.

Lemma run_calls_app (cs cs2 : list call) (t : Tester) :
  state_after (run_calls H (cs ++ cs2)) t
  = state_after (run_calls H cs2) (state_after (run_calls H cs) t).
Proof.
  revert t. induction cs as [|c cs IHcs]; intros t; [reflexivity|].
  destruct (run_call_asserted c t) as [t1 [E1 _]].
  unfold state_after in *. cbn [app run_calls]. unfold bind. rewrite E1.
  apply IHcs.
Qed.

(** C3: after any sequence of assertion calls on a tester, [passed +
    failed] is the number of assertion calls made, [failures] holds one
    record per failed assertion, and going on with more calls never
    resets anything: the counters only grow and [failures] is only
    appended to. *)
Theorem results_invariant (options : Options) (cs : list call) :
  let r := testResults (state_after (run_calls H cs) (create options)) in
  passed r + failed r = total_calls cs
  /\ List.length (failures r) = failed r
  /\ forall more,
      let r' := testResults
                  (state_after (run_calls H (cs ++ more)) (create options)) in
      passed r <= passed r' /\ failed r <= failed r'
      /\ exists l, failures r' = failures r ++ l
                   /\ List.length l = failed r' - failed r.
Proof.
  cbn zeta.
  destruct (run_calls_asserted cs (create options)) as [t1 [E1 A1]].
  assert (Et1 : state_after (run_calls H cs) (create options) = t1)
    by (unfold state_after; now rewrite E1).
  rewrite Et1.
  destruct A1 as (Hs & _ & (l & Hl & Hf) & _). cbn in Hs, Hl, Hf.
  split; [lia | split; [rewrite Hl; lia|]].
  intros more. rewrite run_calls_app, Et1.
  destruct (run_calls_asserted more t1) as [t2 [E2 A2]].
  assert (Et2 : state_after (run_calls H more) t1 = t2)
    by (unfold state_after; now rewrite E2).
  rewrite Et2.
  destruct A2 as (Hs2 & Hp2 & (l2 & Hl2 & Hf2) & _).
  split; [lia | split; [lia|]].
  exists l2. split; [exact Hl2 | lia].
Qed.

End Invariant.

(** [assertSelectorExists] never reaches [assert]: it throws and leaves
    the tester as it was. *)
Lemma assertSelectorExists_throws (selector m : value) (t : Tester) :
  exists e, assertSelectorExists selector m t = (t, Thrown e).
Proof. eexists. reflexivity. Qed.

(** C6: [assertRaises(fn, args, m)] calls [fn] with [args]; when the call
    throws, one passing assertion is recorded and no failing one; when it
    returns, one failing assertion is recorded and no passing one.  What
    was thrown plays no part: the tester ends as [pass(m)] leaves it. *)
Theorem assertRaises_passes_iff_throws (fn : list value -> M value)
        (args : list value) (m : value) (t : Tester) :
  let t1 := state_after (fn args) t in
  let t2 := state_after (assertRaises fn args m) t in
  match outcome (fn args) t with
  | Thrown _ =>
      t2 = state_after (pass m) t1
      /\ passed (testResults t2) = S (passed (testResults t1))
      /\ failed (testResults t2) = failed (testResults t1)
      /\ failures (testResults t2) = failures (testResults t1)
  | Ret _ =>
      t2 = state_after (fail m) t1
      /\ failed (testResults t2) = S (failed (testResults t1))
      /\ passed (testResults t2) = passed (testResults t1)
      /\ failures (testResults t2)
         = failures (testResults t1) ++ [mkDetails m (currentTestFile t1)]
  | Exited _ => t2 = t1
  end.
Proof.
  cbn zeta. unfold state_after, outcome, assertRaises, try_catch, bind.
  destruct (fn args t) as [t1 [v|e|s]]; cbn [fst snd].
  - destruct (fail m t1) as [t' r] eqn:E.
    assert (r = Ret VUndefined /\ fail m t1 = (t', r)) as [-> E'].
    { destruct (fail_asserted m t1) as [t'' [E'' _]]. split; congruence. }
    cbn [fst]. split; [reflexivity|].
    revert E. run_tester. intros [= <-]. cbn. repeat split.
  - destruct (pass m t1) as [t' r] eqn:E.
    assert (r = Ret VUndefined) as ->.
    { destruct (pass_asserted m t1) as [t'' [E'' _]]. congruence. }
    cbn [fst]. split; [reflexivity|].
    revert E. run_tester. intros [= <-]. cbn. repeat split.
  - reflexivity.
Qed.

(* ------------------------------------------------------------------ *)
(** ** Histories *)

Lemma started_app (h h' : list hist) : started (h ++ h') = started h ++ started h'.
Proof.
  induction h as [|[f|] h IHh]; simpl; [reflexivity | now rewrite IHh | exact IHh].
Qed.

Lemma busy_after_app (b : bool) (h h' : list hist) :
  busy_after b (h ++ h') = busy_after (busy_after b h) h'.
Proof.
  revert b. induction h as [|[f|] h IHh]; intros b; simpl; auto.
Qed.

Lemma no_overlap_from_app (b : bool) (h h' : list hist) :
  no_overlap_from b (h ++ h')
  = no_overlap_from b h && no_overlap_from (busy_after b h) h'.
Proof.
  revert b. induction h as [|[f|] h IHh]; intros b; simpl; auto.
  rewrite IHh. now rewrite andb_assoc.
Qed.

Lemma keeps_refl (t : Tester) : keeps t t.
Proof. split; [auto | reflexivity]. Qed.

Lemma keeps_trans (t t' t'' : Tester) : keeps t t' -> keeps t' t'' -> keeps t t''.
Proof. intros [H1 E1] [H2 E2]. split; [auto | congruence]. Qed.

(** Whatever leaves [running] and [history] alone keeps the schedule. *)
Lemma keeps_frame (t t' : Tester) :
  running t' = running t -> history t' = history t -> keeps t t'.
Proof.
  intros Hr Hh. unfold keeps, sched_inv. rewrite Hr, Hh. split; [auto | reflexivity].
Qed.

Lemma asserted_keeps (n : nat) (t t' : Tester) : asserted n t t' -> keeps t t'.
Proof. intros (_ & _ & _ & Hr & Hh & _). now apply keeps_frame. Qed.

Lemma only_output_keeps (t t' : Tester) : only_output t t' -> keeps t t'.
Proof. intros (_ & Hr & _ & Hh & _). now apply keeps_frame. Qed.

Lemma only_output_refl (t : Tester) : only_output t t.
Proof.
  repeat split. exists []. now rewrite app_nil_r.
Qed.

Lemma only_output_trans (t t' t'' : Tester) :
  only_output t t' -> only_output t' t'' -> only_output t t''.
Proof.
  intros (A1 & B1 & C1 & D1 & o1 & E1) (A2 & B2 & C2 & D2 & o2 & E2).
  repeat split; try congruence.
  exists (o1 ++ o2). now rewrite E2, E1, app_assoc.
Qed.

Lemma echo_only_output (x : text) (st : option style) (t : Tester) :
  exists t', echo x st t = (t', Ret tt) /\ only_output t t'.
Proof.
  eexists. split; [reflexivity|]. repeat split. eexists. reflexivity.
Qed.

Lemma bar_only_output (x : text) (st : style) (t : Tester) :
  exists t', bar x st t = (t', Ret tt) /\ only_output t t'.
Proof. apply echo_only_output. Qed.

(** [done] records the completion and clears [running]. *)
Lemma done_keeps (t : Tester) :
  exists t', done t = (t', Ret VUndefined) /\ keeps t t'
             /\ running t' = false
             /\ history t' = history t ++ [HDone]
             /\ testResults t' = testResults t
             /\ currentTestFile t' = currentTestFile t.
Proof.
  eexists. split; [reflexivity|]. cbn.
  split; [split | repeat split].
  - unfold sched_inv. cbn. intros [_ Hn]. split.
    + now rewrite busy_after_app.
    + unfold no_overlap in *. rewrite no_overlap_from_app, Hn. reflexivity.
  - cbn. now rewrite started_app, app_nil_r.
Qed.

Lemma returns_ret {A} (a : A) : returns (ret a).
Proof. intros t. exists t, a. split; [reflexivity | apply keeps_refl]. Qed.

Lemma returns_bind {A B} (m : M A) (k : A -> M B) :
  returns m -> (forall a, returns (k a)) -> returns (bind m k).
Proof.
  intros Hm Hk t. destruct (Hm t) as (t1 & a & E1 & K1).
  destruct (Hk a t1) as (t2 & b & E2 & K2).
  exists t2, b. unfold bind. rewrite E1. split; [exact E2|].
  eapply keeps_trans; eassumption.
Qed.

Lemma returns_safe {A} (m : M A) : returns m -> safe m.
Proof.
  intros Hm t. destruct (Hm t) as (t1 & a & E1 & K1).
  exists t1, (Ret a). split; [exact E1 | split; [exact K1 | discriminate]].
Qed.

Lemma safe_throw {A} (e : value) : safe (@throw A e).
Proof.
  intros t. exists t, (Thrown e).
  split; [reflexivity | split; [apply keeps_refl | discriminate]].
Qed.

Lemma safe_bind {A B} (m : M A) (k : A -> M B) :
  safe m -> (forall a, safe (k a)) -> safe (bind m k).
Proof.
  intros Hm Hk t. destruct (Hm t) as (t1 & r & E1 & K1 & N1).
  unfold bind. rewrite E1. destruct r as [a|e|s].
  - destruct (Hk a t1) as (t2 & r2 & E2 & K2 & N2).
    exists t2, r2. split; [exact E2 | split; [|exact N2]].
    eapply keeps_trans; eassumption.
  - exists t1, (Thrown e). split; [reflexivity | split; [exact K1 | discriminate]].
  - now destruct (N1 s).
Qed.

Lemma returns_try_catch {A} (body : M A) (handler : value -> M A) :
  safe body -> (forall e, returns (handler e)) ->
  returns (try_catch body handler).
Proof.
  intros Hb Hh t. destruct (Hb t) as (t1 & r & E1 & K1 & N1).
  unfold try_catch. rewrite E1. destruct r as [a|e|s].
  - exists t1, a. split; [reflexivity | exact K1].
  - destruct (Hh e t1) as (t2 & a & E2 & K2).
    exists t2, a. split; [exact E2 | eapply keeps_trans; eassumption].
  - now destruct (N1 s).
Qed.

Lemma returns_done : returns done.
Proof.
  intros t. destruct (done_keeps t) as (t' & E & K & _).
  exists t', VUndefined. split; assumption.
Qed.

Lemma returns_fail (m : value) : returns (fail m).
Proof.
  intros t. destruct (fail_asserted m t) as (t' & E & Ha).
  exists t', VUndefined. split; [exact E | eapply asserted_keeps; eassumption].
Qed.

Lemma returns_modify (f : Tester -> Tester) :
  (forall t, running (f t) = running t /\ history (f t) = history t) ->
  returns (modify f).
Proof.
  intros Hf t. exists (f t), tt. split; [reflexivity|].
  apply keeps_frame; apply Hf.
Qed.

Section Suites.

Variable H : Host.

Lemma returns_run_op (o : op) : returns (run_op H o).
Proof.
  destruct o as [c|]; [|apply returns_done].
  intros t. destruct (run_call_asserted H c t) as (t' & E & Ha).
  exists t', VUndefined. split; [exact E | eapply asserted_keeps; eassumption].
Qed.

Lemma returns_run_ops (os : list op) : returns (run_ops H os).
Proof.
  induction os as [|o os IHos]; [apply returns_ret|].
  cbn [run_ops]. apply returns_bind; [apply returns_run_op | intros _; exact IHos].
Qed.

Lemma safe_run_script (s : script) : safe (run_script H s).
Proof.
  unfold run_script. apply safe_bind.
  - apply returns_safe, returns_run_ops.
  - intros _. destruct (sync_end s) as [e|]; cbn.
    + apply safe_throw.
    + apply returns_safe, returns_ret.
Qed.

(** The error-containment path: one failing assertion, then [done]. *)
Lemma returns_contain (e : value) : returns (bind (fail e) (fun _ => done)).
Proof. apply returns_bind; [apply returns_fail | intros _; apply returns_done]. Qed.

Lemma exec_rejected (f : path) (t : Tester) :
  accepted H f = false ->
  exists e, exec H f t = (t, Thrown e).
Proof.
  unfold accepted, exec. intros Hacc.
  replace (negb (fs_isFile H (filtered H f)) || negb (isJsFile H (filtered H f)))
    with true.
  - eexists. reflexivity.
  - destruct (fs_isFile H (filtered H f)), (isJsFile H (filtered H f));
      simpl in *; congruence.
Qed.

Lemma exec_accepted (f : path) :
  accepted H f = true -> returns (exec H f).
Proof.
  unfold accepted, exec. intros Hacc.
  apply andb_true_iff in Hacc. destruct Hacc as [-> ->]. cbn [negb orb].
  apply returns_bind.
  - apply returns_modify. intros t. split; reflexivity.
  - intros _. apply returns_bind; [|intros _; apply returns_ret].
    apply returns_try_catch; [apply safe_run_script|].
    intros e. apply returns_contain.
Qed.

Lemma exec_accepted_outcome (f : path) (t : Tester) :
  accepted H f = true -> outcome (exec H f) t = Ret VUndefined.
Proof.
  unfold accepted, exec, outcome. intros Hacc.
  apply andb_true_iff in Hacc. destruct Hacc as [-> ->]. cbn [negb orb].
  unfold bind at 1. cbn [modify].
  unfold bind at 1.
  destruct (try_catch _ _ _) as [t1 [a|e|s]] eqn:E; cbn; try reflexivity.
  - exfalso.
    destruct (returns_try_catch (run_script H (getScriptCode H (filtered H f)))
                (fun e => processScriptError e (filtered H f)
                            (fun _ => bind (fail e) (fun _ => done)))
                (safe_run_script _) (fun e => returns_contain e)
                (set_currentTestFile (Some (filtered H f)) t))
      as (t2 & a & E2 & _).
    rewrite E2 in E. discriminate.
  - exfalso.
    destruct (returns_try_catch (run_script H (getScriptCode H (filtered H f)))
                (fun e => processScriptError e (filtered H f)
                            (fun _ => bind (fail e) (fun _ => done)))
                (safe_run_script _) (fun e => returns_contain e)
                (set_currentTestFile (Some (filtered H f)) t))
      as (t2 & a & E2 & _).
    rewrite E2 in E. discriminate.
Qed.

End Suites.

(** [exec] follows the filter: [/notes.txt] is no script, yet with a
    filter that answers [/tests/a.js] the call goes through and it is
    the script the filter named that runs. *)
Lemma exec_follows_filter :
  fs_isFile redirecting_host ["notes.txt"]
  && isJsFile redirecting_host ["notes.txt"] = false
  /\ outcome (exec redirecting_host ["notes.txt"]) (create default_options)
     = Ret VUndefined
  /\ currentTestFile
       (state_after (exec redirecting_host ["notes.txt"])
                    (create default_options))
     = Some ["tests"; "a.js"].
Proof. repeat split. Qed.

(** C10 (as amended): [exec(file)] throws if and only if the path it
    works with, which is the answer of the ['exec.file'] filter when
    there is one and the given path otherwise, is not an existing file
    with a script extension; when it throws, the tester is left as it
    was, [currentTestFile] included. *)
Theorem exec_throws_iff_rejected (H : Host) (f : path) (t : Tester) :
  ((exists e, outcome (exec H f) t = Thrown e) <-> accepted H f = false)
  /\ (accepted H f = false -> state_after (exec H f) t = t)
  /\ (exec_file_filter H = None
      -> accepted H f = fs_isFile H f && isJsFile H f).
Proof.
  split; [split|split].
  - intros [e He]. destruct (accepted H f) eqn:Hacc; [|reflexivity].
    rewrite (exec_accepted_outcome H f t Hacc) in He. discriminate.
  - intros Hacc. destruct (exec_rejected H f t Hacc) as [e He].
    exists e. unfold outcome. now rewrite He.
  - intros Hacc. destruct (exec_rejected H f t Hacc) as [e He].
    unfold state_after. now rewrite He.
  - intros Hflt. unfold accepted, filtered. now rewrite Hflt.
Qed.

(* ------------------------------------------------------------------ *)
(** ** Running suites *)

Section Run.

Variable H : Host.

Lemma safe_exec (f : path) : safe (exec H f).
Proof.
  destruct (accepted H f) eqn:Hacc.
  - apply returns_safe. now apply exec_accepted.
  - intros t. destruct (exec_rejected H f t Hacc) as [e He].
    exists t, (Thrown e). split; [exact He | split; [apply keeps_refl | discriminate]].
Qed.

(** [runTest], called while nothing is running, starts exactly the suite
    it is given. *)
Lemma runTest_starts (f : path) (t : Tester) :
  running t = false -> sched_inv t ->
  exists t', runTest H f t = (t', Ret VUndefined)
             /\ sched_inv t'
             /\ started (history t') = started (history t) ++ [f].
Proof.
  intros Hr [Hb Hn].
  set (t1 := set_running true
               (add_output (Echo (TFill (TJoin [TStr "Test file: "; TPath f]))
                                 (Some INFO_BAR))
                           (add_history (HStart f) t))).
  assert (Hinv1 : sched_inv t1).
  { unfold sched_inv, t1, no_overlap in *. cbn.
    rewrite busy_after_app, no_overlap_from_app, Hn, <- Hb, Hr. split; reflexivity. }
  assert (Hst1 : started (history t1) = started (history t) ++ [f]).
  { unfold t1. cbn. now rewrite started_app. }
  assert (Hrest : returns (bind (try_catch (exec H f)
                                   (fun e => bind (fail e) (fun _ => done)))
                                (fun _ => ret VUndefined))).
  { apply returns_bind; [|intros _; apply returns_ret].
    apply returns_try_catch; [apply safe_exec | intros e; apply returns_contain]. }
  destruct (Hrest t1) as (t' & a & E & K1 & K2).
  exists t'. split; [|split; [auto | congruence]].
  unfold runTest. unfold bind at 1. cbn [modify].
  unfold bind at 1. unfold bar, echo. cbn [modify].
  unfold bind at 1. cbn [modify].
  fold t1. rewrite E. f_equal.
  revert E. unfold bind. destruct (try_catch _ _ t1) as [t2 [v|e|s]];
    cbn; intros [= _ <-] || intros [=]; reflexivity.
Qed.

Lemma render_each_only_output (fs : list details) (t : Tester) :
  exists t', render_each fs t = (t', Ret tt) /\ only_output t t'.
Proof.
  revert t. induction fs as [|d fs IHfs]; intros t.
  - exists t. split; [reflexivity | apply only_output_refl].
  - cbn [render_each]. unfold bind at 1.
    destruct (echo_only_output
                (TJoin [TStr "In "; file_text (file d); TStr ":"]) None t)
      as (t1 & E1 & O1). rewrite E1.
    unfold bind at 1.
    match goal with |- context [echo ?x ?s t1] =>
      destruct (echo_only_output x s t1) as (t2 & E2 & O2) end.
    rewrite E2. destruct (IHfs t2) as (t3 & E3 & O3).
    exists t3. split; [exact E3|].
    eapply only_output_trans; [|exact O3].
    eapply only_output_trans; eassumption.
Qed.

Lemma renderFailureDetails_only_output (fs : list details) (t : Tester) :
  exists t', renderFailureDetails fs t = (t', Ret tt) /\ only_output t t'.
Proof.
  unfold renderFailureDetails. destruct (Nat.eqb (List.length fs) 0).
  - exists t. split; [reflexivity | apply only_output_refl].
  - unfold bind.
    match goal with |- context [echo ?x ?s t] =>
      destruct (echo_only_output x s t) as (t1 & E1 & O1) end.
    rewrite E1. destruct (render_each_only_output fs t1) as (t2 & E2 & O2).
    exists t2. split; [exact E2 | eapply only_output_trans; eassumption].
Qed.

(** [renderResults(true)] writes the report and ends the process with
    the given status, 0 when none is given. *)
Lemma renderResults_exits (status : option nat) (sv : option path)
      (t : Tester) :
  exists t', renderResults H (VBool true) status sv t
             = (t', Exited (match status with Some s => s | None => 0 end))
             /\ only_output t t'.
Proof.
  unfold renderResults. unfold bind at 1 2 3 4. cbn [gets].
  destruct (if Nat.eqb (passed (testResults t) + failed (testResults t)) 0
            then _ else _) as [result st].
  unfold bind at 1.
  destruct (echo_only_output (colorize (TFill result) (Some st)) None t)
    as (t1 & E1 & O1). rewrite E1.
  unfold bind at 1.
  assert (exists t2,
    (if Nat.ltb 0 (failed (testResults t))
     then renderFailureDetails (failures (testResults t)) else ret tt) t1
    = (t2, Ret tt) /\ only_output t1 t2) as (t2 & E2 & O2).
  { destruct (Nat.ltb 0 (failed (testResults t))).
    - apply renderFailureDetails_only_output.
    - exists t1. split; [reflexivity | apply only_output_refl]. }
  rewrite E2. unfold bind at 1.
  assert (exists t3,
    match (match sv with Some s => Some s | None => save t end) with
    | Some s =>
        match write_error H s with
        | None => echo (TJoin [TStr "Result log stored in "; TPath s]) (Some INFO)
        | Some e => echo (TJoin [TStr "Unable to write results to "; TPath s;
                                 TStr ": "; TVal e]) (Some ERROR)
        end
    | None => ret tt
    end t2 = (t3, Ret tt) /\ only_output t2 t3) as (t3 & E3 & O3).
  { destruct (match sv with Some s => Some s | None => save t end) as [s|].
    - destruct (write_error H s); apply echo_only_output.
    - exists t2. split; [reflexivity | apply only_output_refl]. }
  rewrite E3. cbn. exists t3. split; [reflexivity|].
  eapply only_output_trans; [|exact O3].
  eapply only_output_trans; eassumption.
Qed.

Lemma collect_resolved (paths acc : list path) (t : Tester) :
  exists t', collect H paths acc t = (t', Ret (acc ++ resolved H paths))
             /\ only_output t t'.
Proof.
  revert acc t. induction paths as [|p paths IHp]; intros acc t.
  - exists t. cbn. rewrite app_nil_r. split; [reflexivity | apply only_output_refl].
  - cbn [collect]. unfold bind at 1.
    assert (exists t1,
      (if negb (fs_exists H p)
       then bar (TJoin [TStr "Path "; TPath p; TStr " doesn't exist"]) RED_BAR
       else ret tt) t = (t1, Ret tt) /\ only_output t t1) as (t1 & E1 & O1).
    { destruct (negb (fs_exists H p)).
      - apply bar_only_output.
      - exists t. split; [reflexivity | apply only_output_refl]. }
    rewrite E1.
    assert (Hres : resolved H (p :: paths)
                   = (if fs_isDirectory H p then findTestFiles H p
                      else if fs_isFile H p then [p] else [])
                     ++ resolved H paths) by reflexivity.
    rewrite Hres.
    destruct (fs_isDirectory H p); [|destruct (fs_isFile H p)].
    + destruct (IHp (acc ++ findTestFiles H p) t1) as (t2 & E2 & O2).
      exists t2. rewrite E2, app_assoc.
      split; [reflexivity | eapply only_output_trans; eassumption].
    + destruct (IHp (acc ++ [p]) t1) as (t2 & E2 & O2).
      exists t2. rewrite E2, app_assoc.
      split; [reflexivity | eapply only_output_trans; eassumption].
    + destruct (IHp acc t1) as (t2 & E2 & O2).
      exists t2. rewrite E2.
      split; [reflexivity | eapply only_output_trans; eassumption].
Qed.

End Run.

Section Scheduling.

Variable H : Host.

Lemma runSuites_none (t : Tester) :
  exists e, runSuites H [] t = (t, Thrown e).
Proof. eexists. reflexivity. Qed.

Lemma runSuites_no_files (paths : list path) (t : Tester) :
  paths <> [] -> resolved H paths = [] ->
  exists t', runSuites H paths t = (t', Exited 1)
             /\ only_output t t'
             /\ exists out, output t' = output t ++ out ++ [no_test_banner].
Proof.
  intros Hp Hres. unfold runSuites.
  destruct paths as [|p paths]; [congruence|]. cbn [List.length Nat.eqb].
  destruct (collect_resolved H (p :: paths) [] t) as (t1 & E1 & O1).
  rewrite Hres in E1. unfold bind at 1. rewrite E1. cbn.
  eexists. split; [reflexivity|].
  destruct O1 as (A & B & C & D & out & E).
  split; [repeat split; auto|].
  - exists (out ++ [no_test_banner]). cbn. now rewrite E, app_assoc.
  - exists out. cbn. now rewrite E, app_assoc.
Qed.

Lemma runSuites_files (paths : list path) (t : Tester) :
  resolved H paths <> [] ->
  exists t', runSuites H paths t = (t', Ret (mkInterval (resolved H paths) 0))
             /\ only_output t t'.
Proof.
  intros Hres. unfold runSuites.
  destruct paths as [|p paths]; [now destruct Hres|]. cbn [List.length Nat.eqb].
  destruct (collect_resolved H (p :: paths) [] t) as (t1 & E1 & O1).
  cbn [app] in E1. unfold bind at 1. rewrite E1.
  destruct (resolved H (p :: paths)) as [|f fs] eqn:R; [now destruct Hres|].
  cbn. exists t1. split; [reflexivity | exact O1].
Qed.

(** Once the process has ended, no event changes anything. *)
Lemma run_exited (p : Process) (es : list event) :
  exit_status p <> None -> run H p es = p.
Proof.
  intros Hx. induction es as [|e es IHes]; [reflexivity|].
  unfold run in *. cbn [fold_left].
  replace (step H p e) with p; [exact IHes|].
  unfold step. destruct (exit_status p); [reflexivity | congruence].
Qed.

(** C7: when paths are given and none of them resolves to a test file,
    [runSuites] prints the banner "No test file found, aborting." in the
    failure style and ends the process with status 1; no interval is
    registered, no suite is started and no result is recorded, whatever
    happens afterwards. *)
Theorem no_tests_found (paths : list path) (t : Tester) :
  paths <> [] -> resolved H paths = [] ->
  let p := launch H t paths in
  exit_status p = Some 1
  /\ interval p = None
  /\ (exists out, output (tester p) = output t ++ out ++ [no_test_banner])
  /\ history (tester p) = history t
  /\ testResults (tester p) = testResults t
  /\ forall es, run H p es = p.
Proof.
  intros Hp Hres. cbn zeta.
  destruct (runSuites_no_files paths t Hp Hres)
    as (t' & E & (_ & _ & Hr & Hh & _) & Hout).
  assert (Hl : launch H t paths = mkProcess t' None (Some 1))
    by (unfold launch; now rewrite E).
  rewrite Hl. cbn. repeat split; auto.
  intros es. apply run_exited. discriminate.
Qed.

Lemma firstn_succ (files : list path) (c : nat) :
  c < List.length files ->
  firstn (S c) files = firstn c files ++ [nth c files []].
Proof.
  revert c. induction files as [|f files IHf]; intros c Hc; [simpl in Hc; lia|].
  destruct c as [|c]; [reflexivity|].
  cbn [firstn nth app]. simpl in Hc. rewrite <- IHf by lia. reflexivity.
Qed.

Lemma after_inv {A} (files : list path) (p : Process) (m : M A) :
  returns m -> exit_status p = None -> proc_inv files p ->
  proc_inv files (after p (m (tester p))).
Proof.
  intros Hm Hx [Hs Hi]. destruct (Hm (tester p)) as (t' & a & E & K1 & K2).
  rewrite E. cbn. split; [auto|]. cbn.
  destruct (interval p) as [iv|].
  - destruct Hi as (Hf & Hc & Hst & _).
    repeat split; auto; try congruence; try discriminate.
  - congruence.
Qed.

Lemma tick_inv (files : list path) (p : Process) :
  exit_status p = None -> proc_inv files p -> proc_inv files (step H p ETick).
Proof.
  intros Hx [Hs Hi]. unfold step. rewrite Hx.
  destruct (interval p) as [iv|] eqn:Hiv; [|split; [exact Hs | now rewrite Hiv]].
  destruct Hi as (Hf & Hc & Hst & Hfin).
  unfold interval_callback. unfold bind at 1. cbn [gets].
  destruct (running (tester p)) eqn:Hr.
  - cbn. split; [exact Hs|]. cbn. repeat split; auto. intros s [=].
  - rewrite Hf.
    destruct (Nat.eqb (current iv) (List.length files)) eqn:Hcur.
    + apply Nat.eqb_eq in Hcur.
      destruct (renderResults_exits H None None (tester p)) as (t' & E & O).
      unfold bind. rewrite E. split.
      * cbn. apply (only_output_keeps _ _ O). exact Hs.
      * cbn. destruct O as (_ & _ & _ & Hh & _). rewrite Hh.
        repeat split; auto.
    + apply Nat.eqb_neq in Hcur.
      destruct (runTest_starts H (nth (current iv) files []) (tester p) Hr Hs)
        as (t' & E & Hs' & Hst').
      unfold bind. rewrite E. split; [exact Hs'|]. cbn.
      repeat split; try lia.
      * rewrite Hst', Hst. symmetry. apply firstn_succ. lia.
      * intros s [=].
Qed.

Lemma step_inv (files : list path) (p : Process) (e : event) :
  proc_inv files p -> proc_inv files (step H p e).
Proof.
  intros Hinv. destruct (exit_status p) as [s|] eqn:Hx.
  - unfold step. now rewrite Hx.
  - destruct e as [|ops|err].
    + now apply tick_inv.
    + unfold step. rewrite Hx.
      apply (after_inv files p (run_ops H ops) (returns_run_ops H ops) Hx Hinv).
    + unfold step. rewrite Hx.
      apply (after_inv files p (bind (fail err) (fun _ => done))
                       (returns_contain err) Hx Hinv).
Qed.

Lemma run_inv (files : list path) (p : Process) (es : list event) :
  proc_inv files p -> proc_inv files (run H p es).
Proof.
  revert p. induction es as [|e es IHes]; intros p Hinv; [exact Hinv|].
  unfold run in *. cbn [fold_left]. apply IHes. now apply step_inv.
Qed.

Lemma launch_inv (options : Options) (paths : list path) :
  proc_inv (resolved H paths) (launch H (create options) paths).
Proof.
  assert (Hs0 : sched_inv (create options)) by (split; reflexivity).
  unfold launch. destruct paths as [|p paths].
  - cbn. split; [exact Hs0 | reflexivity].
  - destruct (resolved H (p :: paths)) as [|f fs] eqn:R.
    + destruct (runSuites_no_files (p :: paths) (create options))
        as (t' & E & O & _); [discriminate | exact R |].
      rewrite E. split; cbn.
      * apply (only_output_keeps _ _ O). exact Hs0.
      * destruct O as (_ & _ & _ & Hh & _). now rewrite Hh.
    + destruct (runSuites_files (p :: paths) (create options))
        as (t' & E & O); [rewrite R; discriminate|].
      rewrite E, R. split; cbn.
      * apply (only_output_keeps _ _ O). exact Hs0.
      * destruct O as (_ & _ & _ & Hh & _). rewrite Hh.
        repeat split; [lia | intros s [=]].
Qed.

End Scheduling.

(** While a suite is running, the periodic check does nothing. *)
Lemma tick_while_running (H : Host) (p : Process) :
  running (tester p) = true -> step H p ETick = p.
Proof.
  intros Hr. unfold step. destruct p as [t [iv|] [s|]]; try reflexivity.
  cbn in *. unfold interval_callback, bind, gets. now rewrite Hr.
Qed.

(** Assertions alone never clear [running]. *)
Lemma run_calls_running (H : Host) (cs : list call) (t : Tester) :
  running (state_after (run_calls H cs) t) = running t.
Proof.
  destruct (run_calls_asserted H cs t) as (t' & E & _ & _ & _ & Hr & _).
  unfold state_after. now rewrite E.
Qed.

(** A complete run over the sample tree: the three suites start in the
    resolved order, each after the previous one was declared done, and
    the process ends with status 0. *)
Example complete_run_sample :
  let p := run sample_host
               (launch sample_host (create default_options) [["tests"]])
               complete_run in
  exit_status p = Some 0
  /\ history (tester p)
     = [HStart ["tests"; "a.js"]; HDone;
        HStart ["tests"; "z.js"]; HDone;
        HStart ["tests"; "sub"; "s.js"]; HDone]
  /\ passed (testResults (tester p)) = 1
  /\ failed (testResults (tester p)) = 1.
Proof. repeat split. Qed.

(** A suite that is never declared done holds the run: the following
    ticks start nothing. *)
Example hung_suite_sample :
  let p := run sample_host
               (launch sample_host (create default_options) [["tests"]])
               [ETick; ETick; ETick] in
  exit_status p = None
  /\ history (tester p) = [HStart ["tests"; "a.js"]]
  /\ running (tester p) = true.
Proof. repeat split. Qed.

(** A file that [exec] rejects still counts as a suite: one failure is
    recorded, [done] is called and the next suite runs. *)
Example rejected_suite_sample :
  let p := run sample_host
               (launch sample_host (create default_options)
                       [["notes.txt"]; ["tests"; "a.js"]])
               [ETick; ETick; EAsync [ODone]; ETick] in
  exit_status p = Some 0
  /\ history (tester p)
     = [HStart ["notes.txt"]; HDone; HStart ["tests"; "a.js"]; HDone]
  /\ failed (testResults (tester p)) = 1.
Proof. repeat split. Qed.

Lemma no_tests_found_witness :
  let p := launch sample_host (create default_options) [["empty"]; ["nowhere"]] in
  exit_status p = Some 1
  /\ interval p = None
  /\ (exists out, output (tester p)
                  = output (create default_options) ++ out ++ [no_test_banner])
  /\ history (tester p) = history (create default_options)
  /\ testResults (tester p) = testResults (create default_options)
  /\ forall es, run sample_host p es = p.
Proof.
  apply (no_tests_found sample_host [["empty"]; ["nowhere"]]
                        (create default_options)).
  - discriminate.
  - reflexivity.
Defined.


(* ------------------------------------------------------------------ *)
(** ** Suite discovery *)

(** Induction on the file system that reaches the entries of a
    directory. *)
Lemma fsnode_ind2 (P : fsnode -> Prop) :
  (forall code, P (FsFile code)) ->
  (forall es, Forall (fun e => P (snd e)) es -> P (FsDir es)) ->
  forall n, P n.
Proof.
  intros Hf Hd. fix IH 1. intros [code|es]; [apply Hf|].
  apply Hd. induction es as [|[name child] es IHes]; constructor;
    [apply IH | exact IHes].
Qed.

Lemma subseq_refl {A} (l : list A) : subseq l l.
Proof. induction l; constructor; assumption. Qed.

Lemma subseq_app_skip {A} (pre l l' : list A) :
  subseq l l' -> subseq l (pre ++ l').
Proof. intros Hs. induction pre; simpl; [exact Hs | now constructor]. Qed.

Section DiscoveryOrder.

Variable H : Host.

Lemma last_app_nonempty (d p : path) (x : string) :
  p <> [] -> last (d ++ p) x = last p x.
Proof.
  intros Hp. induction d as [|c d IHd]; [reflexivity|].
  cbn [app last]. destruct (d ++ p) eqn:E.
  - apply app_eq_nil in E. now destruct E.
  - exact IHd.
Qed.

Lemma isJsFile_app (d p : path) :
  p <> [] -> isJsFile H (d ++ p) = isJsFile H p.
Proof.
  intros Hp. unfold isJsFile.
  destruct (d ++ p) eqn:E.
  - apply app_eq_nil in E. now destruct E.
  - rewrite <- E, (last_app_nonempty d p "" Hp). now destruct p.
Qed.

Lemma findTestFiles_at_dir (dir : path) (es : list (string * fsnode)) :
  findTestFiles_at H dir (FsDir es)
  = filter (fun entry => isJsFile H (dir ++ entry))
      (forEach_entries H dir es
         (map (fun entry => dir ++ [entry])
              (filter not_dot ("." :: ".." :: map fst es)))).
Proof.
  cbn [findTestFiles_at]. unfold fs_absolute, fs_pathJoin. f_equal.
  match goal with
  | |- _ es ?a = forEach_entries H dir es ?b => change b with a; generalize a
  end.
  induction es as [|[name child] es IHes]; intros acc; [reflexivity|].
  cbn [forEach_entries]. unfold fs_absolute, fs_pathJoin.
  destruct (not_dot name); [destruct child|]; apply IHes.
Qed.

Lemma forEach_entries_flat (dir : path) (es : list (string * fsnode))
      (acc : list path) :
  forEach_entries H dir es acc = acc ++ flat_map (sub_results H dir) es.
Proof.
  revert acc. induction es as [|[name child] es IHes]; intros acc.
  - cbn. now rewrite app_nil_r.
  - cbn [forEach_entries flat_map]. unfold sub_results at 1.
    unfold fs_absolute, fs_pathJoin. cbn [fst snd].
    destruct (not_dot name); [destruct child|]; rewrite IHes;
      cbn [app]; try reflexivity.
    now rewrite app_assoc.
Qed.

Lemma entries_listed (dir : path) (es : list (string * fsnode)) :
  forallb not_dot (map fst es) = true ->
  map (fun entry => dir ++ [entry]) (filter not_dot ("." :: ".." :: map fst es))
  = map (fun name => dir ++ [name]) (map fst es).
Proof.
  intros Hnd. cbn [filter]. change (not_dot ".") with false.
  change (not_dot "..") with false. cbn iota. f_equal.
  induction (map fst es) as [|n ns IHns]; [reflexivity|].
  cbn [forallb] in Hnd. apply andb_true_iff in Hnd. destruct Hnd as [Hn Hns].
  cbn [filter]. rewrite Hn. f_equal. now apply IHns.
Qed.

(** Everything [findTestFiles] yields is a non-empty path with a script
    extension. *)
Lemma found_are_scripts (n : fsnode) :
  forall dir p, In p (findTestFiles_at H dir n) ->
                p <> [] /\ isJsFile H p = true.
Proof.
  induction n as [code|es IH] using fsnode_ind2; intros dir p Hin;
    [destruct Hin|].
  rewrite findTestFiles_at_dir, forEach_entries_flat in Hin.
  apply filter_In in Hin. destruct Hin as [Hin Hjs].
  apply in_app_or in Hin. destruct Hin as [Hin | Hin].
  - apply in_map_iff in Hin. destruct Hin as [name [<- _]].
    assert (Hne : dir ++ [name] <> []) by (now destruct dir).
    split; [exact Hne|]. now rewrite isJsFile_app in Hjs.
  - apply in_flat_map in Hin. destruct Hin as [[name child] [He Hp]].
    unfold sub_results in Hp. cbn [fst snd] in Hp.
    rewrite Forall_forall in IH. specialize (IH (name, child) He).
    cbn [snd] in IH.
    destruct (not_dot name); [|destruct Hp].
    destruct child as [code|es']; [destruct Hp|].
    apply (IH (dir ++ [name]) p Hp).
Qed.

Lemma filter_all {A} (f : A -> bool) (l : list A) :
  (forall x, In x l -> f x = true) -> filter f l = l.
Proof.
  induction l as [|x l IHl]; intros Hall; [reflexivity|].
  cbn [filter]. rewrite (Hall x (or_introl eq_refl)). f_equal.
  apply IHl. intros y Hy. apply Hall. now right.
Qed.

Lemma resolve_app (n : fsnode) (dir : path) (name : string) :
  resolve n (dir ++ [name])
  = match resolve n dir with
    | Some (FsDir es) => find_entry name es
    | _ => None
    end.
Proof.
  revert n. induction dir as [|c dir IHd]; intros n.
  - cbn. destruct n as [code|es]; [reflexivity|].
    destruct (find_entry name es); reflexivity.
  - cbn [app resolve]. destruct n as [code|es]; [reflexivity|].
    destruct (find_entry c es) as [child|]; [apply IHd | reflexivity].
Qed.

Lemma find_entry_NoDup (name : string) (child : fsnode)
      (es : list (string * fsnode)) :
  NoDup (map fst es) -> In (name, child) es -> find_entry name es = Some child.
Proof.
  induction es as [|[n c] es IHes]; [intros _ []|].
  intros Hnd Hin. inversion Hnd as [|? ? Hn Hes]; subst.
  cbn [find_entry]. destruct Hin as [[= -> ->] | Hin].
  - now rewrite String.eqb_refl.
  - destruct (String.eqb name n) eqn:E; [|auto].
    apply String.eqb_eq in E. subst. exfalso. apply Hn.
    apply in_map_iff. exists (n, child). split; [reflexivity | exact Hin].
Qed.

Lemma sub_results_find (dir : path) (es : list (string * fsnode))
      (name : string) (child : fsnode) :
  resolve (root H) dir = Some (FsDir es) -> wf_entries es = true ->
  In (name, child) es ->
  sub_results H dir (name, child) = findTestFiles H (dir ++ [name]).
Proof.
  intros Hres Hwf Hin. unfold wf_entries in Hwf.
  apply andb_true_iff in Hwf. destruct Hwf as [Hnd Hdots].
  apply nodupb_NoDup in Hnd.
  unfold findTestFiles. rewrite resolve_app, Hres.
  rewrite (find_entry_NoDup name child es Hnd Hin).
  unfold sub_results. cbn [fst snd].
  replace (not_dot name) with true.
  - now destruct child.
  - symmetry. rewrite forallb_forall in Hdots. apply Hdots.
    apply in_map_iff. exists (name, child). split; [reflexivity | exact Hin].
Qed.

Lemma manual_files_in_order (paths : list path) :
  subseq (filter (fs_isFile H) paths) (resolved H paths).
Proof.
  induction paths as [|p paths IHp]; [constructor|].
  change (resolved H (p :: paths))
    with ((if fs_isDirectory H p then findTestFiles H p
           else if fs_isFile H p then [p] else []) ++ resolved H paths).
  cbn [filter]. unfold fs_isDirectory, fs_isFile in *.
  destruct (resolve (root H) p) as [[code|es]|].
  - cbn. now constructor.
  - now apply subseq_app_skip.
  - exact IHp.
Qed.

(** In the sample tree, [/tests/z.js] comes before [/tests/sub/s.js]:
    the subdirectory is not expanded where it is listed. *)
Lemma findTestFiles_not_in_place :
  findTestFiles sample_host ["tests"]
  = [["tests"; "a.js"]; ["tests"; "z.js"]; ["tests"; "sub"; "s.js"]]
  /\ spec_findTestFiles sample_host ["tests"]
     = [["tests"; "a.js"]; ["tests"; "sub"; "s.js"]; ["tests"; "z.js"]]
  /\ findTestFiles sample_host ["tests"]
     <> spec_findTestFiles sample_host ["tests"].
Proof.
  split; [reflexivity | split; [reflexivity|]]. intros E. vm_compute in E.
  discriminate E.
Qed.

(** C8 (as amended): for a directory, [findTestFiles] yields the
    directory's own entries with a script extension, in listing order,
    and after all of them what each entry yields in turn (the files of a
    subdirectory, found in the same way; nothing for a plain file), again
    in listing order.  Files named as arguments of [runSuites] keep their
    argument order in the resolved list. *)
Theorem discovery_order (dir : path) (es : list (string * fsnode))
        (paths : list path) :
  resolve (root H) dir = Some (FsDir es) -> wf_entries es = true ->
  findTestFiles H dir
  = filter (isJsFile H) (map (fun name => dir ++ [name]) (map fst es))
    ++ flat_map (fun name => findTestFiles H (dir ++ [name])) (map fst es)
  /\ (forall t, exists t', collect H paths [] t = (t', Ret (resolved H paths)))
  /\ subseq (filter (fs_isFile H) paths) (resolved H paths).
Proof.
  intros Hres Hwf. split; [|split].
  - pose proof Hwf as Hwf'. unfold wf_entries in Hwf'.
    apply andb_true_iff in Hwf'. destruct Hwf' as [_ Hdots].
    unfold findTestFiles at 1. rewrite Hres.
    rewrite findTestFiles_at_dir, forEach_entries_flat,
      (entries_listed dir es Hdots), filter_app.
    f_equal.
    + apply filter_ext_in. intros p Hp.
      apply isJsFile_app. apply in_map_iff in Hp.
      destruct Hp as [name [<- _]]. now destruct dir.
    + rewrite filter_all.
      * rewrite flat_map_concat_map, (flat_map_concat_map _ (map fst es)),
          map_map.
        f_equal. apply map_ext_in. intros [name child] Hin.
        now apply (sub_results_find dir es).
      * intros p Hp. apply in_flat_map in Hp.
        destruct Hp as [[name child] [He Hp]].
        unfold sub_results in Hp. cbn [fst snd] in Hp.
        destruct (not_dot name); [|destruct Hp].
        destruct child as [code|es']; [destruct Hp|].
        apply found_are_scripts in Hp. destruct Hp as [Hne Hjs].
        now rewrite isJsFile_app.
  - intros t. destruct (collect_resolved H paths [] t) as (t' & E & _).
    exists t'. exact E.
  - apply manual_files_in_order.
Qed.

End DiscoveryOrder.

Lemma discovery_order_witness :
  findTestFiles sample_host ["tests"]
  = filter (isJsFile sample_host)
      (map (fun name => ["tests"] ++ [name]) ["a.js"; "sub"; "z.js"])
    ++ flat_map (fun name => findTestFiles sample_host (["tests"] ++ [name]))
         ["a.js"; "sub"; "z.js"]
  /\ (forall t, exists t',
        collect sample_host [["tests"; "z.js"]; ["tests"]; ["tests"; "a.js"]]
                [] t
        = (t', Ret (resolved sample_host
                      [["tests"; "z.js"]; ["tests"]; ["tests"; "a.js"]])))
  /\ subseq (filter (fs_isFile sample_host)
                    [["tests"; "z.js"]; ["tests"]; ["tests"; "a.js"]])
            (resolved sample_host
                      [["tests"; "z.js"]; ["tests"]; ["tests"; "a.js"]]).
Proof.
  apply (discovery_order sample_host ["tests"]
           [("a.js", FsFile empty_script);
            ("sub", FsDir [("s.js", FsFile empty_script)]);
            ("z.js", FsFile empty_script)]
           [["tests"; "z.js"]; ["tests"]; ["tests"; "a.js"]]).
  - reflexivity.
  - reflexivity.
Defined.

(* ================================================================== *)
(** * Further properties *)
(* ================================================================== *)

(** ** Assertions, one by one *)

Lemma assert_pass_state (m : value) (t : Tester) :
  let t' := state_after (assert (VBool true) m) t in
  testResults t'
  = mkResults (S (passed (testResults t))) (failed (testResults t))
              (failures (testResults t))
  /\ currentTestFile t' = currentTestFile t
  /\ running t' = running t /\ history t' = history t.
Proof. repeat split. Qed.

Lemma assert_fail_state (c m : value) (t : Tester) :
  c <> VBool true ->
  let t' := state_after (assert c m) t in
  testResults t'
  = mkResults (passed (testResults t)) (S (failed (testResults t)))
              (failures (testResults t) ++ [mkDetails m (currentTestFile t)])
  /\ currentTestFile t' = currentTestFile t
  /\ running t' = running t /\ history t' = history t.
Proof.
  intros Hc. cbn zeta. run_tester.
  destruct (strict_equals c (VBool true)) eqn:E.
  - apply strict_equals_true in E. contradiction.
  - repeat split.
Qed.

(** Sequencing, for computations that return. *)
Lemma state_after_bind {A B} (m : M A) (k : A -> M B) (t t1 : Tester) (a : A) :
  m t = (t1, Ret a) -> state_after (bind m k) t = state_after (k a) t1.
Proof. intros E. unfold state_after, bind. now rewrite E. Qed.

Lemma outcome_bind {A B} (m : M A) (k : A -> M B) (t t1 : Tester) (a : A) :
  m t = (t1, Ret a) -> outcome (bind m k) t = outcome (k a) t1.
Proof. intros E. unfold outcome, bind. now rewrite E. Qed.

Lemma state_after_eq {A} (m : M A) (t t' : Tester) (r : result A) :
  m t = (t', r) -> state_after m t = t'.
Proof. intros E. unfold state_after. now rewrite E. Qed.

Lemma outcome_eq {A} (m : M A) (t t' : Tester) (r : result A) :
  m t = (t', r) -> outcome m t = r.
Proof. intros E. unfold outcome. now rewrite E. Qed.

Lemma assert_eq (c m : value) (t : Tester) :
  assert c m t = (state_after (assert c m) t, Ret VUndefined).
Proof.
  destruct (assert_asserted c m t) as (t' & E & _).
  unfold state_after. now rewrite E.
Qed.

Lemma assertEquals_eq (v e m : value) (t : Tester) :
  assertEquals v e m t = (state_after (assertEquals v e m) t, Ret VUndefined).
Proof.
  destruct (assertEquals_asserted v e m t) as (t' & E & _).
  unfold state_after. now rewrite E.
Qed.

Lemma assertMatch_eq (s : value) (p : RegExp) (m : value) (t : Tester) :
  assertMatch s p m t = (state_after (assertMatch s p m) t, Ret VUndefined).
Proof.
  destruct (assertMatch_asserted s p m t) as (t' & E & _).
  unfold state_after. now rewrite E.
Qed.

Lemma run_call_eq (H : Host) (c : call) (t : Tester) :
  run_call H c t = (state_after (run_call H c) t, Ret VUndefined).
Proof.
  destruct (run_call_asserted H c t) as (t' & E & _).
  unfold state_after. now rewrite E.
Qed.

Lemma run_calls_eq (H : Host) (cs : list call) (t : Tester) :
  run_calls H cs t = (state_after (run_calls H cs) t, Ret VUndefined).
Proof.
  destruct (run_calls_asserted H cs t) as (t' & E & _).
  unfold state_after. now rewrite E.
Qed.

Lemma pass_eq (m : value) (t : Tester) :
  pass m t = (state_after (pass m) t, Ret VUndefined).
Proof.
  destruct (pass_asserted m t) as (t' & E & _).
  unfold state_after. now rewrite E.
Qed.

Lemma fail_eq (m : value) (t : Tester) :
  fail m t = (state_after (fail m) t, Ret VUndefined).
Proof.
  destruct (fail_asserted m t) as (t' & E & _).
  unfold state_after. now rewrite E.
Qed.

Lemma assertRaises_state (fn : list value -> M value) (args : list value)
      (m : value) (t t1 : Tester) (r : result value) :
  fn args t = (t1, r) ->
  state_after (assertRaises fn args m) t
  = match r with
    | Ret _ => state_after (fail m) t1
    | Thrown _ => state_after (pass m) t1
    | Exited _ => t1
    end.
Proof.
  intros E. unfold state_after, assertRaises, try_catch, bind. rewrite E.
  destruct r as [v|e|s]; [rewrite (fail_eq m t1) | rewrite (pass_eq m t1) |];
    reflexivity.
Qed.

Lemma run_body_eq (H : Host) (ending : option value) (body : list call)
      (t : Tester) :
  run_body H ending body t
  = (state_after (run_body H ending body) t, finished ending).
Proof.
  assert (Hall : Forall (fun c => forall t, exists t',
                           run_call H c t = (t', Ret VUndefined)
                           /\ asserted (calls_made c) t t') body).
  { apply Forall_forall. intros c _ t0. apply run_call_asserted. }
  destruct (run_body_asserted H ending body Hall t) as (t1 & E & _).
  unfold state_after. now rewrite E.
Qed.

(** What the three primitive assertions preserve, every assertion call
    preserves. *)
Section Preservation.

Variable H : Host.
Variable P : Tester -> Prop.
Hypothesis P_assert :
  forall c m t, P t -> P (state_after (assert c m) t).
Hypothesis P_assertEquals :
  forall v e m t, P t -> P (state_after (assertEquals v e m) t).
Hypothesis P_assertMatch :
  forall s p m t, P t -> P (state_after (assertMatch s p m) t).

Lemma pass_preserves (m : value) (t : Tester) :
  P t -> P (state_after (pass m) t).
Proof.
  intros Ht. unfold pass.
  rewrite (state_after_bind _ _ t _ _ (assert_eq (VBool true) m t)).
  now apply P_assert.
Qed.

Lemma fail_preserves (m : value) (t : Tester) :
  P t -> P (state_after (fail m) t).
Proof.
  intros Ht. unfold fail.
  rewrite (state_after_bind _ _ t _ _ (assert_eq (VBool false) m t)).
  now apply P_assert.
Qed.

Lemma run_body_preserves (ending : option value) (body : list call) :
  Forall (fun c => forall t, P t -> P (state_after (run_call H c) t)) body ->
  forall t, P t -> P (state_after (run_body H ending body) t).
Proof.
  induction 1 as [|c body Hc _ IHbody]; intros t Ht.
  - now destruct ending.
  - change (run_body H ending (c :: body))
      with (bind (run_call H c) (fun _ => run_body H ending body)).
    rewrite (state_after_bind _ _ t _ _ (run_call_eq H c t)). auto.
Qed.

Lemma run_call_preserves (c : call) (t : Tester) :
  P t -> P (state_after (run_call H c) t).
Proof.
  revert t. induction c as [c m|v e m|f m|f e m|s m|s p m|c m
                           |body ending args m IH|x m|e m|i ty m|p m|m|m]
    using call_ind2; intros t Ht; cbn [run_call].
  - exact (P_assert c m t Ht).
  - exact (P_assertEquals v e m t Ht).
  - exact (P_assert (evaluate H f) m t Ht).
  - exact (P_assertEquals (evaluate H f) e m t Ht).
  - exact (P_assert (casper_exists H s) m t Ht).
  - exact (P_assertMatch s p m t Ht).
  - exact (P_assert (VBool (negb (truthy c))) m t Ht).
  - change (P (state_after
                 (assertRaises (fun _ => run_body H ending body) args m) t)).
    rewrite (assertRaises_state _ args m t _ _ (run_body_eq H ending body t)).
    pose proof (run_body_preserves ending body IH t Ht) as Hb.
    destruct ending; cbn [finished];
      [exact (pass_preserves m _ Hb) | exact (fail_preserves m _ Hb)].
  - exact (P_assert (resourceExists H x) m t Ht).
  - exact (P_assertEquals (getTitle H) e m t Ht).
  - exact (P_assertEquals (VString (betterTypeOf i)) ty m t Ht).
  - exact (P_assertMatch (getCurrentUrl H) p m t Ht).
  - exact (fail_preserves m t Ht).
  - exact (pass_preserves m t Ht).
Qed.

Lemma run_calls_preserves (cs : list call) (t : Tester) :
  P t -> P (state_after (run_calls H cs) t).
Proof.
  revert t. induction cs as [|c cs IHcs]; intros t Ht; [exact Ht|].
  cbn [run_calls].
  rewrite (state_after_bind _ _ t _ _ (run_call_eq H c t)).
  apply IHcs. now apply run_call_preserves.
Qed.

Lemma run_ops_preserves (os : list op) (t : Tester) :
  (forall t, P t -> P (state_after done t)) ->
  P t -> P (state_after (run_ops H os) t).
Proof.
  intros Hdone. revert t. induction os as [|o os IHos]; intros t Ht;
    [exact Ht|].
  cbn [run_ops].
  assert (E : run_op H o t = (state_after (run_op H o) t, Ret VUndefined)).
  { destruct o as [c|]; [apply run_call_eq | reflexivity]. }
  rewrite (state_after_bind _ _ t _ _ E). apply IHos.
  destruct o as [c|]; [now apply run_call_preserves | now apply Hdone].
Qed.

End Preservation.

(** The books of a tester: exporter, events and [failures]. *)

Lemma consistent_assert (c m : value) (t : Tester) :
  consistent t -> consistent (state_after (assert c m) t).
Proof.
  run_tester. destruct (strict_equals c (VBool true)); books.
Qed.

Lemma consistent_assertEquals (v e m : value) (t : Tester) :
  consistent t -> consistent (state_after (assertEquals v e m) t).
Proof.
  run_tester. destruct (testEquals v e); books.
Qed.

Lemma consistent_assertMatch (s : value) (p : RegExp) (m : value)
      (t : Tester) :
  consistent t -> consistent (state_after (assertMatch s p m) t).
Proof.
  run_tester. destruct (re_test p s); books.
Qed.

(** After any sequence of assertion calls on a fresh tester, the exporter
    was told one success per pass and one failure per fail, one event was
    emitted per assertion, and [failures] holds exactly the details the
    ['fail'] events carried, in order. *)
Theorem books_agree (H : Host) (options : Options) (cs : list call) :
  consistent (state_after (run_calls H cs) (create options)).
Proof.
  apply (run_calls_preserves H consistent consistent_assert
           consistent_assertEquals consistent_assertMatch).
  repeat split.
Qed.

Lemma attributed_refl (t : Tester) : attributed t t.
Proof.
  split; [reflexivity|]. exists []. now rewrite app_nil_r.
Qed.

Lemma attributed_step (t0 t t' : Tester) :
  attributed t0 t ->
  currentTestFile t' = currentTestFile t ->
  (failures (testResults t') = failures (testResults t)
   \/ exists m, failures (testResults t')
                = failures (testResults t) ++ [mkDetails m (currentTestFile t)]) ->
  attributed t0 t'.
Proof.
  intros (Hc & l & Hl & Hall) Hc' [Hf | [m Hf]].
  - split; [congruence|]. exists l. split; [congruence | exact Hall].
  - split; [congruence|]. exists (l ++ [mkDetails m (currentTestFile t)]).
    split; [now rewrite Hf, Hl, app_assoc|].
    apply Forall_app. split; [exact Hall|]. constructor; [exact Hc | constructor].
Qed.

Lemma attributed_assert (t0 : Tester) (c m : value) (t : Tester) :
  attributed t0 t -> attributed t0 (state_after (assert c m) t).
Proof.
  intros Ha. apply (attributed_step t0 t _ Ha); run_tester;
    destruct (strict_equals c (VBool true)); cbn;
    [reflexivity | reflexivity | left; reflexivity | right; now exists m].
Qed.

Lemma attributed_assertEquals (t0 : Tester) (v e m : value) (t : Tester) :
  attributed t0 t -> attributed t0 (state_after (assertEquals v e m) t).
Proof.
  intros Ha. apply (attributed_step t0 t _ Ha); run_tester;
    destruct (testEquals v e); cbn;
    [reflexivity | reflexivity | left; reflexivity | right; now exists m].
Qed.

Lemma attributed_assertMatch (t0 : Tester) (s : value) (p : RegExp)
      (m : value) (t : Tester) :
  attributed t0 t -> attributed t0 (state_after (assertMatch s p m) t).
Proof.
  intros Ha. apply (attributed_step t0 t _ Ha); run_tester;
    destruct (re_test p s); cbn;
    [reflexivity | reflexivity | left; reflexivity | right; now exists m].
Qed.

Lemma attributed_done (t0 t : Tester) :
  attributed t0 t -> attributed t0 (state_after done t).
Proof.
  intros Ha. apply (attributed_step t0 t _ Ha); [reflexivity | now left].
Qed.

(** Whatever a suite does with the tester, through its assertions and
    [done], the current file stays the same and every failure recorded
    meanwhile is attributed to it. *)
Lemma run_ops_attributed (H : Host) (os : list op) (t : Tester) :
  attributed t (state_after (run_ops H os) t).
Proof.
  apply (run_ops_preserves H (attributed t) (attributed_assert t)
           (attributed_assertEquals t) (attributed_assertMatch t)).
  - intros t'. apply attributed_done.
  - apply attributed_refl.
Qed.

Lemma assertEquals_results (v e m : value) (t : Tester) :
  testResults (state_after (assertEquals v e m) t)
  = if testEquals v e
    then mkResults (S (passed (testResults t))) (failed (testResults t))
                   (failures (testResults t))
    else mkResults (passed (testResults t)) (S (failed (testResults t)))
                   (failures (testResults t)
                    ++ [mkDetails m (currentTestFile t)]).
Proof.
  unfold state_after, assertEquals, comment, echo, emit, on_fail, incr_passed,
    incr_failed, exporter_addSuccess, exporter_addFailure, bind, ret, gets,
    modify.
  destruct (testEquals v e); reflexivity.
Qed.

(** [assertEquals(v, e, m)] counts a pass exactly when [testEquals(v, e)]
    holds; otherwise it counts a failure, records [{m, current file}] and
    writes, after the status line, the two lines that show what it got
    and what was expected. *)
Theorem assertEquals_counts (v e m : value) (t : Tester) :
  let t' := state_after (assertEquals v e m) t in
  (testEquals v e = true ->
   testResults t'
   = mkResults (S (passed (testResults t))) (failed (testResults t))
               (failures (testResults t))
   /\ exists line, output t' = output t ++ [line])
  /\ (testEquals v e = false ->
      testResults t'
      = mkResults (passed (testResults t)) (S (failed (testResults t)))
                  (failures (testResults t)
                   ++ [mkDetails m (currentTestFile t)])
      /\ exists line,
          output t'
          = output t
            ++ [line;
                Echo (TCat (TStr "# ")
                           (TCat (TStr "   got:      ") (TSerialize v)))
                     (Some COMMENT);
                Echo (TCat (TStr "# ")
                           (TCat (TStr "   expected: ") (TSerialize e)))
                     (Some COMMENT)]).
Proof.
  cbn zeta. run_tester. destruct (testEquals v e); cbn.
  - split; [intros _ | discriminate]. split; [reflexivity|].
    eexists. reflexivity.
  - split; [discriminate | intros _]. split; [reflexivity|].
    eexists. rewrite <- !app_assoc. reflexivity.
Qed.

(** [assertMatch(subject, pattern, m)] counts a pass exactly when
    [pattern.test(subject)] answers true; otherwise it counts a failure
    and records [{m, current file}]. *)
Theorem assertMatch_counts (s : value) (p : RegExp) (m : value) (t : Tester) :
  let r := testResults t in
  let r' := testResults (state_after (assertMatch s p m) t) in
  (re_test p s = true ->
   r' = mkResults (S (passed r)) (failed r) (failures r))
  /\ (re_test p s = false ->
      r' = mkResults (passed r) (S (failed r))
                     (failures r ++ [mkDetails m (currentTestFile t)])).
Proof.
  cbn zeta. run_tester. destruct (re_test p s); cbn; split;
    intros; try discriminate; reflexivity.
Qed.

(** [assertNot(c, m)] counts a pass exactly when [c] is falsy.  It is
    not the opposite of [assert]: a truthy value other than [true] fails
    both. *)
Theorem assertNot_counts (c m : value) (t : Tester) :
  let r := testResults t in
  let r' := testResults (state_after (assertNot c m) t) in
  (truthy c = false -> r' = mkResults (S (passed r)) (failed r) (failures r))
  /\ (truthy c = true ->
      r' = mkResults (passed r) (S (failed r))
                     (failures r ++ [mkDetails m (currentTestFile t)]))
  /\ (truthy c = true -> c <> VBool true ->
      testResults (state_after (assert c m) t) = r').
Proof.
  cbn zeta. unfold assertNot. destruct (truthy c) eqn:Ht; cbn [negb].
  - split; [discriminate|].
    assert (VBool false <> VBool true) as Hne by discriminate.
    destruct (assert_fail_state (VBool false) m t Hne) as (E & _).
    split; [intros _; exact E|].
    intros _ Hc. destruct (assert_fail_state c m t Hc) as (E' & _).
    now rewrite E, E'.
  - split; [intros _; apply assert_pass_state|].
    split; discriminate.
Qed.

Lemma testEquals_string (s : string) (v : value) :
  testEquals (VString s) v = true <-> v = VString s.
Proof.
  split.
  - intros E. pose proof (testEquals_same_tag _ _ E) as Htag.
    destruct v as [ | | | |s'| |c ps]; try discriminate.
    + cbn in E. apply String.eqb_eq in E. now subst.
    + destruct c; discriminate.
  - intros ->. cbn. apply String.eqb_refl.
Qed.

(** [assertType(input, type, m)] counts a pass exactly when [type] is the
    string that [betterTypeOf(input)] yields; any other value, of any
    type, counts a failure. *)
Theorem assertType_passes_iff (input type m : value) (t : Tester) :
  let r := testResults t in
  let r' := testResults (state_after (assertType input type m) t) in
  (passed r' = S (passed r) <-> type = VString (betterTypeOf input))
  /\ (failed r' = S (failed r) <-> type <> VString (betterTypeOf input))
  /\ passed r' + failed r' = S (passed r + failed r).
Proof.
  cbn zeta. unfold assertType.
  pose proof (testEquals_string (betterTypeOf input) type) as Hs.
  rewrite assertEquals_results.
  destruct (testEquals (VString (betterTypeOf input)) type); cbn.
  - assert (type = VString (betterTypeOf input)) as Ht by now apply Hs.
    repeat split; intros; try lia; try assumption. congruence.
  - assert (type <> VString (betterTypeOf input)) as Hne.
    { intros E. apply Hs in E. discriminate. }
    repeat split; intros; try lia; try assumption. congruence.
Qed.

(* ------------------------------------------------------------------ *)
(** ** Suites that go wrong *)

Lemma run_ops_eq (H : Host) (os : list op) (t : Tester) :
  run_ops H os t = (state_after (run_ops H os) t, Ret VUndefined).
Proof.
  revert t. induction os as [|o os IHos]; intros t; [reflexivity|].
  assert (E : run_op H o t = (state_after (run_op H o) t, Ret VUndefined)).
  { destruct o as [c|]; [apply run_call_eq | reflexivity]. }
  unfold state_after. cbn [run_ops]. unfold bind. rewrite E.
  rewrite (IHos (state_after (run_op H o) t)). reflexivity.
Qed.

(** The containment path, [fail(e); done()]: one failure for the current
    file, and the scheduler is free again. *)
Lemma contain_state (e : value) (t : Tester) :
  let t' := state_after (bind (fail e) (fun _ => done)) t in
  testResults t'
  = mkResults (passed (testResults t)) (S (failed (testResults t)))
              (failures (testResults t) ++ [mkDetails e (currentTestFile t)])
  /\ running t' = false
  /\ currentTestFile t' = currentTestFile t
  /\ history t' = history t ++ [HDone]
  /\ bind (fail e) (fun _ => done) t = (t', Ret VUndefined).
Proof. repeat split. Qed.

(** What [exec] does with a file it accepts: the file becomes the current
    one, the script runs, and if it throws the containment path runs. *)
Lemma exec_accepted_state (H : Host) (f : path) (t : Tester) :
  accepted H f = true ->
  let s := getScriptCode H (filtered H f) in
  let t1 := state_after (run_ops H (sync_ops s))
                        (set_currentTestFile (Some (filtered H f)) t) in
  exec H f t
  = (match sync_end s with
     | None => t1
     | Some e => state_after (bind (fail e) (fun _ => done)) t1
     end, Ret VUndefined).
Proof.
  intros Hacc. cbn zeta. unfold accepted in Hacc. unfold exec.
  apply andb_true_iff in Hacc. destruct Hacc as [-> ->]. cbn [negb orb].
  unfold bind at 1. cbn [modify].
  unfold bind at 1. unfold try_catch, run_script.
  unfold bind at 1. rewrite run_ops_eq.
  destruct (sync_end (getScriptCode H (filtered H f))) as [e|]; cbn [finish].
  - unfold throw, processScriptError.
    destruct (contain_state e
                (state_after
                   (run_ops H (sync_ops (getScriptCode H (filtered H f))))
                   (set_currentTestFile (Some (filtered H f)) t)))
      as (_ & _ & _ & _ & E).
    rewrite E. reflexivity.
  - reflexivity.
Qed.

(** A suite that throws while it is evaluated costs exactly one failure:
    [exec] returns all the same, the failure carries what was thrown and
    the file of the suite, and [running] is cleared so that the next
    suite can start. *)
Theorem exec_contains_throw (H : Host) (f : path) (e : value) (t : Tester) :
  accepted H f = true ->
  sync_end (getScriptCode H (filtered H f)) = Some e ->
  let t1 := state_after
              (run_ops H (sync_ops (getScriptCode H (filtered H f))))
              (set_currentTestFile (Some (filtered H f)) t) in
  let t' := state_after (exec H f) t in
  outcome (exec H f) t = Ret VUndefined
  /\ testResults t'
     = mkResults (passed (testResults t1)) (S (failed (testResults t1)))
                 (failures (testResults t1)
                  ++ [mkDetails e (Some (filtered H f))])
  /\ running t' = false
  /\ currentTestFile t' = Some (filtered H f).
Proof.
  intros Hacc He t1 t'.
  pose proof (exec_accepted_state H f t Hacc) as E. cbn zeta in E.
  rewrite He in E. fold t1 in E.
  assert (Ht' : t' = state_after (bind (fail e) (fun _ => done)) t1)
    by (unfold t'; apply (state_after_eq _ _ _ _ E)).
  assert (Hcur : currentTestFile t1 = Some (filtered H f)).
  { destruct (run_ops_attributed H
                (sync_ops (getScriptCode H (filtered H f)))
                (set_currentTestFile (Some (filtered H f)) t)) as [Hc _].
    exact Hc. }
  destruct (contain_state e t1) as (Hr & Hrun & Hc & _).
  split; [apply (outcome_eq _ _ _ _ E)|].
  rewrite Ht'. split; [now rewrite Hr, Hcur|].
  split; [exact Hrun | now rewrite Hc].
Qed.

(** Every failure recorded while [exec] runs an accepted file is
    attributed to that file, whether the script returns or throws. *)
Theorem exec_attributes_failures (H : Host) (f : path) (t : Tester) :
  accepted H f = true ->
  let t' := state_after (exec H f) t in
  currentTestFile t' = Some (filtered H f)
  /\ exists l,
      failures (testResults t') = failures (testResults t) ++ l
      /\ Forall (fun d => file d = Some (filtered H f)) l.
Proof.
  intros Hacc t'.
  pose proof (exec_accepted_state H f t Hacc) as E. cbn zeta in E.
  set (t0 := set_currentTestFile (Some (filtered H f)) t) in *.
  pose proof (run_ops_attributed H
                (sync_ops (getScriptCode H (filtered H f))) t0) as Ha.
  set (t1 := state_after _ t0) in *.
  assert (Ha' : attributed t0 t').
  { unfold t'. rewrite (state_after_eq _ _ _ _ E).
    destruct (sync_end (getScriptCode H (filtered H f))) as [e|]; [|exact Ha].
    destruct (contain_state e t1) as (Hr & _ & Hc & _).
    apply (attributed_step t0 t1 _ Ha Hc). right. exists e. now rewrite Hr. }
  destruct Ha' as (Hc & l & Hl & Hall). split; [exact Hc|].
  exists l. split; [exact Hl | exact Hall].
Qed.

Lemma runTest_rejected_state (H : Host) (f : path) (t : Tester) :
  accepted H f = false ->
  let t' := state_after (runTest H f) t in
  outcome (runTest H f) t = Ret VUndefined
  /\ testResults t'
     = mkResults (passed (testResults t)) (S (failed (testResults t)))
         (failures (testResults t)
          ++ [mkDetails
                (CasperError
                   "Can only exec() files with .js or .coffee extensions")
                (currentTestFile t)])
  /\ running t' = false
  /\ currentTestFile t' = currentTestFile t.
Proof.
  intros Hacc. cbn zeta. unfold outcome, state_after, runTest.
  unfold bind at 1 3 5 7. cbn [modify].
  unfold bind at 1 3 5 7. unfold bar, echo. cbn [modify].
  unfold bind at 1 3 5 7. cbn [modify].
  unfold bind at 1 3 5 7. unfold try_catch.
  match goal with |- context [exec H f ?t0] =>
    destruct (exec_rejected H f t0 Hacc) as [e He]; rewrite He;
    revert He; unfold exec;
    replace (negb (fs_isFile H (filtered H f))
             || negb (isJsFile H (filtered H f))) with true
  end.
  - unfold throw. intros [= <-]. repeat split.
  - unfold accepted in Hacc.
    destruct (fs_isFile H (filtered H f)), (isJsFile H (filtered H f));
      simpl in *; congruence.
Qed.

(** A path that [exec] rejects, handed to [runTest]: the error is caught,
    one failure is recorded with the error as its message, attributed to
    whatever file was current before, and [running] is cleared. *)
Theorem runTest_rejected (H : Host) (f : path) (t : Tester) :
  accepted H f = false ->
  let t' := state_after (runTest H f) t in
  outcome (runTest H f) t = Ret VUndefined
  /\ testResults t'
     = mkResults (passed (testResults t)) (S (failed (testResults t)))
         (failures (testResults t)
          ++ [mkDetails
                (CasperError
                   "Can only exec() files with .js or .coffee extensions")
                (currentTestFile t)])
  /\ running t' = false
  /\ currentTestFile t' = currentTestFile t.
Proof. exact (runTest_rejected_state H f t). Qed.

(* ------------------------------------------------------------------ *)
(** ** Starting and ending a run *)

Lemma collect_output (H : Host) (paths acc : list path) (t : Tester) :
  output (state_after (collect H paths acc) t)
  = output t
    ++ map missing_path_warning (filter (fun p => negb (fs_exists H p)) paths).
Proof.
  revert acc t. induction paths as [|p paths IHp]; intros acc t.
  - cbn. now rewrite app_nil_r.
  - unfold state_after in *. cbn [collect filter]. unfold bind at 1.
    destruct (negb (fs_exists H p)).
    + unfold bar, echo. cbn [modify map].
      destruct (fs_isDirectory H p); [|destruct (fs_isFile H p)];
        rewrite IHp; cbn; now rewrite <- app_assoc.
    + cbn [ret].
      destruct (fs_isDirectory H p); [|destruct (fs_isFile H p)];
        now rewrite IHp.
Qed.

(** [runSuites] warns once about every path that does not exist, in
    argument order, and about nothing else, before it goes on with the
    paths that do. *)
Theorem runSuites_warnings (H : Host) (paths : list path) (t : Tester) :
  resolved H paths <> [] ->
  output (state_after (runSuites H paths) t)
  = output t
    ++ map missing_path_warning (filter (fun p => negb (fs_exists H p)) paths).
Proof.
  intros Hres. unfold runSuites.
  destruct paths as [|p paths]; [now destruct Hres|]. cbn [List.length Nat.eqb].
  destruct (collect_resolved H (p :: paths) [] t) as (t1 & E1 & _).
  cbn [app] in E1.
  rewrite (state_after_bind _ _ t _ _ E1).
  rewrite <- (collect_output H (p :: paths) [] t).
  unfold state_after at 2. rewrite E1. cbn [fst].
  destruct (resolved H (p :: paths)) as [|x xs]; [now destruct Hres|].
  reflexivity.
Qed.

(** The three ways [runSuites] ends: it throws exactly when no path is
    given; it ends the process with status 1 exactly when paths are given
    and none resolves to a file; otherwise it registers the interval over
    the resolved files, starting at the first.  In no case does it touch
    the results or start a suite. *)
Theorem runSuites_outcomes (H : Host) (paths : list path) (t : Tester) :
  match outcome (runSuites H paths) t with
  | Thrown _ => paths = []
  | Exited s => s = 1 /\ paths <> [] /\ resolved H paths = []
  | Ret iv => iv = mkInterval (resolved H paths) 0 /\ resolved H paths <> []
  end
  /\ testResults (state_after (runSuites H paths) t) = testResults t
  /\ running (state_after (runSuites H paths) t) = running t
  /\ history (state_after (runSuites H paths) t) = history t.
Proof.
  unfold outcome, state_after.
  destruct paths as [|p paths].
  - destruct (runSuites_none H t) as [e E]. rewrite E. repeat split.
  - destruct (resolved H (p :: paths)) as [|x xs] eqn:R.
    + destruct (runSuites_no_files H (p :: paths) t) as (t' & E & O & _);
        [discriminate | exact R |].
      rewrite E. destruct O as (_ & Hr & Hres & Hh & _).
      repeat split; auto. discriminate.
    + destruct (runSuites_files H (p :: paths) t) as (t' & E & O);
        [rewrite R; discriminate|].
      rewrite E, R. destruct O as (_ & Hr & Hres & Hh & _).
      repeat split; auto. discriminate.
Qed.


Lemma runTest_unfold (H : Host) (f : path) (t : Tester) :
  runTest H f t
  = bind (try_catch (exec H f) (fun e => bind (fail e) (fun _ => done)))
         (fun _ => ret VUndefined)
         (set_running true
            (add_output (Echo (TFill (TJoin [TStr "Test file: "; TPath f]))
                              (Some INFO_BAR))
                        (add_history (HStart f) t))).
Proof. reflexivity. Qed.

Lemma runTest_eq (H : Host) (f : path) (t : Tester) :
  runTest H f t = (state_after (runTest H f) t, Ret VUndefined).
Proof.
  assert (Hret : returns (bind (try_catch (exec H f)
                                  (fun e => bind (fail e) (fun _ => done)))
                               (fun _ => ret VUndefined))).
  { apply returns_bind; [|intros _; apply returns_ret].
    apply returns_try_catch; [apply safe_exec | intros e; apply returns_contain]. }
  unfold state_after. rewrite runTest_unfold.
  match goal with |- ?m ?t0 = _ =>
    destruct (Hret t0) as (t2 & a & E2 & _) end.
  assert (Ha : a = VUndefined).
  { revert E2. unfold bind at 1.
    destruct (try_catch _ _ _) as [t3 [v|x|s]]; cbn [ret];
      intros [=]; congruence. }
  rewrite E2, Ha. reflexivity.
Qed.

Lemma step_exited (H : Host) (p : Process) (e : event) :
  exit_status p <> None -> step H p e = p.
Proof.
  intros Hx. unfold step. destruct (exit_status p); [reflexivity | congruence].
Qed.

(** The interval firing, case by case. *)
Lemma tick_idle (H : Host) (p : Process) :
  exit_status p = None -> interval p = None -> step H p ETick = p.
Proof. intros Hx Hi. unfold step. now rewrite Hx, Hi. Qed.

Lemma tick_starts (H : Host) (p : Process) (iv : Interval) :
  exit_status p = None -> interval p = Some iv ->
  running (tester p) = false ->
  current iv <> List.length (testFiles iv) ->
  step H p ETick
  = mkProcess
      (state_after (runTest H (nth (current iv) (testFiles iv) [])) (tester p))
      (Some (mkInterval (testFiles iv) (S (current iv)))) None.
Proof.
  intros Hx Hi Hr Hc. unfold step. rewrite Hx, Hi.
  unfold interval_callback. unfold bind at 1. cbn [gets]. rewrite Hr.
  apply Nat.eqb_neq in Hc. rewrite Hc.
  unfold bind. now rewrite runTest_eq.
Qed.

Lemma tick_finishes (H : Host) (p : Process) (iv : Interval) :
  exit_status p = None -> interval p = Some iv ->
  running (tester p) = false ->
  current iv = List.length (testFiles iv) ->
  exists t', step H p ETick = mkProcess t' (Some iv) (Some 0)
             /\ only_output (tester p) t'.
Proof.
  intros Hx Hi Hr Hc. unfold step. rewrite Hx, Hi.
  unfold interval_callback. unfold bind at 1. cbn [gets]. rewrite Hr.
  apply Nat.eqb_eq in Hc. rewrite Hc.
  destruct (renderResults_exits H None None (tester p)) as (t' & E & O).
  unfold bind. rewrite E. exists t'. split; [reflexivity | exact O].
Qed.

Lemma async_step (H : Host) (p : Process) (ops : list op) :
  exit_status p = None ->
  step H p (EAsync ops)
  = mkProcess (state_after (run_ops H ops) (tester p)) (interval p) None.
Proof.
  intros Hx. unfold step. rewrite Hx. now rewrite run_ops_eq.
Qed.

Lemma step_error_step (H : Host) (p : Process) (e : value) :
  exit_status p = None ->
  step H p (EStepError e)
  = mkProcess (state_after (bind (fail e) (fun _ => done)) (tester p))
              (interval p) None.
Proof.
  intros Hx. unfold step. rewrite Hx. unfold on_step_error.
  destruct (contain_state e (tester p)) as (_ & _ & _ & _ & E).
  now rewrite E.
Qed.

(** The three things a step can do. *)
Lemma step_cases (H : Host) (p : Process) (e : event) :
  step H p e = p
  \/ (exit_status p = None /\ exit_status (step H p e) = None
      /\ (interval (step H p e) = None <-> interval p = None))
  \/ (exit_status p = None /\ interval p <> None
      /\ interval (step H p e) <> None
      /\ exit_status (step H p e) = Some 0
      /\ running (tester (step H p e)) = false).
Proof.
  destruct (exit_status p) as [s0|] eqn:Hx.
  - left. apply step_exited. rewrite Hx. discriminate.
  - destruct e as [|ops|err].
    + destruct (interval p) as [iv|] eqn:Hiv; [|left; now apply tick_idle].
      destruct (running (tester p)) eqn:Hr.
      * left. now apply tick_while_running.
      * destruct (Nat.eq_dec (current iv) (List.length (testFiles iv)))
          as [Hc | Hc].
        -- destruct (tick_finishes H p iv Hx Hiv Hr Hc)
             as (t' & E & (_ & Hr' & _)).
           right; right. rewrite E. cbn.
           repeat split; try easy. congruence.
        -- right; left. rewrite (tick_starts H p iv Hx Hiv Hr Hc). cbn.
           repeat split; easy.
    + right; left. rewrite (async_step H p ops Hx). cbn. repeat split; easy.
    + right; left. rewrite (step_error_step H p err Hx). cbn.
      repeat split; easy.
Qed.

Lemma ends_step (H : Host) (paths files : list path) (p : Process) (e : event) :
  ends paths files p -> ends paths files (step H p e).
Proof.
  intros (Hp & Hnone & Hsome & Hex).
  destruct (step_cases H p e)
    as [E | [(Hx & Hx' & Hi) | (Hx & Hi & Hi' & Hx' & Hr)]].
  - rewrite E. exact (conj Hp (conj Hnone (conj Hsome Hex))).
  - split; [|split; [|split]].
    + intros Hpaths. split; [exact Hx' | apply Hi; now apply Hp].
    + intros Hn. apply Hnone. now apply Hi.
    + intros Hn. apply Hsome. intros Hn'. apply Hn. now apply Hi.
    + intros s Hs. congruence.
  - split; [|split; [|split]].
    + intros Hpaths. destruct (Hp Hpaths) as [_ Hn]. contradiction.
    + intros Hn. contradiction.
    + intros _. now apply Hsome.
    + intros s Hs. right. split; [exact Hi'|]. split; [congruence | exact Hr].
Qed.

Lemma ends_run (H : Host) (paths files : list path) (p : Process)
      (es : list event) :
  ends paths files p -> ends paths files (run H p es).
Proof.
  revert p. induction es as [|e es IHes]; intros p Hp; [exact Hp|].
  unfold run in *. cbn [fold_left]. apply IHes. now apply ends_step.
Qed.

Lemma ends_launch (H : Host) (t : Tester) (paths : list path) :
  ends paths (resolved H paths) (launch H t paths).
Proof.
  unfold launch. destruct paths as [|p paths].
  - destruct (runSuites_none H t) as [e E]. rewrite E. cbn.
    split; [|split; [|split]]; try easy.
  - destruct (resolved H (p :: paths)) as [|x xs] eqn:R.
    + destruct (runSuites_no_files H (p :: paths) t) as (t' & E & _);
        [discriminate | exact R |].
      rewrite E. cbn. split; [|split; [|split]]; try easy.
      intros s [= <-]. left. split; reflexivity.
    + destruct (runSuites_files H (p :: paths) t) as (t' & E & _);
        [rewrite R; discriminate|].
      rewrite E, R. cbn. split; [|split; [|split]]; easy.
Qed.

(** A run ends with status 1 exactly when paths were given and nothing
    was found to run, and with status 0 once every resolved file has been
    started and the last one declared done: whether assertions failed
    plays no part in the exit status. *)
Theorem exit_status_values (H : Host) (options : Options) (paths : list path)
        (es : list event) (s : nat) :
  let p := run H (launch H (create options) paths) es in
  exit_status p = Some s ->
  (s = 1 /\ paths <> [] /\ resolved H paths = []
   /\ started (history (tester p)) = [])
  \/ (s = 0 /\ resolved H paths <> []
      /\ started (history (tester p)) = resolved H paths
      /\ running (tester p) = false).
Proof.
  cbn zeta. intros Hs.
  pose proof (ends_run H paths _ _ es (ends_launch H (create options) paths))
    as (Hp & Hnone & Hsome & Hex).
  pose proof (run_inv H (resolved H paths) _ es (launch_inv H options paths))
    as [_ Hi].
  assert (Hpaths : paths <> []).
  { intros E. destruct (Hp E) as [Hx _]. congruence. }
  destruct (Hex s Hs) as [[Hn ->] | (Hn & -> & Hr)].
  - left. rewrite Hn in Hi.
    split; [reflexivity | split; [exact Hpaths | split; [now apply Hnone | exact Hi]]].
  - right. pose proof (Hsome Hn) as Hne.
    destruct (interval _) as [iv|]; [|now destruct Hn].
    destruct Hi as (Hf & Hc & Hst & Hfin).
    split; [reflexivity | split; [exact Hne | split; [|exact Hr]]].
    rewrite Hst, (Hfin 0 Hs). apply firstn_all.
Qed.

Lemma failed_grows (H : Host) (os : list op) (t : Tester) :
  failed (testResults t) <= failed (testResults (state_after (run_ops H os) t)).
Proof.
  apply (run_ops_preserves H
           (fun t' => failed (testResults t) <= failed (testResults t'))).
  - intros c m t' Ht'. destruct (assert_asserted c m t') as (t2 & E & A).
    rewrite (state_after_eq _ _ _ _ E).
    destruct A as (_ & _ & (l & _ & Hl) & _). lia.
  - intros v e m t' Ht'. destruct (assertEquals_asserted v e m t') as (t2 & E & A).
    rewrite (state_after_eq _ _ _ _ E).
    destruct A as (_ & _ & (l & _ & Hl) & _). lia.
  - intros s p m t' Ht'. destruct (assertMatch_asserted s p m t') as (t2 & E & A).
    rewrite (state_after_eq _ _ _ _ E).
    destruct A as (_ & _ & (l & _ & Hl) & _). lia.
  - intros t' Ht'. exact Ht'.
  - lia.
Qed.

Lemma runTest_throwing_state (H : Host) (f : path) (e : value) (t : Tester) :
  accepted H f = true ->
  sync_end (getScriptCode H (filtered H f)) = Some e ->
  running (state_after (runTest H f) t) = false
  /\ failed (testResults t)
     < failed (testResults (state_after (runTest H f) t)).
Proof.
  intros Hacc He.
  set (t0 := set_running true
               (add_output (Echo (TFill (TJoin [TStr "Test file: "; TPath f]))
                                 (Some INFO_BAR))
                           (add_history (HStart f) t))).
  pose proof (exec_accepted_state H f t0 Hacc) as E. cbn zeta in E.
  rewrite He in E.
  set (t1 := state_after _ (set_currentTestFile _ t0)) in E.
  assert (Ert : runTest H f t
                = (state_after (bind (fail e) (fun _ => done)) t1,
                   Ret VUndefined)).
  { rewrite runTest_unfold. fold t0. unfold bind at 1, try_catch.
    rewrite E. reflexivity. }
  rewrite (state_after_eq _ _ _ _ Ert).
  destruct (contain_state e t1) as (Hr & Hrun & _).
  split; [exact Hrun|]. rewrite Hr. cbn [failed].
  pose proof (failed_grows H
                (sync_ops (getScriptCode H (filtered H f)))
                (set_currentTestFile (Some (filtered H f)) t0)) as Hle.
  fold t1 in Hle. cbn in Hle. lia.
Qed.

(* ------------------------------------------------------------------ *)
(** ** Progress and blocking *)

Lemma run_cons (H : Host) (p : Process) (e : event) (es : list event) :
  run H p (e :: es) = run H (step H p e) es.
Proof. reflexivity. Qed.

Lemma rounds_complete (H : Host) (k : nat) :
  forall p iv,
    exit_status p = None -> interval p = Some iv ->
    running (tester p) = false ->
    current iv + k = List.length (testFiles iv) ->
    exit_status (run H p (rounds k ++ [ETick])) = Some 0.
Proof.
  induction k as [|k IHk]; intros p iv Hx Hi Hr Hc.
  - cbn [rounds app]. rewrite run_cons.
    destruct (tick_finishes H p iv Hx Hi Hr) as (t' & E & _); [lia|].
    rewrite E. reflexivity.
  - cbn [rounds app]. rewrite !run_cons.
    rewrite (tick_starts H p iv Hx Hi Hr) by lia.
    rewrite async_step by reflexivity. cbn [tester interval].
    apply (IHk _ (mkInterval (testFiles iv) (S (current iv))));
      try reflexivity.
    cbn. lia.
Qed.

(** When every suite is declared done after it was started, the run goes
    through all the resolved files, in order, and ends with status 0. *)
Theorem all_suites_run (H : Host) (options : Options) (paths : list path) :
  resolved H paths <> [] ->
  let p := run H (launch H (create options) paths)
               (rounds (List.length (resolved H paths)) ++ [ETick]) in
  exit_status p = Some 0
  /\ started (history (tester p)) = resolved H paths.
Proof.
  intros Hne. cbn zeta.
  assert (Hx : exit_status
                 (run H (launch H (create options) paths)
                      (rounds (List.length (resolved H paths)) ++ [ETick]))
               = Some 0).
  { destruct (runSuites_files H paths (create options) Hne)
      as (t' & E & (_ & Hr & _)).
    unfold launch. rewrite E.
    apply (rounds_complete H _ _ (mkInterval (resolved H paths) 0));
      try reflexivity. exact Hr. }
  split; [exact Hx|].
  pose proof (run_inv H (resolved H paths) _
                (rounds (List.length (resolved H paths)) ++ [ETick])
                (launch_inv H options paths)) as [_ Hi].
  pose proof (ends_run H paths _ _
                (rounds (List.length (resolved H paths)) ++ [ETick])
                (ends_launch H (create options) paths))
    as (_ & Hnone & _).
  destruct (interval _) as [iv|]; [|now destruct Hne; apply Hnone].
  destruct Hi as (_ & _ & Hst & Hfin).
  rewrite Hst, (Hfin 0 Hx). apply firstn_all.
Qed.

Lemma quiet_ops_frame (H : Host) (ops : list op) (t : Tester) :
  forallb quiet_op ops = true ->
  running (state_after (run_ops H ops) t) = running t
  /\ history (state_after (run_ops H ops) t) = history t.
Proof.
  revert t. induction ops as [|o ops IHops]; intros t Hq; [now split|].
  cbn [forallb] in Hq. apply andb_true_iff in Hq. destruct Hq as [Ho Hq].
  destruct o as [c|]; [|discriminate].
  destruct (run_call_asserted H c t) as (t1 & E1 & (_ & _ & _ & Hr & Hh & _)).
  cbn [run_ops run_op]. rewrite (state_after_bind _ _ t _ _ E1).
  destruct (IHops t1 Hq) as [Hr' Hh']. split; congruence.
Qed.

(** Nothing but [done] (or a step error) lets the run go on: while a
    suite is running, however often the interval fires and whatever
    assertions asynchronous code makes, no further suite starts and the
    run does not end. *)
Theorem hung_suite_blocks (H : Host) (p : Process) (es : list event) :
  exit_status p = None -> running (tester p) = true ->
  forallb quiet_event es = true ->
  let p' := run H p es in
  running (tester p') = true
  /\ history (tester p') = history (tester p)
  /\ interval p' = interval p
  /\ exit_status p' = None.
Proof.
  cbn zeta. revert p. induction es as [|e es IHes]; intros p Hx Hr Hq;
    [repeat split; assumption|].
  cbn [forallb] in Hq. apply andb_true_iff in Hq. destruct Hq as [He Hq].
  rewrite run_cons. destruct e as [|ops|err]; [| |discriminate].
  - rewrite (tick_while_running H p Hr). now apply IHes.
  - rewrite (async_step H p ops Hx).
    destruct (quiet_ops_frame H ops (tester p) He) as [Hr' Hh'].
    destruct (IHes (mkProcess (state_after (run_ops H ops) (tester p))
                              (interval p) None))
      as (A & B & C & D); [reflexivity | cbn; congruence | exact Hq |].
    cbn in *. repeat split; congruence.
Qed.

(** A step error reported by the driver costs one failure, attributed to
    the current file, and frees the scheduler; the interval and its
    position are not touched. *)
Theorem step_error_frees_scheduler (H : Host) (p : Process) (e : value) :
  exit_status p = None ->
  let t := tester p in
  let p' := step H p (EStepError e) in
  testResults (tester p')
  = mkResults (passed (testResults t)) (S (failed (testResults t)))
              (failures (testResults t) ++ [mkDetails e (currentTestFile t)])
  /\ running (tester p') = false
  /\ interval p' = interval p
  /\ exit_status p' = None.
Proof.
  intros Hx. cbn zeta. rewrite (step_error_step H p e Hx). cbn [tester interval exit_status].
  destruct (contain_state e (tester p)) as (Hr & Hrun & _).
  repeat split; assumption.
Qed.



(** A broken suite does not hold the run: when the file the interval
    starts is rejected by [exec], or its script throws while it is
    evaluated, the tick leaves [running] cleared, at least one more
    failure on the books and the interval on the next file. *)
Theorem broken_suite_does_not_block (H : Host) (p : Process) (iv : Interval) :
  exit_status p = None -> interval p = Some iv ->
  running (tester p) = false ->
  current iv < List.length (testFiles iv) ->
  let f := nth (current iv) (testFiles iv) [] in
  accepted H f = false
  \/ (accepted H f = true
      /\ sync_end (getScriptCode H (filtered H f)) <> None) ->
  let p' := step H p ETick in
  running (tester p') = false
  /\ failed (testResults (tester p)) < failed (testResults (tester p'))
  /\ interval p' = Some (mkInterval (testFiles iv) (S (current iv)))
  /\ exit_status p' = None.
Proof.
  intros Hx Hi Hr Hc f Hbroken. cbn zeta.
  rewrite (tick_starts H p iv Hx Hi Hr) by lia.
  cbn [tester interval exit_status]. fold f.
  split; [|split; [|split; reflexivity]].
  - destruct Hbroken as [Hrej | [Hacc Hthrow]].
    + now destruct (runTest_rejected_state H f (tester p) Hrej) as (_ & _ & Hrun & _).
    + destruct (sync_end (getScriptCode H (filtered H f))) as [e|] eqn:He;
        [|now destruct Hthrow].
      now destruct (runTest_throwing_state H f e (tester p) Hacc He)
        as (Hrun & _).
  - destruct Hbroken as [Hrej | [Hacc Hthrow]].
    + destruct (runTest_rejected_state H f (tester p) Hrej) as (_ & Hres & _).
      rewrite Hres. cbn. lia.
    + destruct (sync_end (getScriptCode H (filtered H f))) as [e|] eqn:He;
        [|now destruct Hthrow].
      destruct (runTest_throwing_state H f e (tester p) Hacc He)
        as (_ & Hlt). exact Hlt.
Qed.

(* ------------------------------------------------------------------ *)
(** ** The report *)

Lemma add_lines_app (ls ls' : list out_line) (t : Tester) :
  add_lines (ls ++ ls') t = add_lines ls' (add_lines ls t).
Proof. unfold add_lines. apply fold_left_app. Qed.

Lemma add_lines_frame (ls : list out_line) (t : Tester) :
  output (add_lines ls t) = output t ++ ls
  /\ currentTestFile (add_lines ls t) = currentTestFile t
  /\ running (add_lines ls t) = running t
  /\ testResults (add_lines ls t) = testResults t
  /\ history (add_lines ls t) = history t
  /\ save (add_lines ls t) = save t
  /\ exported (add_lines ls t) = exported t
  /\ emitted (add_lines ls t) = emitted t.
Proof.
  revert t. induction ls as [|l ls IHls]; intros t.
  - cbn. rewrite app_nil_r. repeat split.
  - change (add_lines (l :: ls) t) with (add_lines ls (add_output l t)).
    destruct (IHls (add_output l t)) as (A & B & C & D & E & F & G & I).
    rewrite A, B, C, D, E, F, G, I. cbn. rewrite <- app_assoc.
    repeat split.
Qed.

Lemma render_each_lines (fs : list details) (t : Tester) :
  render_each fs t = (add_lines (flat_map failure_lines fs) t, Ret tt).
Proof.
  revert t. induction fs as [|d fs IHfs]; intros t; [reflexivity|].
  cbn [render_each flat_map]. unfold bind at 1, echo at 1. cbn [modify].
  unfold bind at 1, echo at 1. cbn [modify].
  rewrite IHfs. reflexivity.
Qed.

Lemma failure_lines_length (fs : list details) :
  List.length (flat_map failure_lines fs) = 2 * List.length fs.
Proof.
  induction fs as [|d fs IH]; [reflexivity|].
  cbn [flat_map List.length app failure_lines]. rewrite IH. lia.
Qed.

Lemma renderFailureDetails_eq (fs : list details) (t : Tester) :
  renderFailureDetails fs t = (add_lines (details_lines fs) t, Ret tt).
Proof.
  destruct fs as [|d fs]; [reflexivity|].
  unfold renderFailureDetails, details_lines. cbn [List.length Nat.eqb].
  unfold bind, echo. cbn [modify]. rewrite render_each_lines. reflexivity.
Qed.

(** [renderFailureDetails] writes nothing for an empty list; otherwise
    it writes a heading and then, for every failure in the order of the
    list, the line naming its file and the line showing its message:
    [1 + 2n] lines for [n] failures.  It changes nothing else. *)
Theorem renderFailureDetails_lines (fs : list details) (t : Tester) :
  let t' := state_after (renderFailureDetails fs) t in
  output t'
  = output t
    ++ match fs with
       | [] => []
       | _ => details_header (List.length fs) :: flat_map failure_lines fs
       end
  /\ List.length (output t')
     = List.length (output t)
       + match fs with [] => 0 | _ => 1 + 2 * List.length fs end
  /\ testResults t' = testResults t
  /\ running t' = running t
  /\ outcome (renderFailureDetails fs) t = Ret tt.
Proof.
  cbn zeta.
  rewrite (state_after_eq _ _ _ _ (renderFailureDetails_eq fs t)),
    (outcome_eq _ _ _ _ (renderFailureDetails_eq fs t)).
  destruct (add_lines_frame (details_lines fs) t) as (A & _ & C & D & _).
  rewrite A, C, D. repeat split.
  rewrite length_app. f_equal. destruct fs as [|d fs]; [reflexivity|].
  unfold details_lines. cbn [List.length]. rewrite failure_lines_length.
  cbn [List.length]. lia.
Qed.

(** [renderResults] first writes the banner: in the failure style when no
    test ran or when one failed, in the success style otherwise, with the
    totals; when tests failed the details of the recorded failures
    follow, and then at most one line about the log.  It never changes
    the results, and it ends the process exactly when [exit] is [true],
    with the given status or 0, also after a failed write of the log. *)
Theorem renderResults_report (H : Host) (exit : value) (status : option nat)
        (sv : option path) (t : Tester) :
  let r := testResults t in
  let t' := state_after (renderResults H exit status sv) t in
  testResults t' = r
  /\ running t' = running t
  /\ outcome (renderResults H exit status sv) t
     = (if strict_equals exit (VBool true)
        then Exited (match status with Some s => s | None => 0 end)
        else Ret VUndefined)
  /\ exists rest,
      output t'
      = output t
        ++ summary_banner (PASS t) (FAIL t) r
        :: (if Nat.ltb 0 (failed r) then details_lines (failures r) else [])
        ++ rest
      /\ (sv = None -> save t = None -> rest = [])
      /\ List.length rest <= 1.
Proof.
  cbn zeta.
  set (log := match match sv with Some s => Some s | None => save t end with
              | Some s =>
                  [match write_error H s with
                   | None => Echo (TJoin [TStr "Result log stored in "; TPath s])
                                  (Some INFO)
                   | Some e => Echo (TJoin [TStr "Unable to write results to ";
                                            TPath s; TStr ": "; TVal e])
                                    (Some ERROR)
                   end]
              | None => []
              end).
  set (det := if Nat.ltb 0 (failed (testResults t))
              then details_lines (failures (testResults t)) else []).
  assert (Edet : forall t0,
            (if Nat.ltb 0 (failed (testResults t))
             then renderFailureDetails (failures (testResults t))
             else ret tt) t0 = (add_lines det t0, Ret tt)).
  { intros t0. unfold det. destruct (Nat.ltb 0 (failed (testResults t)));
      [apply renderFailureDetails_eq | reflexivity]. }
  assert (Elog : forall t0,
            match match sv with Some s => Some s | None => save t end with
            | Some s =>
                match write_error H s with
                | None => echo (TJoin [TStr "Result log stored in "; TPath s])
                               (Some INFO)
                | Some e => echo (TJoin [TStr "Unable to write results to ";
                                         TPath s; TStr ": "; TVal e])
                                 (Some ERROR)
                end
            | None => ret tt
            end t0 = (add_lines log t0, Ret tt)).
  { intros t0. unfold log.
    destruct (match sv with Some s => Some s | None => save t end) as [s|];
      [destruct (write_error H s)|]; reflexivity. }
  assert (E : renderResults H exit status sv t
              = (add_lines (summary_banner (PASS t) (FAIL t) (testResults t)
                            :: det ++ log) t,
                 if strict_equals exit (VBool true)
                 then Exited (match status with Some s => s | None => 0 end)
                 else Ret VUndefined)).
  { change (add_lines (summary_banner (PASS t) (FAIL t) (testResults t)
                       :: det ++ log) t)
      with (add_lines (det ++ log)
              (add_output (summary_banner (PASS t) (FAIL t) (testResults t)) t)).
    rewrite add_lines_app.
    unfold renderResults. unfold bind at 1 2 3 4. cbn [gets].
    unfold summary_banner, colorize.
    destruct (Nat.eqb (passed (testResults t) + failed (testResults t)) 0);
      [|destruct (Nat.ltb 0 (failed (testResults t))) eqn:Hf];
      unfold bind at 1, echo at 1; cbn [modify];
      unfold bind at 1; rewrite ?Hf in Edet; rewrite Edet;
      unfold bind at 1; rewrite Elog;
      destruct (strict_equals exit (VBool true)); reflexivity. }
  rewrite (state_after_eq _ _ _ _ E), (outcome_eq _ _ _ _ E).
  destruct (add_lines_frame
              (summary_banner (PASS t) (FAIL t) (testResults t) :: det ++ log) t)
    as (A & _ & C & D & _).
  rewrite A, C, D.
  split; [reflexivity | split; [reflexivity | split; [reflexivity|]]].
  exists log. split; [reflexivity | split].
  - intros -> Hs. unfold log. now rewrite Hs.
  - unfold log. destruct (match sv with Some s => Some s | None => save t end);
      cbn; lia.
Qed.

(* ------------------------------------------------------------------ *)
(** ** What discovery finds *)

Lemma wf_tree_dir (es : list (string * fsnode)) :
  wf_tree (FsDir es) = true <->
  wf_entries es = true /\ Forall (fun e => wf_tree (snd e) = true) es.
Proof.
  cbn [wf_tree]. rewrite andb_true_iff. apply and_iff_compat_l.
  induction es as [|[name child] es IHes].
  - split; [constructor | reflexivity].
  - rewrite andb_true_iff, IHes. split.
    + intros [Hc Hes]. constructor; assumption.
    + intros Hall. inversion Hall; subst. split; assumption.
Qed.

Lemma wf_entries_facts (es : list (string * fsnode)) :
  wf_entries es = true ->
  NoDup (map fst es) /\ forall name, In name (map fst es) -> not_dot name = true.
Proof.
  unfold wf_entries. rewrite andb_true_iff, nodupb_NoDup, forallb_forall.
  tauto.
Qed.

Lemma find_entry_In (name : string) (child : fsnode)
      (es : list (string * fsnode)) :
  find_entry name es = Some child -> In (name, child) es.
Proof.
  induction es as [|[n c] es IHes]; [discriminate|].
  cbn [find_entry]. destruct (String.eqb name n) eqn:E.
  - apply String.eqb_eq in E. intros [= ->]. subst. now left.
  - intros Hf. right. auto.
Qed.

Lemma find_entry_listed (name : string) (es : list (string * fsnode)) :
  In name (map fst es) -> exists child, find_entry name es = Some child.
Proof.
  induction es as [|[n c] es IHes]; [intros []|].
  cbn [find_entry map fst In]. destruct (String.eqb name n) eqn:E.
  - intros _. now exists c.
  - apply String.eqb_neq in E. intros [Hn | Hin]; [congruence | auto].
Qed.

Lemma resolve_app_gen (n : fsnode) (a b : path) :
  resolve n (a ++ b)
  = match resolve n a with
    | Some m => resolve m b
    | None => None
    end.
Proof.
  revert n. induction a as [|c a IHa]; intros n; [reflexivity|].
  cbn [app resolve]. destruct n as [code|es]; [reflexivity|].
  destruct (find_entry c es) as [child|]; [apply IHa | reflexivity].
Qed.

Lemma wf_resolve (n : fsnode) (p : path) (m : fsnode) :
  wf_tree n = true -> resolve n p = Some m -> wf_tree m = true.
Proof.
  revert n. induction p as [|c p IHp]; intros n Hwf Hres.
  - cbn in Hres. congruence.
  - cbn [resolve] in Hres. destruct n as [code|es]; [discriminate|].
    destruct (find_entry c es) as [child|] eqn:Hf; [|discriminate].
    apply wf_tree_dir in Hwf. destruct Hwf as [_ Hall].
    rewrite Forall_forall in Hall.
    apply (IHp child); [|exact Hres].
    apply (Hall (c, child)). now apply find_entry_In.
Qed.

Lemma isJsFile_entry (H : Host) (dir : path) (name : string) :
  isJsFile H (dir ++ [name]) = js_name H name.
Proof.
  rewrite isJsFile_app by discriminate. reflexivity.
Qed.

(** [findTestFiles] on a directory, in closed form. *)
Lemma findTestFiles_at_closed (H : Host) (dir : path)
      (es : list (string * fsnode)) :
  forallb not_dot (map fst es) = true ->
  findTestFiles_at H dir (FsDir es)
  = filter (isJsFile H) (map (fun name => dir ++ [name]) (map fst es))
    ++ flat_map (sub_results H dir) es.
Proof.
  intros Hdots.
  rewrite findTestFiles_at_dir, forEach_entries_flat,
    (entries_listed dir es Hdots), filter_app.
  f_equal.
  - apply filter_ext_in. intros p Hp.
    apply isJsFile_app. apply in_map_iff in Hp.
    destruct Hp as [name [<- _]]. now destruct dir.
  - apply filter_all. intros p Hp. apply in_flat_map in Hp.
    destruct Hp as [[name child] [He Hp]].
    unfold sub_results in Hp. cbn [fst snd] in Hp.
    destruct (not_dot name); [|destruct Hp].
    destruct child as [code|es']; [destruct Hp|].
    apply found_are_scripts in Hp. destruct Hp as [Hne Hjs].
    now rewrite isJsFile_app.
Qed.

Lemma last_cons_nonempty (c : string) (q : path) (d : string) :
  q <> [] -> last (c :: q) d = last q d.
Proof. intros Hq. destruct q; [congruence | reflexivity]. Qed.

(** What [findTestFiles] finds beneath a node: the paths that lead from
    it to an entry with a script extension. *)
Lemma found_iff (H : Host) (n : fsnode) :
  wf_tree n = true ->
  forall dir p,
    In p (findTestFiles_at H dir n) <->
    exists q, q <> [] /\ p = dir ++ q
              /\ resolve n q <> None /\ js_name H (last q "") = true.
Proof.
  induction n as [code|es IH] using fsnode_ind2; intros Hwf dir p.
  - split; [intros []|]. intros (q & Hq & _ & Hres & _).
    destruct q; [congruence | now destruct Hres].
  - apply wf_tree_dir in Hwf. destruct Hwf as [Hwfe Hall].
    destruct (wf_entries_facts es Hwfe) as [Hnd Hdots].
    assert (Hdots' : forallb not_dot (map fst es) = true)
      by (apply forallb_forall; exact Hdots).
    rewrite Forall_forall in IH, Hall.
    rewrite (findTestFiles_at_closed H dir es Hdots'), in_app_iff. split.
    + intros [Hin | Hin].
      * apply filter_In in Hin. destruct Hin as [Hin Hjs].
        apply in_map_iff in Hin. destruct Hin as [name [<- Hname]].
        exists [name]. rewrite isJsFile_entry in Hjs.
        split; [discriminate | split; [reflexivity | split; [|exact Hjs]]].
        destruct (find_entry_listed name es Hname) as [child Hf].
        cbn [resolve]. rewrite Hf. discriminate.
      * apply in_flat_map in Hin. destruct Hin as [[name child] [He Hp]].
        unfold sub_results in Hp. cbn [fst snd] in Hp.
        destruct (not_dot name); [|destruct Hp].
        destruct child as [code|es']; [destruct Hp|].
        apply (IH (name, FsDir es') He (Hall (name, FsDir es') He)) in Hp.
        destruct Hp as (q & Hq & -> & Hres & Hjs).
        exists (name :: q).
        split; [discriminate | split; [now rewrite <- app_assoc | split]].
        -- cbn [resolve]. now rewrite (find_entry_NoDup name _ es Hnd He).
        -- now rewrite last_cons_nonempty.
    + intros ([|name q] & Hq & -> & Hres & Hjs); [congruence|].
      cbn [resolve] in Hres.
      destruct (find_entry name es) as [child|] eqn:Hf; [|now destruct Hres].
      pose proof (find_entry_In name child es Hf) as He.
      assert (Hname : In name (map fst es)).
      { apply in_map_iff. exists (name, child). split; [reflexivity | exact He]. }
      destruct q as [|c q].
      * left. apply filter_In. split.
        -- apply in_map_iff. exists name. split; [reflexivity | exact Hname].
        -- rewrite isJsFile_entry. exact Hjs.
      * right. apply in_flat_map. exists (name, child). split; [exact He|].
        unfold sub_results. cbn [fst snd]. rewrite (Hdots name Hname).
        destruct child as [code|es']; [now destruct Hres|].
        apply (IH (name, FsDir es') He (Hall (name, FsDir es') He)).
        exists (c :: q).
        split; [discriminate | split; [now rewrite <- app_assoc | split]].
        -- exact Hres.
        -- now rewrite last_cons_nonempty in Hjs.
Qed.

(** On a well-formed file system, [findTestFiles(dir)] is empty when
    [dir] is not a directory; otherwise it holds exactly the paths
    strictly beneath [dir] that exist and carry a script extension,
    directories with such a name included. *)
Theorem findTestFiles_finds (H : Host) (dir p : path) :
  wf_tree (root H) = true ->
  (fs_isDirectory H dir = false -> findTestFiles H dir = [])
  /\ (fs_isDirectory H dir = true ->
      (In p (findTestFiles H dir) <->
       exists q, q <> [] /\ p = dir ++ q
                 /\ fs_exists H p = true /\ isJsFile H p = true)).
Proof.
  intros Hwf. unfold fs_isDirectory, findTestFiles, fs_exists.
  destruct (resolve (root H) dir) as [[code|es]|] eqn:Hres;
    (split; [intros Hd | intros Hd]); try discriminate; try reflexivity.
  rewrite (found_iff H (FsDir es) (wf_resolve _ _ _ Hwf Hres) dir p).
  split; intros (q & Hq & -> & Hex & Hjs); exists q;
    (split; [exact Hq | split; [reflexivity|]]).
  - rewrite resolve_app_gen, Hres.
    split; [now destruct (resolve (FsDir es) q)|].
    rewrite isJsFile_app by exact Hq. unfold isJsFile.
    destruct q; [congruence | exact Hjs].
  - rewrite resolve_app_gen, Hres in Hex.
    split; [now destruct (resolve (FsDir es) q)|].
    rewrite isJsFile_app in Hjs by exact Hq. unfold isJsFile in Hjs.
    destruct q; [congruence | exact Hjs].
Qed.

Lemma dfs_in_place_dir (H : Host) (dir : path) (es : list (string * fsnode)) :
  dfs_in_place H dir (FsDir es) = flat_map (dfs_entry H dir) es.
Proof.
  cbn [dfs_in_place].
  induction es as [|[name child] es IHes]; [reflexivity|].
  cbn [flat_map]. rewrite <- IHes. unfold dfs_entry. cbn [fst snd].
  now rewrite <- app_assoc.
Qed.

Lemma found_permutes (H : Host) (n : fsnode) :
  wf_tree n = true ->
  forall dir, Permutation (findTestFiles_at H dir n) (dfs_in_place H dir n).
Proof.
  induction n as [code|es IH] using fsnode_ind2; intros Hwf dir;
    [constructor|].
  apply wf_tree_dir in Hwf. destruct Hwf as [Hwfe Hall].
  destruct (wf_entries_facts es Hwfe) as [_ Hdots].
  assert (Hdots' : forallb not_dot (map fst es) = true)
    by (apply forallb_forall; exact Hdots).
  rewrite (findTestFiles_at_closed H dir es Hdots'), dfs_in_place_dir.
  clear Hwfe Hdots'.
  induction es as [|[name child] es IHes]; [constructor|].
  inversion IH as [|? ? IHc IHrest]; subst.
  inversion Hall as [|? ? Hc Hrest]; subst. cbn [snd] in IHc, Hc.
  assert (Hname : not_dot name = true) by (apply Hdots; now left).
  specialize (IHes IHrest Hrest (fun n Hn => Hdots n (or_intror Hn))).
  cbn [map fst filter flat_map]. rewrite isJsFile_entry.
  unfold dfs_entry at 1, sub_results at 1. cbn [fst snd]. rewrite Hname.
  assert (Hsub : Permutation
                   match child with
                   | FsFile _ => []
                   | FsDir _ => findTestFiles_at H (dir ++ [name]) child
                   end
                   (dfs_in_place H (dir ++ [name]) child)).
  { destruct child as [code|es']; [constructor | now apply IHc]. }
  assert (Hrest' : Permutation
                     (filter (isJsFile H)
                        (map (fun name0 => dir ++ [name0]) (map fst es))
                      ++ match child with
                         | FsFile _ => []
                         | FsDir _ => findTestFiles_at H (dir ++ [name]) child
                         end ++ flat_map (sub_results H dir) es)
                     (dfs_in_place H (dir ++ [name]) child
                      ++ flat_map (dfs_entry H dir) es)).
  { etransitivity; [apply Permutation_app_swap_app|].
    apply Permutation_app; [exact Hsub | exact IHes]. }
  destruct (js_name H name); cbn [app].
  - apply perm_skip. exact Hrest'.
  - exact Hrest'.
Qed.

(** On a well-formed file system, [findTestFiles] finds the same paths,
    as often, as the depth-first traversal that expands every directory
    at its position: the two differ in order only. *)
Theorem findTestFiles_same_files (H : Host) (dir : path) :
  wf_tree (root H) = true ->
  Permutation (findTestFiles H dir) (spec_findTestFiles H dir).
Proof.
  intros Hwf. unfold findTestFiles, spec_findTestFiles.
  destruct (resolve (root H) dir) as [n|] eqn:Hres; [|constructor].
  apply found_permutes. exact (wf_resolve _ _ _ Hwf Hres).
Qed.

Lemma NoDup_map_paths (dir : path) (names : list string) :
  NoDup names -> NoDup (map (fun name => dir ++ [name]) names).
Proof.
  induction 1 as [|n ns Hn _ IH]; cbn [map]; constructor; [|exact IH].
  intros Hin. apply in_map_iff in Hin. destruct Hin as [n' [E Hn']].
  apply app_inv_head in E. injection E as ->. contradiction.
Qed.

Lemma found_beneath (H : Host) (n : fsnode) (dir p : path) :
  wf_tree n = true -> In p (findTestFiles_at H dir n) ->
  exists q, q <> [] /\ p = dir ++ q.
Proof.
  intros Hwf Hin. apply (found_iff H n Hwf) in Hin.
  destruct Hin as (q & Hq & Hp & _). now exists q.
Qed.

Lemma found_once (H : Host) (n : fsnode) :
  wf_tree n = true -> forall dir, NoDup (findTestFiles_at H dir n).
Proof.
  induction n as [code|es IH] using fsnode_ind2; intros Hwf dir;
    [constructor|].
  pose proof Hwf as Hwf'.
  apply wf_tree_dir in Hwf. destruct Hwf as [Hwfe Hall].
  destruct (wf_entries_facts es Hwfe) as [Hnd Hdots].
  assert (Hdots' : forallb not_dot (map fst es) = true)
    by (apply forallb_forall; exact Hdots).
  rewrite (findTestFiles_at_closed H dir es Hdots').
  assert (Hsub : forall name child p,
            In (name, child) es -> In p (sub_results H dir (name, child)) ->
            exists q, q <> [] /\ p = dir ++ name :: q).
  { intros name child p He Hp. unfold sub_results in Hp. cbn [fst snd] in Hp.
    destruct (not_dot name); [|destruct Hp].
    destruct child as [code|es']; [destruct Hp|].
    rewrite Forall_forall in Hall.
    destruct (found_beneath H _ _ _ (Hall _ He) Hp) as (q & Hq & ->).
    exists q. split; [exact Hq | now rewrite <- app_assoc]. }
  apply NoDup_app.
  - apply NoDup_filter. now apply NoDup_map_paths.
  - clear Hwf' Hwfe Hdots Hdots'.
    induction es as [|[name child] es IHes]; [constructor|].
    inversion IH as [|? ? IHc IHrest]; subst.
    inversion Hall as [|? ? Hc Hrest]; subst.
    inversion Hnd as [|? ? Hname Hnd']; subst. cbn [snd] in IHc, Hc.
    cbn [flat_map]. apply NoDup_app.
    + unfold sub_results. cbn [fst snd]. destruct (not_dot name); [|constructor].
      destruct child as [code|es']; [constructor | now apply IHc].
    + apply (IHes IHrest Hrest Hnd').
      intros n c p He. apply (Hsub n c p). now right.
    + intros p Hp Hp'.
      destruct (Hsub name child p (or_introl eq_refl) Hp) as (q & _ & ->).
      apply in_flat_map in Hp'. destruct Hp' as [[n' c'] [He' Hp']].
      destruct (Hsub n' c' _ (or_intror He') Hp') as (q' & _ & E).
      apply app_inv_head in E. injection E as -> _.
      apply Hname. apply in_map_iff. exists (n', c').
      split; [reflexivity | exact He'].
  - intros p Hp Hp'. apply filter_In in Hp. destruct Hp as [Hp _].
    apply in_map_iff in Hp. destruct Hp as [name [<- _]].
    apply in_flat_map in Hp'. destruct Hp' as [[n' c'] [He' Hp']].
    destruct (Hsub n' c' _ He' Hp') as (q' & Hq' & E).
    apply app_inv_head in E. injection E as _ <-. congruence.
Qed.

(** On a well-formed file system, [findTestFiles] lists no path twice:
    a directory given to [runSuites] schedules each of its suites
    once. *)
Theorem findTestFiles_no_duplicates (H : Host) (dir : path) :
  wf_tree (root H) = true -> NoDup (findTestFiles H dir).
Proof.
  intros Hwf. unfold findTestFiles.
  destruct (resolve (root H) dir) as [n|] eqn:Hres; [|constructor].
  apply found_once. exact (wf_resolve _ _ _ Hwf Hres).
Qed.

(* ------------------------------------------------------------------ *)
(** ** More on the comparator *)

Lemma strict_equals_undefined (x : value) :
  strict_equals x VUndefined = true <-> x = VUndefined.
Proof. destruct x; cbn; split; congruence. Qed.

Lemma no_undefined_props_object (c : objclass) (ps : list (string * value)) :
  no_undefined_props (VObject c ps) = true <->
  Forall (fun kv => snd kv <> VUndefined
                    /\ no_undefined_props (snd kv) = true) ps.
Proof.
  cbn [no_undefined_props]. induction ps as [|[k x] ps IHps].
  - split; [constructor | reflexivity].
  - rewrite !andb_true_iff, negb_true_iff, IHps. split.
    + intros [[Hx Hn] Hps]. constructor; [|exact Hps]. split; [|exact Hn].
      intros E. apply strict_equals_undefined in E. cbn [snd] in E. congruence.
    + intros Hall. inversion Hall as [|? ? [Hx Hn] Hps]; subst.
      cbn [snd] in *. split; [split|]; try assumption.
      destruct (strict_equals x VUndefined) eqn:E; [|reflexivity].
      apply strict_equals_undefined in E. contradiction.
Qed.

Lemma SFeqb_sym (x y : spec_float) : SFeqb x y = true -> SFeqb y x = true.
Proof.
  unfold SFeqb, SFcompare.
  destruct x as [s1|s1| |s1 m1 e1], y as [s2|s2| |s2 m2 e2];
    try discriminate; try reflexivity;
    try (destruct s1; discriminate); try (destruct s2; discriminate).
  - destruct s1, s2; try discriminate; reflexivity.
  - change PosDef.Pos.compare_cont with Pos.compare_cont.
    destruct s1, s2; try discriminate;
      destruct (Z.compare e1 e2) eqn:Ee; try discriminate;
      destruct (Pos.compare_cont Eq m1 m2) eqn:Em; try discriminate;
      apply Z.compare_eq in Ee; apply Pos.compare_eq in Em; subst;
      intros _; now rewrite Z.compare_refl, Pos.compare_cont_refl.
Qed.

Lemma strict_equals_sym (a b : value) :
  strict_equals a b = true -> strict_equals b a = true.
Proof.
  destruct a, b; cbn; try discriminate; try reflexivity.
  - destruct b0, b; auto.
  - apply SFeqb_sym.
  - rewrite String.eqb_sym. auto.
Qed.

Lemma keys_covered (pa pb : list (string * value)) (c2 : objclass) :
  (forall k x, In (k, x) pa -> x <> VUndefined) ->
  forin_equals pa (VObject c2 pb) = true ->
  forall k x, In (k, x) pa ->
              exists y, In (k, y) pb /\ testEquals x y = true.
Proof.
  intros Hdef Hall k x Hin.
  pose proof (proj1 (forin_equals_true pa _) Hall k x Hin) as E.
  cbn [get] in E. destruct (lookup k pb) as [y|] eqn:L.
  - exists y. split; [now apply lookup_In | exact E].
  - apply testEquals_undefined in E. now apply Hdef in Hin.
Qed.

(** With property reads limited to own properties ([get]) and no
    property holding [undefined], equality carries over to the swapped
    arguments. *)
Lemma testEquals_sym_true (a : value) :
  forall b,
    wf_value a = true -> wf_value b = true ->
    no_undefined_props a = true -> no_undefined_props b = true ->
    testEquals a b = true -> testEquals b a = true.
Proof.
  induction a as [ | |x|x|s|s|c pa IH] using value_ind2;
    intros b Hwa Hwb Hna Hnb E;
    pose proof (testEquals_same_tag _ _ E) as Htag.
  1-6: destruct b as [ | | | | | |c2 pb]; try discriminate;
       try (destruct c2; discriminate); cbn in E |- *;
       try reflexivity.
  - now destruct x, b.
  - now apply SFeqb_sym.
  - now rewrite String.eqb_sym.
  - now rewrite String.eqb_sym.
  - destruct b as [ | | | | | |c2 pb]; try (destruct c; discriminate).
    rewrite testEquals_objects in E |- *.
    apply andb_true_iff in E. destruct E as [E Hfor].
    apply andb_true_iff in E. destruct E as [Hc Hlen].
    apply Nat.eqb_eq in Hlen.
    rewrite String.eqb_sym, Hc, <- Hlen, Nat.eqb_refl. cbn [andb].
    apply wf_value_object in Hwa. destruct Hwa as [Hnda Hwa].
    apply wf_value_object in Hwb. destruct Hwb as [Hndb Hwb].
    apply no_undefined_props_object in Hna, Hnb.
    rewrite Forall_forall in IH, Hwa, Hwb, Hna, Hnb.
    assert (Hab := keys_covered pa pb c2
                     (fun k x Hin => proj1 (Hna (k, x) Hin)) Hfor).
    assert (Hincl : incl (map fst pb) (map fst pa)).
    { apply NoDup_length_incl; [exact Hnda | rewrite !length_map; lia |].
      intros k Hk. apply in_map_iff in Hk. destruct Hk as [[k' x] [<- Hin]].
      destruct (Hab k' x Hin) as [y [Hy _]].
      apply in_map_iff. exists (k', y). split; [reflexivity | exact Hy]. }
    apply forin_equals_true. intros k y Hy.
    assert (Hk : In k (map fst pa)).
    { apply Hincl. apply in_map_iff. exists (k, y).
      split; [reflexivity | exact Hy]. }
    apply in_map_iff in Hk. destruct Hk as [[k' x] [Ek Hx]].
    cbn [fst] in Ek. subst k'.
    rewrite (get_stored c pa k x Hnda Hx).
    destruct (Hab k x Hx) as [y' [Hy' Exy]].
    assert (y' = y) as ->.
    { pose proof (lookup_NoDup k y pb Hndb Hy) as L1.
      pose proof (lookup_NoDup k y' pb Hndb Hy') as L2. congruence. }
    apply (IH (k, x) Hx y); try assumption.
    + apply (Hwa (k, x) Hx).
    + apply (Hwb (k, y) Hy).
    + apply (Hna (k, x) Hx).
    + apply (Hnb (k, y) Hy).
Qed.

(** With a property that holds [undefined] the order of the arguments
    can matter: [{x: undefined, y: 1}] equals [{y: 1, z: 2}], not the
    other way round. *)
Example testEquals_asymmetric :
  testEquals (plain [("x", VUndefined); ("y", num 1)])
             (plain [("y", num 1); ("z", num 2)]) = true
  /\ testEquals (plain [("y", num 1); ("z", num 2)])
                (plain [("x", VUndefined); ("y", num 1)]) = false.
Proof. split; reflexivity. Qed.

Lemma index_name_inj (i j : nat) : index_name i = index_name j -> i = j.
Proof.
  unfold index_name. intros E.
  assert (E' : Some (Nat.to_uint i) = Some (Nat.to_uint j))
    by (rewrite <- !NilEmpty.usu; now rewrite E).
  injection E' as E'.
  rewrite <- (Unsigned.of_to i), <- (Unsigned.of_to j). now rewrite E'.
Qed.

Lemma index_props_length (i : nat) (l : list value) :
  List.length (index_props i l) = List.length l.
Proof.
  revert i. induction l as [|x l IHl]; intros i; [reflexivity|].
  cbn [index_props List.length]. now rewrite IHl.
Qed.

Lemma lookup_index (l : list value) :
  forall i j, lookup (index_name (i + j)) (index_props i l) = nth_error l j.
Proof.
  induction l as [|x l IHl]; intros i j; [now destruct j|].
  cbn [index_props lookup]. destruct j as [|j].
  - now rewrite Nat.add_0_r, String.eqb_refl.
  - destruct (String.eqb (index_name (i + S j)) (index_name i)) eqn:E.
    + apply String.eqb_eq, index_name_inj in E. lia.
    + replace (i + S j) with (S i + j) by lia. apply IHl.
Qed.

Lemma get_array (l : list value) (j : nat) :
  get (array_of l) (index_name j) = element l j.
Proof.
  unfold array_of, element. cbn [get].
  pose proof (lookup_index l 0 j) as L. cbn [Nat.add] in L. now rewrite L.
Qed.

Lemma forin_index (l : list value) (v2 : value) :
  forall i,
    forin_equals (index_props i l) v2 = true <->
    (forall j x, nth_error l j = Some x ->
                 testEquals x (get v2 (index_name (i + j))) = true).
Proof.
  induction l as [|x l IHl]; intros i.
  - split; [intros _ [|j] y; discriminate | reflexivity].
  - cbn [index_props forin_equals].
    destruct (testEquals x (get v2 (index_name i))) eqn:E; cbn [negb].
    + rewrite IHl. split.
      * intros Hall [|j] y.
        -- cbn. intros [= <-]. now rewrite Nat.add_0_r.
        -- cbn. intros Hy. replace (i + S j) with (S i + j) by lia. auto.
      * intros Hall j y Hy. replace (S i + j) with (i + S j) by lia.
        now apply Hall.
    + split; [discriminate|]. intros Hall.
      specialize (Hall 0 x eq_refl). rewrite Nat.add_0_r in Hall. congruence.
Qed.

Lemma elementwise (l1 l2 : list value) :
  (List.length l1 = List.length l2
   /\ forall j x, nth_error l1 j = Some x ->
                  testEquals x (element l2 j) = true)
  <-> Forall2 (fun x y => testEquals x y = true) l1 l2.
Proof.
  revert l2. induction l1 as [|x l1 IHl1]; intros l2.
  - split.
    + intros [Hlen _]. destruct l2; [constructor | discriminate].
    + intros Hall. inversion Hall. split; [reflexivity|].
      intros [|j] y; discriminate.
  - split.
    + intros [Hlen Hall]. destruct l2 as [|y l2]; [discriminate|].
      constructor; [exact (Hall 0 x eq_refl)|].
      apply IHl1. split; [now injection Hlen|].
      intros j z Hz. exact (Hall (S j) z Hz).
    + intros Hall. inversion Hall as [|? y ? l2' Hxy Hrest]; subst.
      apply IHl1 in Hrest. destruct Hrest as [Hlen Hall'].
      split; [cbn; now rewrite Hlen|].
      intros [|j] z; cbn.
      * intros [= <-]. exact Hxy.
      * apply Hall'.
Qed.

(** Two dense arrays are equal exactly when they have the same length
    and equal elements at every index. *)
Theorem testEquals_arrays (l1 l2 : list value) :
  testEquals (array_of l1) (array_of l2) = true
  <-> Forall2 (fun x y => testEquals x y = true) l1 l2.
Proof.
  rewrite <- elementwise. unfold array_of at 1.
  fold (array_of l2). unfold array_of at 1.
  rewrite testEquals_objects, !index_props_length.
  fold (array_of l2).
  cbn [class_tag]. rewrite String.eqb_refl. cbn [andb].
  rewrite andb_true_iff, Nat.eqb_eq, forin_index.
  apply and_iff_compat_l. split.
  - intros Hall j x Hx. rewrite <- get_array. exact (Hall j x Hx).
  - intros Hall j x Hx. cbn [Nat.add]. rewrite get_array. exact (Hall j x Hx).
Qed.

(* ------------------------------------------------------------------ *)
(** ** The properties above, on the sample file systems *)

Lemma exec_contains_throw_witness :
  accepted faulty_host bad_suite = true
  /\ running (state_after (exec faulty_host bad_suite) fresh) = false
  /\ failed (testResults (state_after (exec faulty_host bad_suite) fresh)) = 1.
Proof.
  destruct (exec_contains_throw faulty_host bad_suite (VString "boom") fresh
              eq_refl eq_refl) as (_ & Hr & Hrun & _).
  split; [reflexivity | split; [exact Hrun | now rewrite Hr]].
Defined.

Lemma exec_attributes_failures_witness :
  currentTestFile (state_after (exec faulty_host bad_suite) fresh)
  = Some bad_suite.
Proof.
  destruct (exec_attributes_failures faulty_host bad_suite fresh eq_refl)
    as (Hc & _).
  exact Hc.
Defined.

Lemma runTest_rejected_witness :
  accepted faulty_host ["readme.md"] = false
  /\ running (state_after (runTest faulty_host ["readme.md"]) fresh) = false.
Proof.
  destruct (runTest_rejected faulty_host ["readme.md"] fresh eq_refl)
    as (_ & _ & Hrun & _).
  split; [reflexivity | exact Hrun].
Defined.

Lemma runSuites_warnings_witness :
  output (state_after (runSuites sample_host [["nowhere"]; ["tests"]]) fresh)
  = [missing_path_warning ["nowhere"]].
Proof.
  apply (runSuites_warnings sample_host [["nowhere"]; ["tests"]] fresh).
  vm_compute. discriminate.
Defined.

Lemma exit_status_values_witness :
  exit_status (run sample_host (launch sample_host fresh [["tests"]])
                   complete_run) = Some 0
  /\ started (history (tester (run sample_host
                                   (launch sample_host fresh [["tests"]])
                                   complete_run)))
     = resolved sample_host [["tests"]].
Proof.
  split; [reflexivity|].
  destruct (exit_status_values sample_host default_options [["tests"]]
              complete_run 0 eq_refl)
    as [(Hz & _) | (_ & _ & Hst & _)]; [discriminate Hz | exact Hst].
Defined.

Lemma all_suites_run_witness :
  exit_status (run sample_host (launch sample_host fresh [["tests"]])
                   (rounds 3 ++ [ETick])) = Some 0.
Proof.
  assert (Hne : resolved sample_host [["tests"]] <> [])
    by (vm_compute; discriminate).
  destruct (all_suites_run sample_host default_options [["tests"]] Hne)
    as (Hx & _).
  exact Hx.
Defined.

Lemma hung_suite_blocks_witness :
  running (tester busy_process) = true
  /\ history (tester (run sample_host busy_process
                          [ETick; EAsync [OCall (CPass (VString "late"))];
                           ETick]))
     = history (tester busy_process).
Proof.
  split; [reflexivity|].
  destruct (hung_suite_blocks sample_host busy_process
              [ETick; EAsync [OCall (CPass (VString "late"))]; ETick]
              eq_refl eq_refl eq_refl) as (_ & Hh & _).
  exact Hh.
Defined.

Lemma step_error_frees_scheduler_witness :
  exit_status busy_process = None
  /\ running (tester (step sample_host busy_process
                           (EStepError (VString "boom")))) = false.
Proof.
  split; [reflexivity|].
  destruct (step_error_frees_scheduler sample_host busy_process
              (VString "boom") eq_refl) as (_ & Hrun & _).
  exact Hrun.
Defined.

Lemma broken_suite_does_not_block_witness :
  running (tester (step faulty_host (launch faulty_host fresh [["suites"]])
                        ETick)) = false.
Proof.
  assert (Hc : current (mkInterval [bad_suite; good_suite] 0)
               < List.length (testFiles (mkInterval [bad_suite; good_suite] 0)))
    by (cbn; lia).
  assert (Hthrows : sync_end (getScriptCode faulty_host
                                (filtered faulty_host bad_suite)) <> None)
    by (vm_compute; discriminate).
  destruct (broken_suite_does_not_block faulty_host
              (launch faulty_host fresh [["suites"]])
              (mkInterval [bad_suite; good_suite] 0)
              eq_refl eq_refl eq_refl Hc
              (or_intror (conj eq_refl Hthrows)))
    as (Hrun & _).
  exact Hrun.
Defined.

Lemma findTestFiles_finds_witness :
  wf_tree (root sample_host) = true
  /\ In ["tests"; "sub"; "s.js"] (findTestFiles sample_host ["tests"]).
Proof.
  split; [reflexivity|].
  destruct (findTestFiles_finds sample_host ["tests"] ["tests"; "sub"; "s.js"]
              eq_refl) as (_ & Hiff).
  apply (Hiff eq_refl). exists ["sub"; "s.js"].
  repeat split. discriminate.
Defined.

Lemma findTestFiles_same_files_witness :
  Permutation (findTestFiles sample_host ["tests"])
              (spec_findTestFiles sample_host ["tests"]).
Proof. apply (findTestFiles_same_files sample_host ["tests"]). reflexivity. Defined.

Lemma findTestFiles_no_duplicates_witness :
  NoDup (findTestFiles sample_host ["tests"]).
Proof.
  apply (findTestFiles_no_duplicates sample_host ["tests"]). reflexivity.
Defined.

Lemma testEquals_key_order_irrelevant_witness :
  testEquals (plain [("a", num 1); ("b", num 2)])
             (plain [("a", num 1); ("b", num 2)])
  = testEquals (plain [("b", num 2); ("a", num 1)])
               (plain [("b", num 2); ("a", num 1)]).
Proof.
  apply (testEquals_key_order_irrelevant OPlain OPlain
           [("a", num 1); ("b", num 2)] [("b", num 2); ("a", num 1)]
           [("a", num 1); ("b", num 2)] [("b", num 2); ("a", num 1)]).
  - apply nodupb_NoDup. reflexivity.
  - apply perm_swap.
  - apply perm_swap.
Defined.

(* ------------------------------------------------------------------ *)
(** ** Suites that wait, and files named by hand *)

(** A suite whose script neither throws nor calls [done] while it is
    evaluated leaves the scheduler waiting: after [runTest], [running] is
    set, the file is the current one, and the results are those its
    synchronous assertions produced. *)
Theorem runTest_waits (H : Host) (f : path) (t : Tester) :
  accepted H f = true ->
  sync_end (getScriptCode H (filtered H f)) = None ->
  forallb quiet_op (sync_ops (getScriptCode H (filtered H f))) = true ->
  let t' := state_after (runTest H f) t in
  running t' = true
  /\ currentTestFile t' = Some (filtered H f)
  /\ history t' = history t ++ [HStart f]
  /\ outcome (runTest H f) t = Ret VUndefined.
Proof.
  intros Hacc Hend Hquiet t'.
  set (t0 := set_running true
               (add_output (Echo (TFill (TJoin [TStr "Test file: "; TPath f]))
                                 (Some INFO_BAR))
                           (add_history (HStart f) t))).
  pose proof (exec_accepted_state H f t0 Hacc) as E. cbn zeta in E.
  rewrite Hend in E.
  set (t1 := state_after _ (set_currentTestFile _ t0)) in E.
  assert (Ert : runTest H f t = (t1, Ret VUndefined)).
  { rewrite runTest_unfold. fold t0. unfold bind at 1, try_catch.
    rewrite E. reflexivity. }
  unfold t'. rewrite (state_after_eq _ _ _ _ Ert), (outcome_eq _ _ _ _ Ert).
  destruct (quiet_ops_frame H _ (set_currentTestFile (Some (filtered H f)) t0)
              Hquiet) as [Hr Hh].
  destruct (run_ops_attributed H
              (sync_ops (getScriptCode H (filtered H f)))
              (set_currentTestFile (Some (filtered H f)) t0)) as [Hc _].
  fold t1 in Hr, Hh, Hc. rewrite Hr, Hh, Hc.
  repeat split.
Qed.

Lemma runTest_waits_witness :
  running (state_after (runTest sample_host ["tests"; "a.js"]) fresh) = true.
Proof.
  destruct (runTest_waits sample_host ["tests"; "a.js"] fresh
              eq_refl eq_refl eq_refl) as (Hr & _).
  exact Hr.
Defined.

(** A file named as an argument of [runSuites] is scheduled whatever its
    extension (only the files found in directories are filtered), and a
    path that does not exist contributes nothing. *)
Theorem named_files_scheduled (H : Host) (paths : list path) (p : path) :
  In p paths ->
  (fs_isFile H p = true -> In p (resolved H paths))
  /\ (fs_exists H p = false -> resolved H [p] = []).
Proof.
  intros Hin. split.
  - intros Hf. unfold resolved. apply in_flat_map. exists p.
    split; [exact Hin|].
    unfold fs_isDirectory, fs_isFile in *.
    destruct (resolve (root H) p) as [[code|es]|]; try discriminate.
    now left.
  - intros Hex. unfold resolved, fs_isDirectory, fs_isFile, fs_exists in *.
    cbn [flat_map]. destruct (resolve (root H) p); [discriminate | reflexivity].
Qed.

Lemma named_files_scheduled_witness :
  In ["readme.md"] (resolved faulty_host [["suites"]; ["readme.md"]]).
Proof.
  destruct (named_files_scheduled faulty_host [["suites"]; ["readme.md"]]
              ["readme.md"] (or_intror (or_introl eq_refl))) as (Hf & _).
  exact (Hf eq_refl).
Defined.

(* ------------------------------------------------------------------ *)
(** ** The comparator as an equivalence *)

Lemma SFeqb_cases (x y : spec_float) :
  SFeqb x y = true ->
  (exists s1 s2, x = S754_zero s1 /\ y = S754_zero s2)
  \/ (x = y /\ x <> S754_nan).
Proof.
  unfold SFeqb, SFcompare.
  destruct x as [s1|s1| |s1 m1 e1], y as [s2|s2| |s2 m2 e2];
    try discriminate;
    try (destruct s1; discriminate); try (destruct s2; discriminate).
  - intros _. left. now exists s1, s2.
  - destruct s1, s2; try discriminate; intros _; right;
      (split; [reflexivity | discriminate]).
  - change PosDef.Pos.compare_cont with Pos.compare_cont.
    destruct s1, s2; try discriminate;
      destruct (Z.compare e1 e2) eqn:Ee; try discriminate;
      destruct (Pos.compare_cont Eq m1 m2) eqn:Em; try discriminate;
      apply Z.compare_eq in Ee; apply Pos.compare_eq in Em; subst;
      intros _; right; (split; [reflexivity | discriminate]).
Qed.

Lemma SFeqb_trans (x y z : spec_float) :
  SFeqb x y = true -> SFeqb y z = true -> SFeqb x z = true.
Proof.
  intros Hxy Hyz.
  destruct (SFeqb_cases x y Hxy) as [(s1 & s2 & -> & ->) | [-> _]];
    [|exact Hyz].
  destruct (SFeqb_cases _ z Hyz) as [(s3 & s4 & _ & ->) | [<- _]];
    reflexivity.
Qed.

Lemma strict_equals_trans (a b c : value) :
  strict_equals a b = true -> strict_equals b c = true ->
  strict_equals a c = true.
Proof.
  destruct a, b; cbn; try discriminate; destruct c; cbn;
    try discriminate; try reflexivity.
  - destruct b0, b, b1; auto.
  - apply SFeqb_trans.
  - rewrite !String.eqb_eq. congruence.
Qed.

(** With property reads limited to own properties ([get]) and no
    property holding [undefined], equality carries over along a chain. *)
Lemma testEquals_trans_true (a : value) :
  forall b c,
    wf_value a = true -> wf_value b = true -> wf_value c = true ->
    no_undefined_props a = true -> no_undefined_props b = true ->
    testEquals a b = true -> testEquals b c = true -> testEquals a c = true.
Proof.
  induction a as [ | |x|x|s|s|ca pa IH] using value_ind2;
    intros b c Hwa Hwb Hwc Hna Hnb Eab Ebc;
    pose proof (testEquals_same_tag _ _ Eab) as Htab;
    pose proof (testEquals_same_tag _ _ Ebc) as Htbc.
  1-6: destruct b as [ | | | | | |cb pb]; try discriminate;
       try (destruct cb; discriminate);
       destruct c as [ | | | | | |cc pc]; try discriminate;
       try (destruct cc; discriminate); cbn in Eab, Ebc |- *;
       try reflexivity.
  - destruct x, b, b0; auto; discriminate.
  - now apply (SFeqb_trans x x0 x1).
  - apply String.eqb_eq in Eab, Ebc. subst. apply String.eqb_refl.
  - apply String.eqb_eq in Eab, Ebc. subst. apply String.eqb_refl.
  - destruct b as [ | | | | | |cb pb]; try (destruct ca; discriminate).
    destruct c as [ | | | | | |cc pc]; try (destruct cb; discriminate).
    rewrite testEquals_objects in Eab, Ebc |- *.
    apply andb_true_iff in Eab. destruct Eab as [Eab Hforab].
    apply andb_true_iff in Eab. destruct Eab as [Hcab Hlab].
    apply andb_true_iff in Ebc. destruct Ebc as [Ebc Hforbc].
    apply andb_true_iff in Ebc. destruct Ebc as [Hcbc Hlbc].
    apply Nat.eqb_eq in Hlab, Hlbc. apply String.eqb_eq in Hcab, Hcbc.
    rewrite Hcab, Hcbc, String.eqb_refl, Hlab, Hlbc, Nat.eqb_refl.
    cbn [andb].
    apply wf_value_object in Hwa, Hwb, Hwc.
    destruct Hwa as [Hnda Hwa], Hwb as [Hndb Hwb], Hwc as [Hndc Hwc].
    apply no_undefined_props_object in Hna, Hnb.
    rewrite Forall_forall in IH, Hwa, Hwb, Hwc, Hna, Hnb.
    apply forin_equals_true. intros k x Hx.
    destruct (keys_covered pa pb cb
                (fun k x Hin => proj1 (Hna (k, x) Hin)) Hforab k x Hx)
      as [y [Hy Exy]].
    destruct (keys_covered pb pc cc
                (fun k x Hin => proj1 (Hnb (k, x) Hin)) Hforbc k y Hy)
      as [z [Hz Eyz]].
    rewrite (get_stored cc pc k z Hndc Hz).
    apply (IH (k, x) Hx y z); try assumption.
    + apply (Hwa (k, x) Hx).
    + apply (Hwb (k, y) Hy).
    + apply (Hwc (k, z) Hz).
    + apply (Hna (k, x) Hx).
    + apply (Hnb (k, y) Hy).
Qed.

(* ------------------------------------------------------------------ *)
(** ** The schedule of a run *)







(* ------------------------------------------------------------------ *)
(** ** The comparator and the prototype chain *)

Lemma class_tag_inj (c1 c2 : objclass) :
  String.eqb (class_tag c1) (class_tag c2) = true -> c1 = c2.
Proof. destruct c1, c2; cbn; intros E; try discriminate E; reflexivity. Qed.

Section Prototype.

Variable B : Builtins.

(** For a name that is no inherited or hidden member, [v[k]] is the own
    property or [undefined]. *)
Lemma get_in_own (c : objclass) (ps : list (string * value)) (k : string) :
  member_name B c k = false ->
  get_in B (VObject c ps) k = get (VObject c ps) k.
Proof.
  intros Hk. cbn. destruct (lookup k ps); [reflexivity | now rewrite Hk].
Qed.

(** An own property shadows whatever the prototype chain holds. *)
Lemma get_in_stored (c : objclass) (ps : list (string * value)) (k : string)
      (x : value) :
  NoDup (map fst ps) -> In (k, x) ps -> get_in B (VObject c ps) k = x.
Proof.
  intros Hnd Hin. cbn. now rewrite (lookup_NoDup k x ps Hnd Hin).
Qed.

Lemma forin_equals_in_true (ps : list (string * value)) (v2 : value) :
  forin_equals_in B ps v2 = true <->
  (forall k x, In (k, x) ps -> testEquals_in B x (get_in B v2 k) = true).
Proof.
  induction ps as [|[k x] ps IHps]; cbn [forin_equals_in].
  - split; [intros _ ? ? [] | reflexivity].
  - destruct (testEquals_in B x (get_in B v2 k)) eqn:E; cbn [negb].
    + rewrite IHps. split.
      * intros Hall k' x' [[= <- <-] | Hin]; auto.
      * intros Hall k' x' Hin. apply Hall. now right.
    + split; [discriminate|]. intros Hall.
      rewrite <- E. apply Hall. now left.
Qed.

(** [testEquals] on two objects, as the source reads. *)
Lemma testEquals_in_objects (c1 c2 : objclass)
      (ps1 ps2 : list (string * value)) :
  testEquals_in B (VObject c1 ps1) (VObject c2 ps2) =
  String.eqb (class_tag c1) (class_tag c2)
  && Nat.eqb (List.length ps1) (List.length ps2)
  && forin_equals_in B ps1 (VObject c2 ps2).
Proof.
  remember (VObject c2 ps2) as v2 eqn:Ev2.
  cbn [testEquals_in].
  replace (betterTypeOf v2) with (class_tag c2) by (now subst v2).
  replace (betterTypeOf (VObject c1 ps1)) with (class_tag c1) by reflexivity.
  destruct (String.eqb (class_tag c1) (class_tag c2)); cbn [negb andb];
    [|reflexivity].
  replace (isFunction (VObject c1 ps1)) with false by (now destruct c1).
  replace (instanceofObject v2) with true by (now subst v2).
  replace (List.length (keys v2)) with (List.length ps2)
    by (subst v2; simpl; now rewrite length_map).
  cbn [keys]. rewrite length_map.
  destruct (Nat.eqb (List.length ps1) (List.length ps2)); cbn [negb andb];
    [|reflexivity].
  clear Ev2.
  induction ps1 as [|[k x] ps1 IHps1]; cbn [forin_equals_in];
    [reflexivity|].
  destruct (testEquals_in B x (get_in B v2 k)); cbn [negb];
    [exact IHps1 | reflexivity].
Qed.

Lemma testEquals_in_same_tag (v1 v2 : value) :
  testEquals_in B v1 v2 = true -> betterTypeOf v1 = betterTypeOf v2.
Proof.
  intros E. destruct (String.eqb (betterTypeOf v1) (betterTypeOf v2)) eqn:T.
  - now apply String.eqb_eq.
  - destruct v1; cbn [testEquals_in] in E; rewrite T in E; discriminate.
Qed.

(** A defined value never equals [undefined]. *)
Lemma testEquals_in_undefined (x : value) :
  testEquals_in B x VUndefined = true -> x = VUndefined.
Proof.
  intros E. apply testEquals_in_same_tag in E.
  destruct x as [ | | | | | |c ps]; try discriminate; [reflexivity|].
  destruct c; discriminate.
Qed.

Lemma own_only_object (c : objclass) (ps : list (string * value)) :
  own_only B (VObject c ps) = true <->
  Forall (fun kv => member_name B c (fst kv) = false
                    /\ own_only B (snd kv) = true) ps.
Proof.
  cbn [own_only]. induction ps as [|[k x] ps IHps].
  - split; [constructor | reflexivity].
  - rewrite !andb_true_iff, negb_true_iff, IHps. split.
    + intros [[Hk Hx] Hps]. constructor; [split|]; assumption.
    + intros Hall. inversion Hall as [|? ? [Hk Hx] Hps]; subst.
      split; [split|]; assumption.
Qed.

(** On a first argument whose property names are all own names, reading
    through the prototype chain changes nothing: every [v2[k]] the loop
    asks for is an own property of [v2] or [undefined]. *)
Lemma testEquals_in_own (v1 : value) :
  own_only B v1 = true ->
  forall v2, testEquals_in B v1 v2 = testEquals v1 v2.
Proof.
  induction v1 as [ | |b|x|s|s|c ps IH] using value_ind2; intros Ho v2;
    try reflexivity.
  destruct v2 as [ | |b|x|s|s|c2 ps2]; try (destruct c; reflexivity).
  rewrite testEquals_in_objects, testEquals_objects.
  destruct (String.eqb (class_tag c) (class_tag c2)) eqn:T; [|reflexivity].
  apply class_tag_inj in T. subst c2. f_equal.
  apply own_only_object in Ho.
  assert (Hw : forall k, In k (map fst ps) ->
                 get_in B (VObject c ps2) k = get (VObject c ps2) k).
  { intros k Hk. apply get_in_own. apply in_map_iff in Hk.
    destruct Hk as [[k' x] [<- Hin]].
    rewrite Forall_forall in Ho. exact (proj1 (Ho _ Hin)). }
  induction ps as [|[k x] ps IHps]; [reflexivity|].
  inversion IH as [|? ? IHx IHrest]; subst.
  inversion Ho as [|? ? [_ Hx] Hrest]; subst.
  cbn [forin_equals_in forin_equals snd] in *.
  rewrite (Hw k (or_introl eq_refl)), (IHx Hx).
  destruct (testEquals x (get (VObject c ps2) k)); cbn [negb];
    [|reflexivity].
  apply IHps; [exact IHrest | exact Hrest|].
  intros k' Hk'. apply Hw. now right.
Qed.

(** Whenever the specification's condition holds, [testEquals] is true. *)
Lemma testEquals_in_plain_sound (pa pb : list (string * value)) :
  NoDup (map fst pb) ->
  spec_plain_equals_in B pa pb ->
  testEquals_in B (plain pa) (plain pb) = true.
Proof.
  intros Hnb [Hlen [Hab _]]. unfold plain.
  rewrite testEquals_in_objects, Hlen, Nat.eqb_refl. cbn [class_tag andb].
  rewrite String.eqb_refl. cbn [andb].
  apply forin_equals_in_true. intros k x Hin.
  destruct (Hab k x Hin) as [y [Hy E]].
  now rewrite (get_in_stored OPlain pb k y Hnb Hy).
Qed.

(** Where no property of the first object holds [undefined] or is named
    like a member objects inherit, the specification's condition and
    [testEquals] agree: two plain objects are equal exactly when they
    have the same number of keys and every key of either exists in the
    other with equal values. *)
Theorem testEquals_in_plain_defined (pa pb : list (string * value)) :
  NoDup (map fst pa) -> NoDup (map fst pb) ->
  (forall k x, In (k, x) pa ->
     x <> VUndefined /\ member_name B OPlain k = false) ->
  (testEquals_in B (plain pa) (plain pb) = true
   <-> spec_plain_equals_in B pa pb).
Proof.
  intros Hna Hnb Hdef. split; [|now apply testEquals_in_plain_sound].
  unfold plain. rewrite testEquals_in_objects. cbn [class_tag].
  rewrite String.eqb_refl. cbn [andb].
  rewrite andb_true_iff, Nat.eqb_eq, forin_equals_in_true.
  intros [Hlen Hall].
  assert (Hab : forall k x, In (k, x) pa ->
                  exists y, In (k, y) pb /\ testEquals_in B x y = true).
  { intros k x Hin. specialize (Hall k x Hin).
    destruct (Hdef k x Hin) as [Hx Hk].
    rewrite (get_in_own OPlain pb k Hk) in Hall. cbn [get] in Hall.
    destruct (lookup k pb) as [y|] eqn:L.
    - exists y. split; [now apply lookup_In | exact Hall].
    - apply testEquals_in_undefined in Hall. contradiction. }
  split; [exact Hlen | split; [exact Hab|]].
  assert (Hincl : incl (map fst pb) (map fst pa)).
  { apply NoDup_length_incl; [exact Hna | rewrite !length_map; lia |].
    intros k Hk. apply in_map_iff in Hk. destruct Hk as [[k' x] [<- Hin]].
    destruct (Hab k' x Hin) as [y [Hy _]].
    apply in_map_iff. exists (k', y). split; [reflexivity | exact Hy]. }
  intros k y Hy.
  assert (Hk : In k (map fst pa)).
  { apply Hincl. apply in_map_iff. exists (k, y).
    split; [reflexivity | exact Hy]. }
  apply in_map_iff in Hk. destruct Hk as [[k' x] [Ek Hx]].
  cbn [fst] in Ek. subst k'.
  exists x. split; [exact Hx|].
  destruct (Hab k x Hx) as [y' [Hy' E]].
  assert (y' = y) as ->; [|exact E].
  pose proof (lookup_NoDup k y pb Hnb Hy) as L1.
  pose proof (lookup_NoDup k y' pb Hnb Hy') as L2. congruence.
Qed.

(** Where no property holds [undefined] and no property is named like a
    member objects inherit, the comparator is symmetric:
    [testEquals(a, b)] and [testEquals(b, a)] agree. *)
Theorem testEquals_in_symmetric (a b : value) :
  wf_value a = true -> wf_value b = true ->
  no_undefined_props a = true -> no_undefined_props b = true ->
  own_only B a = true -> own_only B b = true ->
  testEquals_in B a b = testEquals_in B b a.
Proof.
  intros Hwa Hwb Hna Hnb Hoa Hob.
  rewrite (testEquals_in_own a Hoa b), (testEquals_in_own b Hob a).
  destruct (testEquals a b) eqn:Eab, (testEquals b a) eqn:Eba;
    try reflexivity.
  - now rewrite (testEquals_sym_true a b Hwa Hwb Hna Hnb Eab) in Eba.
  - now rewrite (testEquals_sym_true b a Hwb Hwa Hnb Hna Eba) in Eab.
Qed.

(** Where no property holds [undefined] and no property is named like a
    member objects inherit, the comparator is transitive: if [a] equals
    [b] and [b] equals [c], then [a] equals [c]. *)
Theorem testEquals_in_transitive (a b c : value) :
  wf_value a = true -> wf_value b = true -> wf_value c = true ->
  no_undefined_props a = true -> no_undefined_props b = true ->
  own_only B a = true -> own_only B b = true ->
  testEquals_in B a b = true -> testEquals_in B b c = true ->
  testEquals_in B a c = true.
Proof.
  intros Hwa Hwb Hwc Hna Hnb Hoa Hob.
  rewrite (testEquals_in_own a Hoa b), (testEquals_in_own b Hob c),
    (testEquals_in_own a Hoa c).
  exact (testEquals_trans_true a b c Hwa Hwb Hwc Hna Hnb).
Qed.

End Prototype.

(** A property named like an inherited member breaks all three: the
    inherited [constructor] of [{y: 1}] answers for the own one of
    [{constructor: Object}], not the other way round. *)
Example inherited_member_asymmetric :
  testEquals_in sample_builtins
    (plain [("constructor", native "Object")]) (plain [("y", num 1)]) = true
  /\ testEquals_in sample_builtins
       (plain [("y", num 1)]) (plain [("constructor", native "Object")])
     = false.
Proof. split; reflexivity. Qed.

Example inherited_member_not_transitive :
  let a := plain [("constructor", native "Object")] in
  let b := plain [("toString", native "toString")] in
  let c := plain [("constructor", num 5)] in
  testEquals_in sample_builtins a b = true
  /\ testEquals_in sample_builtins b c = true
  /\ testEquals_in sample_builtins a c = false.
Proof. repeat split; reflexivity. Qed.

Lemma testEquals_in_plain_defined_witness :
  testEquals_in sample_builtins (plain [("a", num 1); ("b", num 2)])
                (plain [("b", num 2); ("a", num 1)]) = true
  <-> spec_plain_equals_in sample_builtins [("a", num 1); ("b", num 2)]
                           [("b", num 2); ("a", num 1)].
Proof.
  apply (testEquals_in_plain_defined sample_builtins
           [("a", num 1); ("b", num 2)] [("b", num 2); ("a", num 1)]).
  - apply nodupb_NoDup. reflexivity.
  - apply nodupb_NoDup. reflexivity.
  - intros k x [[= <- <-] | [[= <- <-] | []]];
      (split; [discriminate | reflexivity]).
Defined.

Lemma testEquals_in_symmetric_witness :
  testEquals_in sample_builtins
    (plain [("a", num 1); ("b", VString "x")])
    (plain [("b", VString "x"); ("a", num 2)])
  = testEquals_in sample_builtins
      (plain [("b", VString "x"); ("a", num 2)])
      (plain [("a", num 1); ("b", VString "x")]).
Proof.
  apply (testEquals_in_symmetric sample_builtins
           (plain [("a", num 1); ("b", VString "x")])
           (plain [("b", VString "x"); ("a", num 2)])); reflexivity.
Defined.

Lemma testEquals_in_transitive_witness :
  testEquals_in sample_builtins
    (plain [("a", num 0); ("b", VString "x")])
    (plain [("b", VString "x"); ("a", num 0)]) = true.
Proof.
  apply (testEquals_in_transitive sample_builtins
           (plain [("a", num 0); ("b", VString "x")])
           (plain [("b", VString "x"); ("a", VNumber (S754_zero true))])
           (plain [("b", VString "x"); ("a", num 0)])); reflexivity.
Defined.
